(** * FOCUS presenter-intent engine: a shallow embedding and its properties

    This development embeds [src/intent/focus-algorithm.ts] (the class
    [FocusAlgorithm] and the utility [resolveConflict]) together with the
    domain types and tables of [src/shared/types/focus.ts].

    Number model.  A JavaScript [number] is used in three roles here:
    - integer quantities (timestamps in ms, pixel coordinates, dwell and
      cooldown durations, counters) are modelled as [Z], which is what
      doubles compute on integers of magnitude below 2^53;
    - confidences and thresholds, which are decimal fractions combined by
      [+] and [-] and compared against thresholds, are modelled as binary64
      floats ([PrimFloat]), so that [0.95 - 0.15] is the double the engine
      really computes;
    - the geometric proximity [1 / (1 + Math.sqrt(dx*dx + dy*dy))] is a
      double: the offsets [dx] and [dy] are integers, and from the
      squares on every operation is the binary64 one, so that two
      proximities compare as the doubles the engine really computes
      (distinct distances can round to the same proximity).  An integer
      enters double arithmetic through [Js.number].

    Callbacks.  [onFocusChange] and [onFocusState] are modelled as an output
    log: every call [this.onFocusChange?.(event)] appends [FocusChange event]
    and every call [this.onFocusState?.(snapshot)] appends
    [FocusState snapshot].  [Date.now()] is an explicit parameter [clock]. *)

From Stdlib Require Import ZArith List String Bool Lia Sorted.
From Stdlib Require Import Reals Lra.
From Stdlib Require Import Permutation.
From Corelib Require Import PrimFloat SpecFloat FloatOps FloatAxioms.
Import ListNotations.

#[local] Open Scope Z_scope.
#[local] Set Warnings "-inexact-float".

(* ------------------------------------------------------------------ *)
(** ** JavaScript helpers *)

Module Js.

(** Truthiness of a string-or-null value: [null], [undefined] and the
    empty string are falsy. *)
Definition truthy (v : option string) : bool :=
  match v with
  | Some s => negb (String.eqb s EmptyString)
  | None => false
  end.

(** [a === b] on string-or-null values. *)
Definition strict_eq (a b : option string) : bool :=
  match a, b with
  | Some x, Some y => String.eqb x y
  | None, None => true
  | _, _ => false
  end.

(** [a || d] for a string-or-null [a] and a string default [d]. *)
Definition or_default (a : option string) (d : string) : string :=
  match a with
  | Some s => if String.eqb s EmptyString then d else s
  | None => d
  end.

Definition two52 : float := 4503599627370496%float.

(** The double of an integer (exact for magnitudes below 2^53). *)
Fixpoint number_of_pos (p : positive) : float :=
  match p with
  | xH => 1
  | xO q => 2 * number_of_pos q
  | xI q => 2 * number_of_pos q + 1
  end%float.

Definition number (z : Z) : float :=
  match z with
  | Z0 => 0
  | Zpos p => number_of_pos p
  | Zneg p => - number_of_pos p
  end%float.

(** [Math.min] and [Math.max] on two doubles (NaN is contagious; the
    sign of a zero result is not tracked). *)
Definition Math_min (a b : float) : float :=
  if (is_nan a || is_nan b)%bool then nan
  else if (a <? b)%float then a else b.

Definition Math_max (a b : float) : float :=
  if (is_nan a || is_nan b)%bool then nan
  else if (b <? a)%float then a else b.

(** [Math.floor]: doubles of magnitude at least 2^52 are integers;
    below that, adding and subtracting 2^52 rounds to an integer. *)
Definition Math_floor (v : float) : float :=
  if is_nan v then v
  else if (two52 <=? abs v)%float then v
  else
    let r := if (0 <=? v)%float then ((v + two52) - two52)%float
             else ((v - two52) + two52)%float in
    if (v <? r)%float then (r - 1)%float else r.

(** [Math.round]: the nearest integer, halves rounded up. *)
Definition Math_round (v : float) : float :=
  if is_nan v then v
  else if (two52 <=? abs v)%float then v
  else
    let f := Math_floor v in
    if (0.5 <=? v - f)%float then (f + 1)%float else f.

(** ** [Map<K, V>] with string keys: insertion-ordered, unique keys. *)
Section JsMap.
Context {V : Type}.

Definition Map := list (string * V).

Fixpoint has (m : Map) (k : string) : bool :=
  match m with
  | [] => false
  | (k', _) :: m' => if String.eqb k' k then true else has m' k
  end.

Fixpoint get (m : Map) (k : string) : option V :=
  match m with
  | [] => None
  | (k', v) :: m' => if String.eqb k' k then Some v else get m' k
  end.

(** [m.set(k, v)]: an existing key keeps its position. *)
Fixpoint set (m : Map) (k : string) (v : V) : Map :=
  match m with
  | [] => [(k, v)]
  | (k', v') :: m' =>
      if String.eqb k' k then (k', v) :: m' else (k', v') :: set m' k v
  end.

(** [new Map(entries)]. *)
Definition of_entries (entries : list (string * V)) : Map :=
  fold_left (fun m kv => set m (fst kv) (snd kv)) entries [].
End JsMap.
Arguments Map V : clear implicits.

End Js.

(* ------------------------------------------------------------------ *)
(** ** Domain types ([shared/types/focus.ts]) *)

(** [type ScreenId = string]. *)
Abbreviation ScreenId := string (only parsing).

Record DisplayBounds := mkDisplayBounds {
  b_screenId : ScreenId;
  b_x : Z;
  b_y : Z;
  b_width : Z;
  b_height : Z;
  b_dpiScale : float
}.

Inductive SignalType :=
| Manual | Click | DragStart | DragEnd | DoubleClick | WindowFocus
| Typing | Scroll | Gesture | Hover | PointerMove.

Definition SignalType_eqb (a b : SignalType) : bool :=
  match a, b with
  | Manual, Manual | Click, Click | DragStart, DragStart
  | DragEnd, DragEnd | DoubleClick, DoubleClick
  | WindowFocus, WindowFocus | Typing, Typing | Scroll, Scroll
  | Gesture, Gesture | Hover, Hover | PointerMove, PointerMove => true
  | _, _ => false
  end.

(** Priority ranking: lower number = higher priority. *)
Definition SIGNAL_PRIORITY (t : SignalType) : Z :=
  match t with
  | Manual => 0
  | Click => 1
  | DragStart => 1
  | DragEnd => 2
  | DoubleClick => 1
  | WindowFocus => 3
  | Typing => 4
  | Scroll => 5
  | Gesture => 6
  | Hover => 7
  | PointerMove => 8
  end.

Definition BASE_CONFIDENCE (t : SignalType) : float :=
  match t with
  | Manual => 1.00
  | Click => 0.95
  | DragStart => 0.95
  | DragEnd => 0.85
  | DoubleClick => 0.95
  | WindowFocus => 0.90
  | Typing => 0.90
  | Scroll => 0.85
  | Gesture => 0.85
  | Hover => 0.70
  | PointerMove => 0.40
  end%float.

Record IntentSignal := mkIntentSignal {
  s_type : SignalType;
  s_screenId : ScreenId;
  s_x : Z;
  s_y : Z;
  s_timestampMs : Z;
  s_speedPxPerS : option float;
  s_windowDisplayId : option ScreenId
}.

Record FocusChangeEvent := mkFocusChangeEvent {
  e_sessionId : string;
  e_screenId : ScreenId;
  e_reason : SignalType;
  e_confidence : float;
  e_dwellMs : Z;
  e_sequence : Z;
  e_timestampMs : Z
}.

Inductive FocusMode := ModeAuto | ModeManual | ModeFrozen.

Record FocusStateSnapshot := mkFocusStateSnapshot {
  snap_activeScreenId : ScreenId;
  snap_mode : FocusMode;
  snap_frozen : bool;
  snap_sequence : Z;
  snap_timestampMs : Z
}.

Record FocusConfig := mkFocusConfig {
  maxScreens : Z;
  switchThreshold : float;
  stayThreshold : float;
  cooldownMs : Z;
  idleMs : Z;
  idleMotionPxPerS : float;
  clickDwellMs : Z;
  typingDwellMs : Z;
  scrollDwellMs : Z;
  hoverDwellMs : Z;
  movementDwellMs : Z;
  movementSpeedHighPxPerS : float;
  hoverRadiusPx : Z;
  resumeGraceMs : Z
}.

Definition DEFAULT_FOCUS_CONFIG : FocusConfig := {|
  maxScreens := 3;
  switchThreshold := 0.80;
  stayThreshold := 0.50;
  cooldownMs := 500;
  idleMs := 2000;
  idleMotionPxPerS := 5;
  clickDwellMs := 300;
  typingDwellMs := 300;
  scrollDwellMs := 300;
  hoverDwellMs := 500;
  movementDwellMs := 800;
  movementSpeedHighPxPerS := 1200;
  hoverRadiusPx := 8;
  resumeGraceMs := 300
|}.

(** [Partial<FocusConfig>]: every key may be absent. *)
Record PartialFocusConfig := mkPartialFocusConfig {
  p_maxScreens : option Z;
  p_switchThreshold : option float;
  p_stayThreshold : option float;
  p_cooldownMs : option Z;
  p_idleMs : option Z;
  p_idleMotionPxPerS : option float;
  p_clickDwellMs : option Z;
  p_typingDwellMs : option Z;
  p_scrollDwellMs : option Z;
  p_hoverDwellMs : option Z;
  p_movementDwellMs : option Z;
  p_movementSpeedHighPxPerS : option float;
  p_hoverRadiusPx : option Z;
  p_resumeGraceMs : option Z
}.

(** The default argument [config = {}]. *)
Definition emptyPartial : PartialFocusConfig :=
  mkPartialFocusConfig None None None None None None None
                       None None None None None None None.

Definition override {A : Type} (d : A) (o : option A) : A :=
  match o with Some v => v | None => d end.

(** [{ ...base, ...config }]. *)
Definition spread (base : FocusConfig) (config : PartialFocusConfig)
  : FocusConfig := {|
  maxScreens := override (maxScreens base) (p_maxScreens config);
  switchThreshold :=
    override (switchThreshold base) (p_switchThreshold config);
  stayThreshold := override (stayThreshold base) (p_stayThreshold config);
  cooldownMs := override (cooldownMs base) (p_cooldownMs config);
  idleMs := override (idleMs base) (p_idleMs config);
  idleMotionPxPerS :=
    override (idleMotionPxPerS base) (p_idleMotionPxPerS config);
  clickDwellMs := override (clickDwellMs base) (p_clickDwellMs config);
  typingDwellMs := override (typingDwellMs base) (p_typingDwellMs config);
  scrollDwellMs := override (scrollDwellMs base) (p_scrollDwellMs config);
  hoverDwellMs := override (hoverDwellMs base) (p_hoverDwellMs config);
  movementDwellMs :=
    override (movementDwellMs base) (p_movementDwellMs config);
  movementSpeedHighPxPerS :=
    override (movementSpeedHighPxPerS base)
             (p_movementSpeedHighPxPerS config);
  hoverRadiusPx := override (hoverRadiusPx base) (p_hoverRadiusPx config);
  resumeGraceMs := override (resumeGraceMs base) (p_resumeGraceMs config)
|}.

Record FocusAlgorithmState := mkState {
  activeScreenId : option ScreenId;
  frozen : bool;
  autoEnabled : bool;
  manualOverride : option ScreenId;
  lastSwitchTs : Z;
  candidateScreenId : option ScreenId;
  candidateSinceTs : Z;
  lastActivityTs : Z;
  sequence : Z
}.

Inductive PresenterControlAction :=
| ToggleAutoFocus | ToggleFreeze | ManualSelect | ClearManual.

Record PresenterControl := mkPresenterControl {
  c_action : PresenterControlAction;
  c_screenId : option ScreenId;
  c_timestampMs : Z
}.

(** The string value of each enum member (the key under which
    [signalCounts] counts it). *)
Definition SignalType_value (t : SignalType) : string :=
  match t with
  | Manual => "manual"
  | Click => "click"
  | DragStart => "drag_start"
  | DragEnd => "drag_end"
  | DoubleClick => "double_click"
  | WindowFocus => "window_focus"
  | Typing => "typing"
  | Scroll => "scroll"
  | Gesture => "gesture"
  | Hover => "hover"
  | PointerMove => "pointer_move"
  end%string.

(* ------------------------------------------------------------------ *)
(** ** The engine ([intent/focus-algorithm.ts]) *)

Record FocusMetrics := mkMetrics {
  focusChanges : Z;
  cooldownBlocks : Z;
  dwellResets : Z;
  idleBlocks : Z;
  signalCounts : Js.Map Z
}.

Record FocusAlgorithm := mkFocusAlgorithm {
  state : FocusAlgorithmState;
  config : FocusConfig;
  displays : Js.Map DisplayBounds;
  sessionId : string;
  metrics : FocusMetrics
}.

(** What the engine hands to its two callback slots. *)
Inductive Emitted :=
| FocusChange (event : FocusChangeEvent)
| FocusState (snapshot : FocusStateSnapshot).

(** *** Field assignments *)

Definition with_state (e : FocusAlgorithm) (st : FocusAlgorithmState)
  : FocusAlgorithm :=
  mkFocusAlgorithm st (config e) (displays e) (sessionId e) (metrics e).

Definition with_metrics (e : FocusAlgorithm) (m : FocusMetrics)
  : FocusAlgorithm :=
  mkFocusAlgorithm (state e) (config e) (displays e) (sessionId e) m.

Definition with_displays (e : FocusAlgorithm) (d : Js.Map DisplayBounds)
  : FocusAlgorithm :=
  mkFocusAlgorithm (state e) (config e) d (sessionId e) (metrics e).

Definition set_lastActivityTs (st : FocusAlgorithmState) (v : Z) :=
  mkState (activeScreenId st) (frozen st) (autoEnabled st)
          (manualOverride st) (lastSwitchTs st) (candidateScreenId st)
          (candidateSinceTs st) v (sequence st).

Definition set_candidate (st : FocusAlgorithmState)
  (c : option ScreenId) (since : Z) :=
  mkState (activeScreenId st) (frozen st) (autoEnabled st)
          (manualOverride st) (lastSwitchTs st) c since
          (lastActivityTs st) (sequence st).

Definition set_candidateSinceTs (st : FocusAlgorithmState) (v : Z) :=
  set_candidate st (candidateScreenId st) v.

Definition set_autoEnabled (st : FocusAlgorithmState) (v : bool) :=
  mkState (activeScreenId st) (frozen st) v
          (manualOverride st) (lastSwitchTs st) (candidateScreenId st)
          (candidateSinceTs st) (lastActivityTs st) (sequence st).

Definition set_frozen (st : FocusAlgorithmState) (v : bool) :=
  mkState (activeScreenId st) v (autoEnabled st)
          (manualOverride st) (lastSwitchTs st) (candidateScreenId st)
          (candidateSinceTs st) (lastActivityTs st) (sequence st).

Definition set_manualOverride (st : FocusAlgorithmState)
  (v : option ScreenId) :=
  mkState (activeScreenId st) (frozen st) (autoEnabled st)
          v (lastSwitchTs st) (candidateScreenId st)
          (candidateSinceTs st) (lastActivityTs st) (sequence st).

Definition set_signalCounts (m : FocusMetrics) (v : Js.Map Z) :=
  mkMetrics (focusChanges m) (cooldownBlocks m) (dwellResets m)
            (idleBlocks m) v.

Definition incr_focusChanges (m : FocusMetrics) :=
  mkMetrics (focusChanges m + 1) (cooldownBlocks m) (dwellResets m)
            (idleBlocks m) (signalCounts m).

Definition incr_cooldownBlocks (m : FocusMetrics) :=
  mkMetrics (focusChanges m) (cooldownBlocks m + 1) (dwellResets m)
            (idleBlocks m) (signalCounts m).

Definition incr_dwellResets (m : FocusMetrics) :=
  mkMetrics (focusChanges m) (cooldownBlocks m) (dwellResets m + 1)
            (idleBlocks m) (signalCounts m).

Definition incr_idleBlocks (m : FocusMetrics) :=
  mkMetrics (focusChanges m) (cooldownBlocks m) (dwellResets m)
            (idleBlocks m + 1) (signalCounts m).

(** *** Constructor *)

Definition Map_of_displays (ds : list DisplayBounds)
  : Js.Map DisplayBounds :=
  Js.of_entries (map (fun d => (b_screenId d, d)) ds).

(** How a [new FocusAlgorithm(...)] expression completes.  The constructor
    body has no [throw] and calls nothing that throws, so it always
    completes with [Constructed]. *)
Inductive Construction :=
| Constructed (engine : FocusAlgorithm)
| Thrown (error : string).

Definition new_engine (sessionId : string) (ds : list DisplayBounds)
  (cfg : PartialFocusConfig) : FocusAlgorithm := {|
  sessionId := sessionId;
  config := spread DEFAULT_FOCUS_CONFIG cfg;
  displays := Map_of_displays ds;
  state := {|
    activeScreenId :=
      match ds with
      | d :: _ => Some (b_screenId d)
      | [] => None
      end;
    frozen := false;
    autoEnabled := true;
    manualOverride := None;
    lastSwitchTs := 0;
    candidateScreenId := None;
    candidateSinceTs := 0;
    lastActivityTs := 0;
    sequence := 0
  |};
  metrics := {|
    focusChanges := 0;
    cooldownBlocks := 0;
    dwellResets := 0;
    idleBlocks := 0;
    signalCounts := []
  |}
|}.

Definition constructor (sessionId : string) (ds : list DisplayBounds)
  (cfg : PartialFocusConfig) : Construction :=
  Constructed (new_engine sessionId ds cfg).

(** *** Signal attribution (§6) *)

(** The values [bestOverlap] takes are doubles: the initial [-1], then
    proximities. *)
Definition Overlap := float.

(** [let bestOverlap = -1]. *)
Definition Initial : Overlap := (-1)%float.

(** [p > q] on doubles. *)
Definition Overlap_gtb (p q : Overlap) : bool := (q <? p)%float.

(** The test [x >= bounds.x && x < bounds.x + bounds.width && y >= bounds.y
    && y < bounds.y + bounds.height]. *)
Definition inside (bounds : DisplayBounds) (x y : Z) : bool :=
  (b_x bounds <=? x) && (x <? b_x bounds + b_width bounds)
  && (b_y bounds <=? y) && (y <? b_y bounds + b_height bounds).

(** [Math.max(bounds.x - x, 0, x - (bounds.x + bounds.width))] and
    [Math.max(bounds.y - y, 0, y - (bounds.y + bounds.height))]. *)
Definition dx (bounds : DisplayBounds) (x : Z) : Z :=
  Z.max (Z.max (b_x bounds - x) 0) (x - (b_x bounds + b_width bounds)).

Definition dy (bounds : DisplayBounds) (y : Z) : Z :=
  Z.max (Z.max (b_y bounds - y) 0) (y - (b_y bounds + b_height bounds)).

(** [Math.sqrt(dx * dx + dy * dy)], in double arithmetic. *)
Definition dist (bounds : DisplayBounds) (x y : Z) : float :=
  PrimFloat.sqrt (Js.number (dx bounds x) * Js.number (dx bounds x)
                  + Js.number (dy bounds y) * Js.number (dy bounds y))%float.

(** [1 / (1 + dist)], in double arithmetic. *)
Definition proximity (bounds : DisplayBounds) (x y : Z) : Overlap :=
  (1 / (1 + dist bounds x y))%float.

(** The [for (const [screenId, bounds] of this.displays)] loop, with its
    two loop variables. *)
Fixpoint pointerLoop (entries : Js.Map DisplayBounds) (x y : Z)
  (bestMatch : option ScreenId) (bestOverlap : Overlap)
  : option ScreenId :=
  match entries with
  | [] => bestMatch
  | (screenId, bounds) :: rest =>
      if inside bounds x y then Some screenId
      else
        if Overlap_gtb (proximity bounds x y) bestOverlap
        then pointerLoop rest x y (Some screenId) (proximity bounds x y)
        else pointerLoop rest x y bestMatch bestOverlap
  end.

(** The two early returns: a known [signal.screenId], or a known
    [windowDisplayId] of a [WindowFocus] signal. *)
Definition directScreen (e : FocusAlgorithm) (signal : IntentSignal)
  : option ScreenId :=
  if Js.truthy (Some (s_screenId signal))
     && Js.has (displays e) (s_screenId signal)
  then Some (s_screenId signal)
  else
    match s_windowDisplayId signal with
    | Some w =>
        if SignalType_eqb (s_type signal) WindowFocus
           && Js.truthy (Some w) && Js.has (displays e) w
        then Some w
        else None
    | None => None
    end.

Definition attributeToScreen (e : FocusAlgorithm) (signal : IntentSignal)
  : option ScreenId :=
  match directScreen e signal with
  | Some id => Some id
  | None =>
      pointerLoop (displays e) (s_x signal) (s_y signal) None Initial
  end.

(** *** Confidence model (§7) *)

Definition computeConfidence (e : FocusAlgorithm) (signal : IntentSignal)
  (candidateScreen : ScreenId) (now : Z) : float :=
  let conf := BASE_CONFIDENCE (s_type signal) in
  let conf :=
    if Js.strict_eq (s_windowDisplayId signal) (Some candidateScreen)
    then (conf + 0.05)%float else conf in
  let conf :=
    if Js.strict_eq (candidateScreenId (state e)) (Some candidateScreen)
       && (now - candidateSinceTs (state e) <? 1000)
    then (conf + 0.05)%float else conf in
  let conf :=
    if SignalType_eqb (s_type signal) PointerMove
       && match s_speedPxPerS signal with
          | Some speed =>
              (movementSpeedHighPxPerS (config e) <? speed)%float
          | None => false
          end
    then (conf - 0.10)%float else conf in
  let conf :=
    if negb (Js.strict_eq (Some candidateScreen)
                          (activeScreenId (state e)))
       && (now - lastSwitchTs (state e) <=? cooldownMs (config e))
    then (conf - 0.15)%float else conf in
  Js.Math_max 0 (Js.Math_min 1 conf).

(** *** Dwell thresholds (§8.1) *)

Definition getDwellMs (e : FocusAlgorithm) (signalType : SignalType) : Z :=
  match signalType with
  | Manual => 0
  | Click | DoubleClick | DragStart => clickDwellMs (config e)
  | Typing | WindowFocus => typingDwellMs (config e)
  | Scroll | Gesture => scrollDwellMs (config e)
  | Hover => hoverDwellMs (config e)
  | PointerMove => movementDwellMs (config e)
  | DragEnd => movementDwellMs (config e)
  end.

(** *** Idle detection (§10) *)

Definition isIdle (e : FocusAlgorithm) (now : Z) : bool :=
  idleMs (config e) <? now - lastActivityTs (state e).

Definition isActivitySignal (t : SignalType) : bool :=
  negb (SignalType_eqb t PointerMove) && negb (SignalType_eqb t Hover).

(** *** Snapshots and state transitions *)

(** [getState()]; [clock] is the value [Date.now()] returns. *)
Definition getState (clock : Z) (e : FocusAlgorithm) : FocusStateSnapshot := {|
  snap_activeScreenId :=
    Js.or_default (activeScreenId (state e)) "screen_1";
  snap_mode :=
    if Js.truthy (manualOverride (state e)) then ModeManual
    else if frozen (state e) then ModeFrozen
    else ModeAuto;
  snap_frozen := frozen (state e);
  snap_sequence := sequence (state e);
  snap_timestampMs := clock
|}.

Definition setActive (e : FocusAlgorithm) (screenId : ScreenId)
  (reason : SignalType) (confidence : float) (now : Z)
  : FocusAlgorithm * list Emitted :=
  let st := state e in
  let sequence' := sequence st + 1 in
  let dwellMs := now - candidateSinceTs st in
  let st' :=
    mkState (Some screenId) (frozen st) (autoEnabled st)
            (manualOverride st) now (candidateScreenId st)
            (candidateSinceTs st) (lastActivityTs st) sequence' in
  let e' := with_metrics (with_state e st') (incr_focusChanges (metrics e)) in
  let event := {|
    e_sessionId := sessionId e;
    e_screenId := screenId;
    e_reason := reason;
    e_confidence := (Js.Math_round (confidence * 100) / 100)%float;
    e_dwellMs := dwellMs;
    e_sequence := sequence';
    e_timestampMs := now
  |} in
  (e', [FocusChange event]).

(** [emitFocusStateRefresh(now)]: the parameter [now] is not used by the
    body, which calls [this.getState()]. *)
Definition emitFocusStateRefresh (clock : Z) (e : FocusAlgorithm) (now : Z)
  : FocusAlgorithm * list Emitted :=
  let snapshot := getState clock e in
  (e, [FocusState snapshot]).

(** *** [processSignal] *)

(** [this.metrics.signalCounts[signal.type] =
      (this.metrics.signalCounts[signal.type] || 0) + 1]. *)
Definition countSignal (e : FocusAlgorithm) (t : SignalType)
  : FocusAlgorithm :=
  let counts := signalCounts (metrics e) in
  let key := SignalType_value t in
  with_metrics e
    (set_signalCounts (metrics e)
       (Js.set counts key (override 0 (Js.get counts key) + 1))).

(** The activity-timestamp update. *)
Definition trackActivity (e : FocusAlgorithm) (t : SignalType) (now : Z)
  : FocusAlgorithm :=
  if isActivitySignal t
  then with_state e (set_lastActivityTs (state e) now)
  else e.

(** §8.2, the cooldown penalty step: the adjusted confidence and the
    engine with [cooldownBlocks] counted. *)
Definition cooldownPenalty (e : FocusAlgorithm) (signal : IntentSignal)
  (now : Z) (confidence : float) : float * FocusAlgorithm :=
  if (now - lastSwitchTs (state e) <=? cooldownMs (config e))
     && negb (SignalType_eqb (s_type signal) Manual)
  then
    let confidence := (confidence - 0.15)%float in
    let confidence := if (confidence <? 0)%float then 0%float
                      else confidence in
    (confidence, with_metrics e (incr_cooldownBlocks (metrics e)))
  else (confidence, e).

(** §9, the candidate-tracking step. *)
Definition trackCandidate (e : FocusAlgorithm) (candidateScreen : ScreenId)
  (now : Z) : FocusAlgorithm :=
  if negb (Js.strict_eq (Some candidateScreen)
                        (candidateScreenId (state e)))
  then
    with_metrics
      (with_state e (set_candidate (state e) (Some candidateScreen) now))
      (incr_dwellResets (metrics e))
  else e.

Definition processSignal (clock : Z) (e : FocusAlgorithm)
  (signal : IntentSignal) : FocusAlgorithm * list Emitted :=
  let now := s_timestampMs signal in
  let e := countSignal e (s_type signal) in
  let e := trackActivity e (s_type signal) now in
  if frozen (state e) then (e, [])
  else if negb (autoEnabled (state e)) then (e, [])
  else
    match manualOverride (state e) with
    | Some override =>
        if negb (Js.strict_eq (activeScreenId (state e)) (Some override))
        then setActive e override Manual 1.0 now
        else (e, [])
    | None =>
        match attributeToScreen e signal with
        | None => (e, [])
        | Some candidateScreen =>
            let confidence :=
              computeConfidence e signal candidateScreen now in
            if isIdle e now
            then (with_metrics e (incr_idleBlocks (metrics e)), [])
            else
              let (confidence, e) :=
                cooldownPenalty e signal now confidence in
              let e := trackCandidate e candidateScreen now in
              let dwellNeeded := getDwellMs e (s_type signal) in
              let dwellElapsed := now - candidateSinceTs (state e) in
              if dwellElapsed <? dwellNeeded then (e, [])
              else
                if negb (Js.strict_eq (Some candidateScreen)
                                      (activeScreenId (state e)))
                then
                  if (switchThreshold (config e) <=? confidence)%float
                  then setActive e candidateScreen (s_type signal)
                                 confidence now
                  else (e, [])
                else
                  if (stayThreshold (config e) <=? confidence)%float
                  then emitFocusStateRefresh clock e now
                  else (e, [])
        end
    end.

(** *** [handlePresenterControl] *)

Definition handlePresenterControl (clock : Z) (e : FocusAlgorithm)
  (control : PresenterControl) : FocusAlgorithm * list Emitted :=
  let now := c_timestampMs control in
  match c_action control with
  | ToggleAutoFocus =>
      let e := with_state e
                 (set_autoEnabled (state e) (negb (autoEnabled (state e)))) in
      emitFocusStateRefresh clock e now
  | ToggleFreeze =>
      let e := with_state e
                 (set_frozen (state e) (negb (frozen (state e)))) in
      let e := if negb (frozen (state e))
               then with_state e (set_candidateSinceTs (state e) now)
               else e in
      emitFocusStateRefresh clock e now
  | ManualSelect =>
      match c_screenId control with
      | Some screenId =>
          if Js.truthy (Some screenId) && Js.has (displays e) screenId
          then
            let e := with_state e
                       (set_manualOverride (state e) (Some screenId)) in
            setActive e screenId Manual 1.0 now
          else (e, [])
      | None => (e, [])
      end
  | ClearManual =>
      let e := with_state e (set_manualOverride (state e) None) in
      emitFocusStateRefresh clock e now
  end.

Definition updateDisplays (e : FocusAlgorithm) (ds : list DisplayBounds)
  : FocusAlgorithm :=
  with_displays e (Map_of_displays ds).

Definition getMetrics (e : FocusAlgorithm) : FocusMetrics := metrics e.

Definition getInternalState (e : FocusAlgorithm) : FocusAlgorithmState :=
  state e.

(** *** Sessions: sequences of calls on one engine *)

(** One call on the engine, with the wall-clock reading during the call. *)
Inductive Call :=
| ProcessSignal (clock : Z) (signal : IntentSignal)
| HandlePresenterControl (clock : Z) (control : PresenterControl)
| UpdateDisplays (ds : list DisplayBounds).

Definition call (e : FocusAlgorithm) (c : Call)
  : FocusAlgorithm * list Emitted :=
  match c with
  | ProcessSignal clock signal => processSignal clock e signal
  | HandlePresenterControl clock control =>
      handlePresenterControl clock e control
  | UpdateDisplays ds => (updateDisplays e ds, [])
  end.

(** The calls in order; the log collects everything emitted. *)
Fixpoint run (e : FocusAlgorithm) (calls : list Call)
  : FocusAlgorithm * list Emitted :=
  match calls with
  | [] => (e, [])
  | c :: rest =>
      let (e1, out1) := call e c in
      let (e2, out2) := run e1 rest in
      (e2, out1 ++ out2)
  end.

(** The [FocusChangeEvent]s of a log. *)
Fixpoint focusChangeEvents (log : list Emitted) : list FocusChangeEvent :=
  match log with
  | [] => []
  | FocusChange ev :: rest => ev :: focusChangeEvents rest
  | FocusState _ :: rest => focusChangeEvents rest
  end.

(** The timestamps the calls carry. *)
Fixpoint callTimestamps (calls : list Call) : list Z :=
  match calls with
  | [] => []
  | ProcessSignal _ signal :: rest =>
      s_timestampMs signal :: callTimestamps rest
  | HandlePresenterControl _ control :: rest =>
      c_timestampMs control :: callTimestamps rest
  | UpdateDisplays _ :: rest => callTimestamps rest
  end.

(* ------------------------------------------------------------------ *)
(** ** Conflict resolution (§9) *)

(** The comparator passed to [sort]; only the sign of its result matters
    to [sort], so the confidence difference [confB - confA] of two
    different table entries is given by its sign. *)
Definition compareSignals (a b : IntentSignal) : Z :=
  let priA := SIGNAL_PRIORITY (s_type a) in
  let priB := SIGNAL_PRIORITY (s_type b) in
  if negb (priA =? priB) then priA - priB
  else
    let confA := BASE_CONFIDENCE (s_type a) in
    let confB := BASE_CONFIDENCE (s_type b) in
    if negb (confA =? confB)%float
    then (if (confB <? confA)%float then -1 else 1)
    else s_timestampMs b - s_timestampMs a.

(** [Array.prototype.sort(compare)] is a stable sort: an element moves
    in front of an earlier one only when the comparator puts it strictly
    before. *)
Section Sort.
Context {A : Type} (compare : A -> A -> Z).

Fixpoint sort_insert (v : A) (sorted : list A) : list A :=
  match sorted with
  | [] => [v]
  | w :: rest =>
      if compare v w <=? 0 then v :: w :: rest
      else w :: sort_insert v rest
  end.

Fixpoint sort (l : list A) : list A :=
  match l with
  | [] => []
  | v :: rest => sort_insert v (sort rest)
  end.
End Sort.

Definition resolveConflict (signals : list IntentSignal)
  : option IntentSignal :=
  match signals with
  | [] => None
  | [s] => Some s
  | _ => hd_error (sort compareSignals signals)
  end.

(* ------------------------------------------------------------------ *)
(** ** The intent detector ([intent/intent-engine.ts])

    The class [IntentEngine] turns cursor samples and injected host
    events into [IntentSignal]s.  Its event emitter is modelled as an
    output log, [Date.now()] and the injected cursor provider as explicit
    parameters of each call; the interval timer is not modelled, a tick
    is a call of [pollCursor].

    Numbers.  Cursor coordinates are integers ([Z]), as in
    [IntentSignal].  The distances [pollCursor] computes from them
    ([Math.sqrt(dx * dx + dy * dy)]), the speed and the thresholds they
    are compared with are doubles; an integer enters double arithmetic
    through [number], which is exact below 2^53.  In [pointToScreen] the
    centres [bounds.x + bounds.width / 2], the distances to them and
    their comparison are the binary64 ones as well. *)

Module Intent.

(** The double of an integer. *)
Definition number (z : Z) : float := Js.number z.

Record IntentEngineConfig := mkConfig {
  cursorPollIntervalMs : Z;
  movementThresholdPx : float;
  hoverRadiusPx : float;
  hoverThresholdMs : Z
}.

Definition DEFAULT_INTENT_CONFIG : IntentEngineConfig := {|
  cursorPollIntervalMs := 50;
  movementThresholdPx := 3;
  hoverRadiusPx := 8;
  hoverThresholdMs := 300
|}.

(** [Partial<IntentEngineConfig>]. *)
Record PartialConfig := mkPartial {
  p_cursorPollIntervalMs : option Z;
  p_movementThresholdPx : option float;
  p_hoverRadiusPx : option float;
  p_hoverThresholdMs : option Z
}.

Definition spread (base : IntentEngineConfig) (cfg : PartialConfig)
  : IntentEngineConfig := {|
  cursorPollIntervalMs :=
    override (cursorPollIntervalMs base) (p_cursorPollIntervalMs cfg);
  movementThresholdPx :=
    override (movementThresholdPx base) (p_movementThresholdPx cfg);
  hoverRadiusPx := override (hoverRadiusPx base) (p_hoverRadiusPx cfg);
  hoverThresholdMs :=
    override (hoverThresholdMs base) (p_hoverThresholdMs cfg)
|}.

(** The fields of the class; [pollTimer] records whether a timer is
    armed. *)
Record IntentEngine := mkIntentEngine {
  config : IntentEngineConfig;
  displays : Js.Map DisplayBounds;
  running : bool;
  pollTimer : bool;
  lastCursorX : Z;
  lastCursorY : Z;
  lastCursorTs : Z;
  hoverStartX : Z;
  hoverStartY : Z;
  hoverStartTs : Z;
  hoverEmitted : bool
}.

(** What the engine emits: [emit('started')], [emit('stopped')] and
    [emit('signal', signal)]. *)
Inductive Emit :=
| Started
| Stopped
| Signal (signal : IntentSignal).

Definition constructor (ds : list DisplayBounds) (cfg : PartialConfig)
  : IntentEngine := {|
  config := spread DEFAULT_INTENT_CONFIG cfg;
  displays := Map_of_displays ds;
  running := false;
  pollTimer := false;
  lastCursorX := 0;
  lastCursorY := 0;
  lastCursorTs := 0;
  hoverStartX := 0;
  hoverStartY := 0;
  hoverStartTs := 0;
  hoverEmitted := false
|}.

(** *** Lifecycle *)

Definition start (ie : IntentEngine) : IntentEngine * list Emit :=
  if running ie then (ie, [])
  else
    (mkIntentEngine (config ie) (displays ie) true true
       (lastCursorX ie) (lastCursorY ie) (lastCursorTs ie)
       (hoverStartX ie) (hoverStartY ie) (hoverStartTs ie)
       (hoverEmitted ie),
     [Started]).

Definition stop (ie : IntentEngine) : IntentEngine * list Emit :=
  if negb (running ie) then (ie, [])
  else
    (mkIntentEngine (config ie) (displays ie) false false
       (lastCursorX ie) (lastCursorY ie) (lastCursorTs ie)
       (hoverStartX ie) (hoverStartY ie) (hoverStartTs ie)
       (hoverEmitted ie),
     [Stopped]).

Definition updateDisplays (ie : IntentEngine) (ds : list DisplayBounds)
  : IntentEngine :=
  mkIntentEngine (config ie) (Map_of_displays ds) (running ie)
    (pollTimer ie) (lastCursorX ie) (lastCursorY ie) (lastCursorTs ie)
    (hoverStartX ie) (hoverStartY ie) (hoverStartTs ie) (hoverEmitted ie).

(** *** Screen attribution (§6.1) *)

(** The first loop: the first display containing the point. *)
Fixpoint firstInside (entries : Js.Map DisplayBounds) (x y : Z)
  : option ScreenId :=
  match entries with
  | [] => None
  | (screenId, bounds) :: rest =>
      if inside bounds x y then Some screenId
      else firstInside rest x y
  end.

(** The values [minDist] takes are doubles: [Infinity], then distances
    to a centre. *)
Definition Distance := float.

(** [let minDist = Infinity]. *)
Definition Infinity : Distance := infinity.

(** [bounds.x + bounds.width / 2] and [bounds.y + bounds.height / 2]. *)
Definition cx (bounds : DisplayBounds) : float :=
  (number (b_x bounds) + number (b_width bounds) / 2)%float.

Definition cy (bounds : DisplayBounds) : float :=
  (number (b_y bounds) + number (b_height bounds) / 2)%float.

(** [Math.sqrt(Math.pow(x - cx, 2) + Math.pow(y - cy, 2))], in double
    arithmetic ([Math.pow(a, 2)] is [a * a]). *)
Definition centreDistance (bounds : DisplayBounds) (x y : Z) : Distance :=
  PrimFloat.sqrt ((number x - cx bounds) * (number x - cx bounds)
                  + (number y - cy bounds) * (number y - cy bounds))%float.

(** [d < minDist] on doubles. *)
Definition Distance_ltb (d minDist : Distance) : bool :=
  (d <? minDist)%float.

(** The second loop, with its two loop variables. *)
Fixpoint closestLoop (entries : Js.Map DisplayBounds) (x y : Z)
  (closest : option ScreenId) (minDist : Distance) : option ScreenId :=
  match entries with
  | [] => closest
  | (screenId, bounds) :: rest =>
      if Distance_ltb (centreDistance bounds x y) minDist
      then closestLoop rest x y (Some screenId) (centreDistance bounds x y)
      else closestLoop rest x y closest minDist
  end.

Definition pointToScreen (ie : IntentEngine) (x y : Z) : option ScreenId :=
  match firstInside (displays ie) x y with
  | Some screenId => Some screenId
  | None => closestLoop (displays ie) x y None Infinity
  end.

(** *** External signal injection *)

(** A signal with only the mandatory fields. *)
Definition plainSignal (type : SignalType) (screenId : ScreenId)
  (x y now : Z) : IntentSignal := {|
  s_type := type;
  s_screenId := screenId;
  s_x := x;
  s_y := y;
  s_timestampMs := now;
  s_speedPxPerS := None;
  s_windowDisplayId := None
|}.

Definition onMouseClick (clock : Z) (ie : IntentEngine) (x y : Z)
  (isDouble : bool) : list Emit :=
  match pointToScreen ie x y with
  | Some screenId =>
      if negb (Js.truthy (Some screenId)) then []
      else [Signal (plainSignal (if isDouble then DoubleClick else Click)
                                screenId x y clock)]
  | None => []
  end.

Definition onDragStart (clock : Z) (ie : IntentEngine) (x y : Z)
  : list Emit :=
  match pointToScreen ie x y with
  | Some screenId =>
      if negb (Js.truthy (Some screenId)) then []
      else [Signal (plainSignal DragStart screenId x y clock)]
  | None => []
  end.

Definition onDragEnd (clock : Z) (ie : IntentEngine) (x y : Z)
  : list Emit :=
  match pointToScreen ie x y with
  | Some screenId =>
      if negb (Js.truthy (Some screenId)) then []
      else [Signal (plainSignal DragEnd screenId x y clock)]
  | None => []
  end.

Definition onScroll (clock : Z) (ie : IntentEngine) (x y : Z)
  : list Emit :=
  match pointToScreen ie x y with
  | Some screenId =>
      if negb (Js.truthy (Some screenId)) then []
      else [Signal (plainSignal Scroll screenId x y clock)]
  | None => []
  end.

(** [cursor] is what the cursor provider returns during the call. *)
Definition onTyping (clock : Z) (cursor : Z * Z) (ie : IntentEngine)
  (activeWindowScreenId : option ScreenId) : list Emit :=
  let screenId :=
    if Js.truthy activeWindowScreenId then activeWindowScreenId
    else pointToScreen ie (fst cursor) (snd cursor) in
  match screenId with
  | Some screenId =>
      if negb (Js.truthy (Some screenId)) then []
      else [Signal {|
              s_type := Typing;
              s_screenId := screenId;
              s_x := fst cursor;
              s_y := snd cursor;
              s_timestampMs := clock;
              s_speedPxPerS := None;
              s_windowDisplayId := activeWindowScreenId |}]
  | None => []
  end.

Definition onWindowFocusChange (clock : Z) (cursor : Z * Z)
  (ie : IntentEngine) (windowScreenId : ScreenId) : list Emit :=
  [Signal {|
     s_type := WindowFocus;
     s_screenId := windowScreenId;
     s_x := fst cursor;
     s_y := snd cursor;
     s_timestampMs := clock;
     s_speedPxPerS := None;
     s_windowDisplayId := Some windowScreenId |}].

(** *** Cursor polling *)

(** [Math.sqrt(a * a + b * b)] on two integers, in double arithmetic
    ([Math.pow(a, 2)] is [a * a]). *)
Definition hypot (a b : Z) : float :=
  PrimFloat.sqrt (number a * number a + number b * number b)%float.

Definition recordCursor (ie : IntentEngine) (pos : Z * Z) (now : Z)
  : IntentEngine :=
  mkIntentEngine (config ie) (displays ie) (running ie) (pollTimer ie)
    (fst pos) (snd pos) now
    (hoverStartX ie) (hoverStartY ie) (hoverStartTs ie) (hoverEmitted ie).

Definition resetHover (ie : IntentEngine) (pos : Z * Z) (now : Z)
  : IntentEngine :=
  mkIntentEngine (config ie) (displays ie) (running ie) (pollTimer ie)
    (lastCursorX ie) (lastCursorY ie) (lastCursorTs ie)
    (fst pos) (snd pos) now false.

Definition markHover (ie : IntentEngine) : IntentEngine :=
  mkIntentEngine (config ie) (displays ie) (running ie) (pollTimer ie)
    (lastCursorX ie) (lastCursorY ie) (lastCursorTs ie)
    (hoverStartX ie) (hoverStartY ie) (hoverStartTs ie) true.

(** [now] is the clock reading and [pos] the cursor position the tick
    samples. *)
Definition pollCursor (now : Z) (pos : Z * Z) (ie : IntentEngine)
  : IntentEngine * list Emit :=
  let dx := fst pos - lastCursorX ie in
  let dy := snd pos - lastCursorY ie in
  let dist := hypot dx dy in
  let dt := now - lastCursorTs ie in
  let speed := if 0 <? dt then (dist / number dt * 1000)%float
               else 0%float in
  match pointToScreen ie (fst pos) (snd pos) with
  | None => (recordCursor ie pos now, [])
  | Some screenId =>
      if negb (Js.truthy (Some screenId))
      then (recordCursor ie pos now, [])
      else
        let hoverDist :=
          hypot (fst pos - hoverStartX ie) (snd pos - hoverStartY ie) in
        let (ie, hover) :=
          if (hoverRadiusPx (config ie) <? hoverDist)%float
          then (resetHover ie pos now, [])
          else
            if negb (hoverEmitted ie)
               && (hoverThresholdMs (config ie) <=? now - hoverStartTs ie)
            then (markHover ie,
                  [Signal (plainSignal Hover screenId
                                       (fst pos) (snd pos) now)])
            else (ie, []) in
        let move :=
          if (movementThresholdPx (config ie) <=? dist)%float
          then [Signal {|
                  s_type := PointerMove;
                  s_screenId := screenId;
                  s_x := fst pos;
                  s_y := snd pos;
                  s_timestampMs := now;
                  s_speedPxPerS := Some (Js.Math_round speed);
                  s_windowDisplayId := None |}]
          else [] in
        (recordCursor ie pos now, hover ++ move)
  end.

(** *** Sequences of calls on one detector *)

Inductive Call :=
| Start
| Stop
| UpdateDisplays (ds : list DisplayBounds)
| MouseClick (clock x y : Z) (isDouble : bool)
| DragStarted (clock x y : Z)
| DragEnded (clock x y : Z)
| Scrolled (clock x y : Z)
| Typed (clock : Z) (cursor : Z * Z) (activeWindowScreenId : option ScreenId)
| WindowFocusChanged (clock : Z) (cursor : Z * Z) (windowScreenId : ScreenId)
| Poll (now : Z) (pos : Z * Z).

Definition call (ie : IntentEngine) (c : Call) : IntentEngine * list Emit :=
  match c with
  | Start => start ie
  | Stop => stop ie
  | UpdateDisplays ds => (updateDisplays ie ds, [])
  | MouseClick clock x y isDouble => (ie, onMouseClick clock ie x y isDouble)
  | DragStarted clock x y => (ie, onDragStart clock ie x y)
  | DragEnded clock x y => (ie, onDragEnd clock ie x y)
  | Scrolled clock x y => (ie, onScroll clock ie x y)
  | Typed clock cursor w => (ie, onTyping clock cursor ie w)
  | WindowFocusChanged clock cursor w =>
      (ie, onWindowFocusChange clock cursor ie w)
  | Poll now pos => pollCursor now pos ie
  end.

Fixpoint run (ie : IntentEngine) (calls : list Call)
  : IntentEngine * list Emit :=
  match calls with
  | [] => (ie, [])
  | c :: rest =>
      let (ie1, out1) := call ie c in
      let (ie2, out2) := run ie1 rest in
      (ie2, out1 ++ out2)
  end.

(** The signals of a log. *)
Fixpoint signalsOf (log : list Emit) : list IntentSignal :=
  match log with
  | [] => []
  | Signal s :: rest => s :: signalsOf rest
  | _ :: rest => signalsOf rest
  end.

End Intent.

(* ------------------------------------------------------------------ *)
(** ** Fixtures of the end-to-end scenarios *)

Definition D1 : DisplayBounds := mkDisplayBounds "D1" 0 0 1920 1080 1.
Definition D2 : DisplayBounds := mkDisplayBounds "D2" 1920 0 1920 1080 1.
Definition D3 : DisplayBounds := mkDisplayBounds "D3" 4480 0 1920 1080 1.

(** [makeSignal] of [test/focus-algorithm.test.ts]: a signal tagged with
    its screen, at the fixed point (960, 540). *)
Definition makeSignal (type : SignalType) (screenId : ScreenId)
  (timestampMs : Z) : IntentSignal := {|
  s_type := type;
  s_screenId := screenId;
  s_x := 960;
  s_y := 540;
  s_timestampMs := timestampMs;
  s_speedPxPerS := None;
  s_windowDisplayId := None
|}.

(** The engine of the scenarios: three displays, default configuration. *)
Definition scenarioEngine : FocusAlgorithm :=
  new_engine "test" [D1; D2; D3] emptyPartial.

(** The value the local variable [confidence] of [processSignal] holds when
    the hysteresis step compares it with a threshold, for a signal that
    reaches attribution. *)
Definition effectiveConfidence (e : FocusAlgorithm) (signal : IntentSignal)
  : option float :=
  let now := s_timestampMs signal in
  let e := trackActivity (countSignal e (s_type signal)) (s_type signal) now in
  match attributeToScreen e signal with
  | None => None
  | Some candidateScreen =>
      Some (fst (cooldownPenalty e signal now
                   (computeConfidence e signal candidateScreen now)))
  end.

(** A configuration is valid, in the words of the specification, when the
    switch threshold is not below the stay threshold and no timing is
    negative. *)
Definition validConfig (c : FocusConfig) : bool :=
  (stayThreshold c <=? switchThreshold c)%float
  && (0 <=? cooldownMs c) && (0 <=? idleMs c)
  && (0 <=? clickDwellMs c) && (0 <=? typingDwellMs c)
  && (0 <=? scrollDwellMs c) && (0 <=? hoverDwellMs c)
  && (0 <=? movementDwellMs c) && (0 <=? resumeGraceMs c).

(* ------------------------------------------------------------------ *)
(** ** Vocabulary of the properties *)

(** A configuration with the switch threshold below the stay threshold
    and a negative cooldown. *)
Definition invalidPartial : PartialFocusConfig :=
  mkPartialFocusConfig None (Some 0.30%float) None (Some (-1)) None None
                       None None None None None None None None.

(** [n] consecutive integers from [start]. *)
Fixpoint consecutive (start : Z) (n : nat) : list Z :=
  match n with
  | O => []
  | S k => start :: consecutive (start + 1) k
  end.

(** What one call may do to the sequence counter and the log: nothing
    that is a focus change, or one focus change numbered by the
    incremented counter and stamped [now]. *)
Inductive Emission (now : Z) (e : FocusAlgorithm)
  : FocusAlgorithm * list Emitted -> Prop :=
| Quiet e' out :
    focusChangeEvents out = [] ->
    sequence (state e') = sequence (state e) ->
    Emission now e (e', out)
| Switch e' out ev :
    focusChangeEvents out = [ev] ->
    e_sequence ev = sequence (state e) + 1 ->
    e_timestampMs ev = now ->
    sequence (state e') = sequence (state e) + 1 ->
    Emission now e (e', out).

(** The count [signalCounts[type] || 0]. *)
Definition signalCount (e : FocusAlgorithm) (t : SignalType) : Z :=
  override 0 (Js.get (signalCounts (metrics e)) (SignalType_value t)).

(** Calls other than [updateDisplays]. *)
Definition keepsDisplays (c : Call) : bool :=
  match c with
  | UpdateDisplays _ => false
  | _ => true
  end.

(** An engine with no displays, no active screen and no override. *)
Definition blank (e : FocusAlgorithm) : Prop :=
  displays e = [] /\ activeScreenId (state e) = None
  /\ manualOverride (state e) = None.

(** [outranks a b]: [a] is preferred to [b] — a lower priority number; on
    a tie a higher base confidence; on a further tie a later timestamp. *)
Definition outranks (a b : IntentSignal) : Prop :=
  SIGNAL_PRIORITY (s_type a) < SIGNAL_PRIORITY (s_type b)
  \/ (SIGNAL_PRIORITY (s_type a) = SIGNAL_PRIORITY (s_type b)
      /\ ((BASE_CONFIDENCE (s_type b) <? BASE_CONFIDENCE (s_type a))%float
          = true
          \/ ((BASE_CONFIDENCE (s_type a) =? BASE_CONFIDENCE (s_type b))%float
              = true
              /\ s_timestampMs b < s_timestampMs a))).

(** [ranksEqual a b]: same priority, base confidence and timestamp. *)
Definition ranksEqual (a b : IntentSignal) : Prop :=
  SIGNAL_PRIORITY (s_type a) = SIGNAL_PRIORITY (s_type b)
  /\ (BASE_CONFIDENCE (s_type a) =? BASE_CONFIDENCE (s_type b))%float = true
  /\ s_timestampMs a = s_timestampMs b.

(** The points of the closed rectangle of a display. *)
Definition inRectangle (bounds : DisplayBounds) (px py : R) : Prop :=
  (IZR (b_x bounds) <= px <= IZR (b_x bounds + b_width bounds))%R
  /\ (IZR (b_y bounds) <= py <= IZR (b_y bounds + b_height bounds))%R.

(** [d2] is the square of the euclidean distance from the point (x, y)
    to the rectangle of a display: the squared distance to one of its
    points, and at most the squared distance to any of them. *)
Definition distanceToRectangle2 (bounds : DisplayBounds) (x y d2 : Z)
  : Prop :=
  (exists px py : Z,
      inRectangle bounds (IZR px) (IZR py)
      /\ d2 = (x - px) * (x - px) + (y - py) * (y - py))
  /\ (forall px py : R,
        inRectangle bounds px py ->
        (IZR d2 <= (IZR x - px) * (IZR x - px)
                   + (IZR y - py) * (IZR y - py))%R).

(** [signed s f]: the double [f] is not NaN and carries the sign bit
    [s]. *)
Definition signed (s : bool) (f : spec_float) : Prop :=
  match f with
  | S754_nan => False
  | S754_zero s' | S754_infinity s' | S754_finite s' _ _ => s' = s
  end.

(** Two displays far to the left and to the right of the point
    (60000100, 101): the exact distances to their rectangles differ
    (the squares are 3600000000000001 and 3600000000000000), the
    proximities computed from them are the same double. *)
Definition farLeft : DisplayBounds := mkDisplayBounds "F" 0 0 100 100 1.
Definition farRight : DisplayBounds :=
  mkDisplayBounds "G" 120000100 0 100 200 1.

(** The fields that only a focus change touches, and the parts of the
    engine no call but [updateDisplays] touches. *)
Definition unswitched (e e' : FocusAlgorithm) : Prop :=
  activeScreenId (state e') = activeScreenId (state e)
  /\ sequence (state e') = sequence (state e)
  /\ lastSwitchTs (state e') = lastSwitchTs (state e)
  /\ focusChanges (metrics e') = focusChanges (metrics e).

(** A focus change to the screen of [ev] at time [now]. *)
Definition switched (e e' : FocusAlgorithm) (ev : FocusChangeEvent)
  (now : Z) : Prop :=
  activeScreenId (state e') = Some (e_screenId ev)
  /\ sequence (state e') = sequence (state e) + 1
  /\ e_sequence ev = sequence (state e) + 1
  /\ lastSwitchTs (state e') = now
  /\ e_timestampMs ev = now
  /\ focusChanges (metrics e') = focusChanges (metrics e) + 1.

(** The calls that are [processSignal] calls. *)
Definition isSignalCall (c : Call) : bool :=
  match c with
  | ProcessSignal _ _ => true
  | _ => false
  end.

(** The number of [processSignal] calls with a signal of type [t]. *)
Fixpoint signalCallsOf (t : SignalType) (calls : list Call) : Z :=
  match calls with
  | [] => 0
  | ProcessSignal _ signal :: rest =>
      (if SignalType_eqb t (s_type signal) then 1 else 0)
      + signalCallsOf t rest
  | _ :: rest => signalCallsOf t rest
  end.

(** The active screen is the overriding one whenever an override is set. *)
Definition pinned (e : FocusAlgorithm) : Prop :=
  forall S, manualOverride (state e) = Some S ->
            activeScreenId (state e) = Some S.

(** A confidence as events report it: within [0, 1] and unchanged by
    rounding to two decimals. *)
Definition reportable (c : float) : bool :=
  (0 <=? c)%float && (c <=? 1)%float
  && (Js.Math_round (c * 100) / 100 =? c)%float.

(** Signals that report motion only: [PointerMove], and [Hover] without
    a window display. *)
Definition movementOnly (signal : IntentSignal) : bool :=
  match s_type signal with
  | PointerMove => true
  | Hover =>
      match s_windowDisplayId signal with
      | None => true
      | Some _ => false
      end
  | _ => false
  end.

(** Four times the square of the distance from a point to the centre of
    a display, in exact arithmetic. *)
Definition centre2 (bounds : DisplayBounds) (x y : Z) : Z :=
  (2 * x - 2 * b_x bounds - b_width bounds)
  * (2 * x - 2 * b_x bounds - b_width bounds)
  + (2 * y - 2 * b_y bounds - b_height bounds)
    * (2 * y - 2 * b_y bounds - b_height bounds).

(** Two displays whose centres are far to the left and to the right of
    the point (70000050, 51): the second centre is the nearer one in
    exact arithmetic, the computed distances are the same double. *)
Definition centredLeft : DisplayBounds := mkDisplayBounds "P" 0 0 100 100 1.
Definition centredRight : DisplayBounds :=
  mkDisplayBounds "Q" 140000000 1 100 100 1.

(** The calls of the detector that attribute a point to a screen and tag
    the signal with the result. *)
Definition pointAttributed (c : Intent.Call) : bool :=
  match c with
  | Intent.MouseClick _ _ _ _ | Intent.DragStarted _ _ _
  | Intent.DragEnded _ _ _ | Intent.Scrolled _ _ _
  | Intent.Poll _ _ => true
  | Intent.Typed _ _ w => negb (Js.truthy w)
  | _ => false
  end.

(** A tick resets the hover anchor: it attributes the cursor to a screen
    and finds it outside the hover radius. *)
Definition resetsHover (ie : Intent.IntentEngine) (pos : Z * Z) : bool :=
  match Intent.pointToScreen ie (fst pos) (snd pos) with
  | Some screenId =>
      Js.truthy (Some screenId)
      && (Intent.hoverRadiusPx (Intent.config ie)
          <? Intent.hypot (fst pos - Intent.hoverStartX ie)
                          (snd pos - Intent.hoverStartY ie))%float
  | None => false
  end.

(** The number of ticks of a sequence that reset the hover anchor. *)
Fixpoint resetCount (ie : Intent.IntentEngine) (ticks : list (Z * (Z * Z)))
  : nat :=
  match ticks with
  | [] => O
  | (now, pos) :: rest =>
      ((if resetsHover ie pos then 1 else 0)
       + resetCount (fst (Intent.pollCursor now pos ie)) rest)%nat
  end.

(** The ticks as calls. *)
Definition polls (ticks : list (Z * (Z * Z))) : list Intent.Call :=
  map (fun t => Intent.Poll (fst t) (snd t)) ticks.

(** The number of [Hover] signals of a log. *)
Definition hoverCount (log : list Intent.Emit) : nat :=
  List.length
    (filter (fun s => SignalType_eqb (s_type s) Hover) (Intent.signalsOf log)).

(** The lifecycle events of a log: [true] for started, [false] for
    stopped. *)
Fixpoint lifecycleOf (log : list Intent.Emit) : list bool :=
  match log with
  | [] => []
  | Intent.Started :: rest => true :: lifecycleOf rest
  | Intent.Stopped :: rest => false :: lifecycleOf rest
  | Intent.Signal _ :: rest => lifecycleOf rest
  end.


(** Two displays on which the two fallback rules differ: a narrow one
    and a wide one, with a gap between them. *)
Definition narrowAndWide : list DisplayBounds :=
  [mkDisplayBounds "A" 0 0 100 100 1; mkDisplayBounds "B" 200 0 1000 100 1].

(* ------------------------------------------------------------------ *)
(** ** Proof tools *)

(** Case analysis on the next branch of the goal. *)
Ltac break_branch :=
  match goal with
  | |- context [if ?c then _ else _] => destruct c eqn:?
  | |- context [match ?c with _ => _ end] => destruct c eqn:?
  end.

(** Case analysis on the comparisons of exponents and mantissas that
    the comparison of two doubles makes. *)
Ltac compare_cases :=
  repeat match goal with
  | H : context [Z.compare ?a ?b] |- _ =>
      destruct (Z.compare_spec a b); try discriminate H
  | |- context [Z.compare ?a ?b] => destruct (Z.compare_spec a b)
  | H : context [Pos.compare_cont Eq ?a ?b] |- _ =>
      change (Pos.compare_cont Eq a b) with (Pos.compare a b) in H;
      destruct (Pos.compare_spec a b); try discriminate H
  | |- context [Pos.compare_cont Eq ?a ?b] =>
      change (Pos.compare_cont Eq a b) with (Pos.compare a b);
      destruct (Pos.compare_spec a b)
  end.

Ltac order_cases :=
  unfold SFltb, SFleb; simpl; try discriminate; try reflexivity;
  intros; compare_cases; simpl in *;
  try discriminate; try reflexivity; try contradiction; try lia.

(** Case analysis on the conditions of the confidence pipeline, leaving
    the tests on computed confidences to evaluation. *)
Ltac split_conditions :=
  repeat match goal with
         | |- context [if ?c then _ else _] =>
             lazymatch c with
             | context [PrimFloat.sub] => fail
             | context [PrimFloat.add] => fail
             | _ => destruct c
             end
         | |- context [match ?c with Some _ => _ | None => _ end] =>
             destruct c
         end.

(* ------------------------------------------------------------------ *)
(** ** Scenario: click dwell satisfied *)

Section ClickDwell.
Variables clock1 clock2 : Z.

Let log :=
  snd (run scenarioEngine
         [ProcessSignal clock1 (makeSignal Click "D2" 1000);
          ProcessSignal clock2 (makeSignal Click "D2" 1400)]).

(** The same clicks without a screen tag, at the point (2880, 540) of D2. *)
Let logUntagged :=
  snd (run scenarioEngine
         [ProcessSignal clock1
            (mkIntentSignal Click "" 2880 540 1000 None None);
          ProcessSignal clock2
            (mkIntentSignal Click "" 2880 540 1400 None None)]).

(** C1 (as amended).  The two clicks on D2 at t=1000 and t=1400 emit
    exactly one FocusChangeEvent and nothing else; it has screenId=D2,
    reason=Click, dwellMs=400, sequence=1 and confidence=1.00: the base
    0.95 plus the 0.05 reinforcement for a candidate sustained for less
    than 1000 ms.  It is the same whether the clicks are tagged with D2
    or attributed to D2 by their coordinates. *)
Theorem click_dwell_satisfied :
  log = [FocusChange {|
           e_sessionId := "test";
           e_screenId := "D2";
           e_reason := Click;
           e_confidence := 1.00;
           e_dwellMs := 400;
           e_sequence := 1;
           e_timestampMs := 1400
         |}]
  /\ logUntagged = log
  /\ computeConfidence
       (fst (processSignal clock1 scenarioEngine (makeSignal Click "D2" 1000)))
       (makeSignal Click "D2" 1400) "D2" 1400
     = (0.95 + 0.05)%float.
Proof. repeat split; vm_compute; reflexivity. Qed.

End ClickDwell.

(** C1 (as stated) fails: the single event does not carry
    confidence 0.95. *)
Lemma click_dwell_confidence_is_not_095 :
  ~ exists ev,
      focusChangeEvents
        (snd (run scenarioEngine
                [ProcessSignal 0 (makeSignal Click "D2" 1000);
                 ProcessSignal 0 (makeSignal Click "D2" 1400)])) = [ev]
      /\ e_screenId ev = "D2"%string /\ e_reason ev = Click
      /\ e_dwellMs ev = 400 /\ e_confidence ev = 0.95%float
      /\ e_sequence ev = 1.
Proof.
  intros [ev [Hlog [_ [_ [_ [Hconf _]]]]]].
  vm_compute in Hlog.
  injection Hlog as <-.
  apply (f_equal (fun c => (c =? 1)%float)) in Hconf.
  vm_compute in Hconf.
  discriminate.
Qed.

(* ------------------------------------------------------------------ *)
(** ** Scenario: cooldown blocks the opposite click *)

Section Cooldown.
Variables clock1 clock2 clock3 clock4 : Z.

Let clickA := ProcessSignal clock1 (makeSignal Click "D2" 1000).
Let clickB := ProcessSignal clock2 (makeSignal Click "D2" 1400).
Let clickC := ProcessSignal clock3 (makeSignal Click "D1" 1500).
Let clickD := ProcessSignal clock4 (makeSignal Click "D1" 1900).

(** C8.  The four clicks produce exactly one FocusChangeEvent, the
    t=1400 switch to D2.  The t=1500 click on D1 takes both subtractions:
    its confidence is 0.95 - 0.15 after [computeConfidence] and
    0.95 - 0.15 - 0.15 (which rounds to 0.65) after the cooldown step,
    below 0.80.  The t=1900 click arrives at exactly
    lastSwitchTs + cooldownMs, is still penalised twice (both counted in
    [cooldownBlocks]) and stays below the switch threshold. *)
Theorem cooldown_blocks_opposite_click :
  let after2 := fst (run scenarioEngine [clickA; clickB]) in
  let after3 := fst (run scenarioEngine [clickA; clickB; clickC]) in
  let after4 := fst (run scenarioEngine [clickA; clickB; clickC; clickD]) in
  focusChangeEvents
    (snd (run scenarioEngine [clickA; clickB; clickC; clickD]))
  = [{| e_sessionId := "test"; e_screenId := "D2"; e_reason := Click;
        e_confidence := 1.00; e_dwellMs := 400; e_sequence := 1;
        e_timestampMs := 1400 |}]
  /\ computeConfidence
       (trackActivity (countSignal after2 Click) Click 1500)
       (makeSignal Click "D1" 1500) "D1" 1500 = (0.95 - 0.15)%float
  /\ effectiveConfidence after2 (makeSignal Click "D1" 1500)
     = Some (0.95 - 0.15 - 0.15)%float
  /\ (0.95 - 0.15 - 0.15 <? 0.80)%float = true
  /\ (Js.Math_round ((0.95 - 0.15 - 0.15) * 100) / 100 =? 0.65)%float = true
  /\ lastSwitchTs (state after3) + cooldownMs (config after3) = 1900
  /\ effectiveConfidence after3 (makeSignal Click "D1" 1900)
     = Some (0.95 + 0.05 - 0.15 - 0.15)%float
  /\ (0.95 + 0.05 - 0.15 - 0.15 <? switchThreshold (config after3))%float
     = true
  /\ cooldownBlocks (metrics after2) = 0
  /\ cooldownBlocks (metrics after4) = 2
  /\ activeScreenId (state after4) = Some "D2"%string.
Proof. repeat split; vm_compute; reflexivity. Qed.

End Cooldown.

(* ------------------------------------------------------------------ *)
(** ** Focus changes and the active screen *)

(** C2, at the failing input.  On the scenario engine D1 is active from
    construction.  [ManualSelect] of D1 calls [setActive] without
    comparing with the active screen: it emits a FocusChangeEvent for D1
    and leaves [activeScreenId] equal to its previous non-null value. *)
Theorem manual_select_of_active_screen_emits (clock : Z) :
  let control := mkPresenterControl ManualSelect (Some "D1"%string) 1000 in
  let result := handlePresenterControl clock scenarioEngine control in
  activeScreenId (state scenarioEngine) = Some "D1"%string
  /\ activeScreenId (state (fst result)) = Some "D1"%string
  /\ snd result
     = [FocusChange {| e_sessionId := "test"; e_screenId := "D1";
                       e_reason := Manual; e_confidence := 1.00;
                       e_dwellMs := 1000; e_sequence := 1;
                       e_timestampMs := 1000 |}].
Proof. repeat split; vm_compute; reflexivity. Qed.

(** The sibling path: a [processSignal] call emits a FocusChangeEvent
    only for a screen that was not the active one and is afterwards. *)
Lemma strict_eq_false a id : Js.strict_eq a (Some id) = false -> a <> Some id.
Proof.
  destruct a as [s |]; simpl; [| discriminate].
  intros H [= ->]. now rewrite String.eqb_refl in H.
Qed.

Lemma strict_eq_false_l a id : Js.strict_eq (Some id) a = false -> a <> Some id.
Proof.
  destruct a as [s |]; simpl; [| discriminate].
  intros H [= ->]. now rewrite String.eqb_refl in H.
Qed.

Lemma processSignal_switch_changes_active clock e signal ev :
  In (FocusChange ev) (snd (processSignal clock e signal)) ->
  activeScreenId (state e) <> Some (e_screenId ev)
  /\ activeScreenId (state (fst (processSignal clock e signal)))
     = Some (e_screenId ev).
Proof.
  unfold processSignal.
  set (now := s_timestampMs signal).
  set (e1 := trackActivity (countSignal e (s_type signal)) (s_type signal) now).
  assert (H1 : activeScreenId (state e1) = activeScreenId (state e)).
  { unfold e1, trackActivity.
    now destruct (isActivitySignal (s_type signal)). }
  destruct (frozen (state e1)); [intros [] |].
  destruct (negb (autoEnabled (state e1))); [intros [] |].
  destruct (manualOverride (state e1)) as [m |].
  { destruct (negb (Js.strict_eq (activeScreenId (state e1)) (Some m)))
      eqn:Hneq; [| intros []].
    apply negb_true_iff, strict_eq_false in Hneq.
    simpl. intros [[= <-] | []]. simpl. split; congruence. }
  destruct (attributeToScreen e1 signal) as [cand |]; [| intros []].
  destruct (isIdle e1 now); [intros [] |].
  destruct (cooldownPenalty e1 signal now
              (computeConfidence e1 signal cand now)) as [conf e2] eqn:Hcp.
  assert (H2 : activeScreenId (state e2) = activeScreenId (state e)).
  { rewrite <- H1. change e2 with (snd (conf, e2)). rewrite <- Hcp.
    unfold cooldownPenalty. now break_branch. }
  set (e3 := trackCandidate e2 cand now).
  assert (H3 : activeScreenId (state e3) = activeScreenId (state e)).
  { rewrite <- H2. unfold e3, trackCandidate. now break_branch. }
  destruct (now - candidateSinceTs (state e3) <? getDwellMs e3 (s_type signal));
    [intros [] |].
  destruct (negb (Js.strict_eq (Some cand) (activeScreenId (state e3))))
    eqn:Hneq.
  - apply negb_true_iff, strict_eq_false_l in Hneq.
    destruct (switchThreshold (config e3) <=? conf)%float; [| intros []].
    simpl. intros [[= <-] | []]. simpl. split; congruence.
  - destruct (stayThreshold (config e3) <=? conf)%float; [| intros []].
    simpl. intros [H | []]. discriminate H.
Qed.

(* ------------------------------------------------------------------ *)
(** ** The wall clock *)

(** C5, at the failing input.  After a click on the active screen D1 at
    t=1000, a second click on D1 at t=1400 passes the dwell gate and takes
    the stay branch; the snapshot handed to the focus-state callback
    carries the wall-clock reading, not the signal's 1400, so two runs
    under different clocks emit different snapshots. *)
Theorem stay_refresh_reads_the_clock (clock0 clock : Z) :
  let primed :=
    fst (processSignal clock0 scenarioEngine (makeSignal Click "D1" 1000)) in
  snd (processSignal clock primed (makeSignal Click "D1" 1400))
  = [FocusState {| snap_activeScreenId := "D1"; snap_mode := ModeAuto;
                   snap_frozen := false; snap_sequence := 0;
                   snap_timestampMs := clock |}]
  /\ snd (processSignal 1 primed (makeSignal Click "D1" 1400))
     <> snd (processSignal 2 primed (makeSignal Click "D1" 1400)).
Proof.
  split.
  - vm_compute. reflexivity.
  - vm_compute. discriminate.
Qed.

(** What does not depend on the clock: the engine after the call and
    the FocusChangeEvents it emits. *)
Lemma processSignal_clock_free clock1 clock2 e signal :
  fst (processSignal clock1 e signal) = fst (processSignal clock2 e signal)
  /\ focusChangeEvents (snd (processSignal clock1 e signal))
     = focusChangeEvents (snd (processSignal clock2 e signal)).
Proof.
  unfold processSignal, emitFocusStateRefresh.
  repeat break_branch; split; reflexivity.
Qed.

(* ------------------------------------------------------------------ *)
(** ** Construction *)

(** C3 (as stated) fails: the constructor completes with an engine that
    holds the invalid configuration, and that engine serves calls. *)
Lemma invalid_config_is_constructed :
  exists engine,
    constructor "test" [D1; D2; D3] invalidPartial = Constructed engine
    /\ validConfig (config engine) = false
    /\ (switchThreshold (config engine) <? stayThreshold (config engine))%float
       = true
    /\ cooldownMs (config engine) < 0
    /\ activeScreenId
         (state (fst (handlePresenterControl 0 engine
                        (mkPresenterControl ManualSelect
                                            (Some "D2"%string) 1000))))
       = Some "D2"%string.
Proof.
  eexists. split; [reflexivity |].
  repeat split; vm_compute; reflexivity.
Qed.

(** C3 (as amended).  Construction performs no validation: for every
    session id, display list and partial configuration the constructor
    completes with an engine, never with an error, and the engine's
    configuration is the defaults overridden by the given fields, valid
    or not. *)
Theorem constructor_never_rejects
  (sid : string) (ds : list DisplayBounds) (cfg : PartialFocusConfig) :
  (forall error, constructor sid ds cfg <> Thrown error)
  /\ exists engine,
       constructor sid ds cfg = Constructed engine
       /\ config engine = spread DEFAULT_FOCUS_CONFIG cfg
       /\ sequence (state engine) = 0
       /\ activeScreenId (state engine)
          = match ds with d :: _ => Some (b_screenId d) | [] => None end.
Proof.
  split.
  - intros error. unfold constructor. discriminate.
  - eexists. split; [reflexivity |]. repeat split.
Qed.

(* ------------------------------------------------------------------ *)
(** ** Sequence numbers and timestamps of emitted events *)

Lemma setActive_Emission now e0 e screenId reason confidence :
  sequence (state e) = sequence (state e0) ->
  Emission now e0 (setActive e screenId reason confidence now).
Proof.
  intros Hseq. unfold setActive.
  eapply Switch; simpl; try reflexivity; now rewrite Hseq.
Qed.

Lemma refresh_Emission now clock e0 e :
  sequence (state e) = sequence (state e0) ->
  Emission now e0 (emitFocusStateRefresh clock e now).
Proof. intros Hseq. unfold emitFocusStateRefresh. now apply Quiet. Qed.

Lemma countSignal_state e t : state (countSignal e t) = state e.
Proof. reflexivity. Qed.

Lemma trackActivity_sequence e t now :
  sequence (state (trackActivity e t now)) = sequence (state e).
Proof. unfold trackActivity. now destruct (isActivitySignal t). Qed.

Lemma cooldownPenalty_state e signal now c :
  state (snd (cooldownPenalty e signal now c)) = state e.
Proof. unfold cooldownPenalty. now break_branch. Qed.

Lemma trackCandidate_sequence e cand now :
  sequence (state (trackCandidate e cand now)) = sequence (state e).
Proof. unfold trackCandidate. now break_branch. Qed.

Lemma processSignal_Emission clock e signal :
  Emission (s_timestampMs signal) e (processSignal clock e signal).
Proof.
  unfold processSignal.
  set (now := s_timestampMs signal).
  set (e1 := trackActivity (countSignal e (s_type signal)) (s_type signal) now).
  assert (H1 : sequence (state e1) = sequence (state e))
    by (unfold e1; now rewrite trackActivity_sequence).
  destruct (frozen (state e1)); [now apply Quiet |].
  destruct (negb (autoEnabled (state e1))); [now apply Quiet |].
  destruct (manualOverride (state e1)) as [m |].
  { break_branch; [now apply setActive_Emission | now apply Quiet]. }
  destruct (attributeToScreen e1 signal) as [cand |]; [| now apply Quiet].
  destruct (isIdle e1 now); [now apply Quiet |].
  destruct (cooldownPenalty e1 signal now
              (computeConfidence e1 signal cand now)) as [conf e2] eqn:Hcp.
  assert (H2 : sequence (state e2) = sequence (state e)).
  { rewrite <- H1.
    change e2 with (snd (conf, e2)). rewrite <- Hcp.
    now rewrite cooldownPenalty_state. }
  set (e3 := trackCandidate e2 cand now).
  assert (H3 : sequence (state e3) = sequence (state e))
    by (unfold e3; now rewrite trackCandidate_sequence).
  repeat break_branch;
    first [ now apply setActive_Emission
          | now apply refresh_Emission
          | now apply Quiet ].
Qed.

Lemma handlePresenterControl_Emission clock e control :
  Emission (c_timestampMs control) e (handlePresenterControl clock e control).
Proof.
  unfold handlePresenterControl.
  destruct (c_action control).
  - now apply refresh_Emission.
  - apply refresh_Emission. now break_branch.
  - repeat break_branch;
      first [ now apply setActive_Emission | now apply Quiet ].
  - now apply refresh_Emission.
Qed.

Lemma focusChangeEvents_app l1 l2 :
  focusChangeEvents (l1 ++ l2) = focusChangeEvents l1 ++ focusChangeEvents l2.
Proof.
  induction l1 as [| [ev | sn] l1 IH]; simpl; now rewrite ?IH.
Qed.

(** The sequence numbers of a run count up from the engine's counter. *)
Lemma run_sequences calls :
  forall e,
    let evs := focusChangeEvents (snd (run e calls)) in
    map e_sequence evs
    = consecutive (sequence (state e) + 1) (List.length evs)
    /\ sequence (state (fst (run e calls)))
       = sequence (state e) + Z.of_nat (List.length evs).
Proof.
  induction calls as [| c rest IH]; intros e; simpl.
  - split; [reflexivity | lia].
  - destruct (call e c) as [e1 out1] eqn:Hcall.
    specialize (IH e1).
    destruct (run e1 rest) as [e2 out2]. simpl in *.
    rewrite focusChangeEvents_app, map_app, length_app.
    destruct IH as [IHseq IHcnt].
    assert (Hem : exists now, Emission now e (e1, out1)).
    { rewrite <- Hcall. destruct c; simpl.
      - eexists. apply processSignal_Emission.
      - eexists. apply handlePresenterControl_Emission.
      - exists 0. now apply Quiet. }
    destruct Hem as [now Hem].
    inversion Hem as [e' out Hnone Hs | e' out ev Hone Hn Ht Hs]; subst.
    + rewrite Hnone. simpl. rewrite IHseq, IHcnt, Hs. split; reflexivity.
    + rewrite Hone. simpl. rewrite IHseq, IHcnt, Hs, Hn.
      split; [reflexivity | lia].
Qed.

Lemma consecutive_sorted n :
  forall start, StronglySorted Z.lt (consecutive start n)
                /\ Forall (fun v => start <= v) (consecutive start n).
Proof.
  induction n as [| n IH]; intros start; simpl.
  - split; constructor.
  - destruct (IH (start + 1)) as [Hs Hf].
    split; constructor; try lia; try assumption.
    + eapply Forall_impl; [| exact Hf]. simpl. intros. lia.
    + eapply Forall_impl; [| exact Hf]. simpl. intros. lia.
Qed.

(** The event timestamps of a run are among the call timestamps, in
    order: above a lower bound of these and sorted when these are. *)
Lemma run_timestamps calls :
  forall e lo,
    StronglySorted Z.le (callTimestamps calls) ->
    Forall (fun t => lo <= t) (callTimestamps calls) ->
    let stamps :=
      map e_timestampMs (focusChangeEvents (snd (run e calls))) in
    StronglySorted Z.le stamps /\ Forall (fun t => lo <= t) stamps.
Proof.
  induction calls as [| c rest IH]; intros e lo Hsorted Hlo; simpl.
  - split; constructor.
  - destruct (call e c) as [e1 out1] eqn:Hcall.
    destruct (run e1 rest) as [e2 out2] eqn:Hrun. simpl.
    rewrite focusChangeEvents_app, map_app.
    assert (Hem : (exists now, callTimestamps (c :: rest)
                               = now :: callTimestamps rest
                               /\ Emission now e (e1, out1))
                  \/ (callTimestamps (c :: rest) = callTimestamps rest
                      /\ focusChangeEvents out1 = [])).
    { destruct c; simpl in Hcall.
      - left. eexists. split; [reflexivity |].
        rewrite <- Hcall. apply processSignal_Emission.
      - left. eexists. split; [reflexivity |].
        rewrite <- Hcall. apply handlePresenterControl_Emission.
      - right. injection Hcall as <- <-. now split. }
    destruct Hem as [[now [Hts Hem]] | [Hts Hnone]].
    + rewrite Hts in Hsorted, Hlo.
      inversion Hsorted as [| ? ? Hs' Hall]; subst.
      inversion Hlo as [| ? ? Hnow Hlo']; subst.
      pose proof (IH e1 lo Hs' Hlo') as [IHa IHb].
      pose proof (IH e1 now Hs' Hall) as [_ IHc].
      rewrite Hrun in IHa, IHb, IHc. simpl in IHa, IHb, IHc.
      inversion Hem as [e' out Hn Hq | e' out ev Hone Hn Ht Hq]; subst.
      * rewrite Hn. simpl. now split.
      * rewrite Hone. simpl.
        split; constructor; assumption.
    + rewrite Hts in Hsorted, Hlo.
      pose proof (IH e1 lo Hsorted Hlo) as [IHa IHb].
      rewrite Hrun in IHa, IHb. simpl in IHa, IHb.
      rewrite Hnone. simpl. now split.
Qed.

(** C9.  For every engine built by the constructor and every sequence of
    calls on it, the sequence fields of the emitted FocusChangeEvents are
    strictly increasing and the first one is 1; and when the timestamps
    carried by the calls are non-decreasing, so are the timestamps of the
    emitted events. *)
Theorem emitted_sequence_and_time_monotone
  (sid : string) (ds : list DisplayBounds) (cfg : PartialFocusConfig)
  (calls : list Call) :
  let evs :=
    focusChangeEvents (snd (run (new_engine sid ds cfg) calls)) in
  StronglySorted Z.lt (map e_sequence evs)
  /\ (forall ev, hd_error evs = Some ev -> e_sequence ev = 1)
  /\ (Sorted Z.le (callTimestamps calls) ->
      StronglySorted Z.le (map e_timestampMs evs)).
Proof.
  intros evs.
  destruct (run_sequences calls (new_engine sid ds cfg)) as [Hseq _].
  fold evs in Hseq. simpl in Hseq.
  split; [| split].
  - rewrite Hseq. apply consecutive_sorted.
  - intros ev Hhd. destruct evs as [| ev' evs']; [discriminate |].
    simpl in Hhd, Hseq. injection Hhd as ->. now injection Hseq.
  - intros Hsorted.
    apply Sorted_StronglySorted in Hsorted;
      [| intros a b c Hab Hbc; lia].
    assert (Hlo : exists lo, Forall (fun t => lo <= t) (callTimestamps calls)).
    { destruct (callTimestamps calls) as [| t ts] eqn:Hts.
      - exists 0. constructor.
      - exists t. inversion Hsorted; subst.
        constructor; [lia | assumption]. }
    destruct Hlo as [lo Hlo].
    now destruct (run_timestamps calls (new_engine sid ds cfg) lo Hsorted Hlo).
Qed.

(* ------------------------------------------------------------------ *)
(** ** Signals that no screen is attributed to *)

Lemma directScreen_displays e e' signal :
  displays e = displays e' -> directScreen e signal = directScreen e' signal.
Proof. intros H. unfold directScreen. now rewrite H. Qed.

Lemma attributeToScreen_displays e e' signal :
  displays e = displays e' ->
  attributeToScreen e signal = attributeToScreen e' signal.
Proof.
  intros H. unfold attributeToScreen.
  now rewrite (directScreen_displays e e' signal H), H.
Qed.

Lemma trackActivity_displays e t now :
  displays (trackActivity e t now) = displays e.
Proof. unfold trackActivity. now destruct (isActivitySignal t). Qed.

Lemma trackActivity_manualOverride e t now :
  manualOverride (state (trackActivity e t now)) = manualOverride (state e).
Proof. unfold trackActivity. now destruct (isActivitySignal t). Qed.

Lemma get_set_same {V : Type} (m : Js.Map V) k v :
  Js.get (Js.set m k v) k = Some v.
Proof.
  induction m as [| [k' v'] m IH]; simpl.
  - now rewrite String.eqb_refl.
  - destruct (String.eqb k' k) eqn:Hk; simpl; now rewrite Hk.
Qed.

Lemma get_set_other {V : Type} (m : Js.Map V) k k' v :
  k <> k' -> Js.get (Js.set m k v) k' = Js.get m k'.
Proof.
  intros Hne. induction m as [| [k0 v0] m IH]; simpl.
  - destruct (String.eqb k k') eqn:Hk; [| reflexivity].
    apply String.eqb_eq in Hk. contradiction.
  - destruct (String.eqb k0 k) eqn:Hk; simpl.
    + apply String.eqb_eq in Hk. subst k0.
      destruct (String.eqb k k') eqn:Hk'; [| reflexivity].
      apply String.eqb_eq in Hk'. contradiction.
    + now rewrite IH.
Qed.

Lemma SignalType_value_inj t u :
  SignalType_value t = SignalType_value u -> t = u.
Proof. destruct t, u; simpl; intros H; try reflexivity; discriminate H. Qed.

Lemma SignalType_eqb_eq (a b : SignalType) :
  SignalType_eqb a b = true <-> a = b.
Proof. destruct a, b; simpl; split; congruence. Qed.

Lemma signalCount_countSignal e t u :
  signalCount (countSignal e t) u
  = signalCount e u + (if SignalType_eqb u t then 1 else 0).
Proof.
  unfold signalCount, countSignal. simpl.
  destruct (SignalType_eqb u t) eqn:Htu.
  - apply SignalType_eqb_eq in Htu. subst u.
    now rewrite get_set_same.
  - rewrite get_set_other; [lia |].
    intros Heq. apply SignalType_value_inj in Heq. subst u.
    destruct t; discriminate Htu.
Qed.

(** Without a pending override, a signal that attribution maps to no
    screen ends [processSignal] after the counting and activity steps. *)
Lemma processSignal_unattributed clock e signal :
  manualOverride (state e) = None ->
  attributeToScreen e signal = None ->
  processSignal clock e signal
  = (trackActivity (countSignal e (s_type signal))
                   (s_type signal) (s_timestampMs signal), []).
Proof.
  intros Hmanual Hattr. unfold processSignal.
  set (e1 := trackActivity (countSignal e (s_type signal))
                           (s_type signal) (s_timestampMs signal)).
  assert (Hm1 : manualOverride (state e1) = None)
    by (unfold e1; now rewrite trackActivity_manualOverride).
  assert (Ha1 : attributeToScreen e1 signal = None).
  { rewrite <- Hattr. apply attributeToScreen_displays.
    unfold e1. now rewrite trackActivity_displays. }
  rewrite Hm1, Ha1.
  destruct (frozen (state e1)); [reflexivity |].
  now destruct (negb (autoEnabled (state e1))).
Qed.

(** C6 (as amended).  When no manual override is pending and attribution
    returns none, [processSignal] emits nothing and raises nothing, and
    the engine is left as it was after the first two steps of the
    pipeline: [signalCounts] of the signal's type has grown by one, and
    [lastActivityTs] is the signal's timestamp when the type is an
    activity type.  Configuration, displays, the other state fields
    (among them [candidateScreenId] and [candidateSinceTs]) and the other
    counters are unchanged. *)
Theorem unattributed_signal_frame
  (clock : Z) (e : FocusAlgorithm) (signal : IntentSignal) :
  manualOverride (state e) = None ->
  attributeToScreen e signal = None ->
  let e' := fst (processSignal clock e signal) in
  snd (processSignal clock e signal) = []
  /\ e' = trackActivity (countSignal e (s_type signal))
                        (s_type signal) (s_timestampMs signal)
  /\ (config e' = config e /\ displays e' = displays e
      /\ sessionId e' = sessionId e)
  /\ set_lastActivityTs (state e') (lastActivityTs (state e)) = state e
  /\ lastActivityTs (state e')
     = (if isActivitySignal (s_type signal) then s_timestampMs signal
        else lastActivityTs (state e))
  /\ (candidateScreenId (state e') = candidateScreenId (state e)
      /\ candidateSinceTs (state e') = candidateSinceTs (state e))
  /\ set_signalCounts (metrics e') (signalCounts (metrics e)) = metrics e
  /\ (forall t, signalCount e' t
                = signalCount e t
                  + (if SignalType_eqb t (s_type signal) then 1 else 0)).
Proof.
  intros Hmanual Hattr e'.
  set (e1 := trackActivity (countSignal e (s_type signal))
                           (s_type signal) (s_timestampMs signal)).
  assert (Hres : processSignal clock e signal = (e1, []))
    by (now apply processSignal_unattributed).
  unfold e'. rewrite Hres. simpl.
  split; [reflexivity |]. split; [reflexivity |].
  unfold e1, trackActivity.
  destruct e as [st cf dp sid mt]; destruct st; destruct mt.
  destruct (isActivitySignal (s_type signal)) eqn:Hact; simpl;
    repeat split;
    try (intros t;
         pose proof (signalCount_countSignal
                       (mkFocusAlgorithm
                          (mkState activeScreenId0 frozen0 autoEnabled0
                                   manualOverride0 lastSwitchTs0
                                   candidateScreenId0 candidateSinceTs0
                                   lastActivityTs0 sequence0)
                          cf dp sid
                          (mkMetrics focusChanges0 cooldownBlocks0
                                     dwellResets0 idleBlocks0 signalCounts0))
                       (s_type signal) t) as Hc;
         exact Hc).
Qed.

(** [unattributed_signal_frame] applies to a pointer move on an engine
    without displays. *)
Lemma unattributed_signal_frame_witness :
  let e := new_engine "test" [] emptyPartial in
  let signal := makeSignal PointerMove "D2" 1000 in
  (manualOverride (state e) = None /\ attributeToScreen e signal = None)
  /\ snd (processSignal 0 e signal) = []
  /\ signalCount (fst (processSignal 0 e signal)) PointerMove = 1
  /\ lastActivityTs (state (fst (processSignal 0 e signal))) = 0.
Proof.
  intros e signal.
  split; [split; reflexivity |].
  pose proof (unattributed_signal_frame 0 e signal eq_refl eq_refl) as H.
  simpl in H.
  destruct H as [Hout [_ [_ [_ [Hact [_ [_ Hcount]]]]]]].
  split; [exact Hout |].
  split; [exact (Hcount PointerMove) | exact Hact].
Defined.

(** C6 (as stated) fails: with no displays, a click is attributed to no
    screen, yet [lastActivityTs] and [signalCounts] change. *)
Lemma unattributed_click_changes_state :
  let e := new_engine "test" [] emptyPartial in
  let signal := makeSignal Click "D2" 1000 in
  let e' := fst (processSignal 0 e signal) in
  attributeToScreen e signal = None
  /\ snd (processSignal 0 e signal) = []
  /\ lastActivityTs (state e) = 0 /\ lastActivityTs (state e') = 1000
  /\ signalCounts (metrics e) = []
  /\ signalCounts (metrics e') = [("click"%string, 1)]
  /\ e' <> e.
Proof.
  repeat split; try (vm_compute; reflexivity).
  vm_compute. discriminate.
Qed.

(* ------------------------------------------------------------------ *)
(** ** The snapshot of an engine without displays *)

Lemma attributeToScreen_no_displays e signal :
  displays e = [] -> attributeToScreen e signal = None.
Proof.
  intros H. unfold attributeToScreen, directScreen. rewrite H. simpl.
  rewrite andb_false_r.
  destruct (s_windowDisplayId signal); [| reflexivity].
  now rewrite andb_false_r.
Qed.

Lemma trackActivity_activeScreenId e t now :
  activeScreenId (state (trackActivity e t now)) = activeScreenId (state e).
Proof. unfold trackActivity. now destruct (isActivitySignal t). Qed.

Lemma processSignal_blank clock e signal :
  blank e -> blank (fst (processSignal clock e signal)).
Proof.
  intros [Hd [Ha Hm]].
  rewrite (processSignal_unattributed clock e signal Hm
             (attributeToScreen_no_displays e signal Hd)).
  simpl.
  unfold blank.
  rewrite trackActivity_displays, trackActivity_activeScreenId,
    trackActivity_manualOverride.
  now repeat split.
Qed.

Lemma handlePresenterControl_blank clock e control :
  blank e -> blank (fst (handlePresenterControl clock e control)).
Proof.
  intros [Hd [Ha Hm]]. unfold handlePresenterControl, blank.
  destruct (c_action control); simpl; try (now repeat split).
  - destruct (negb (negb (frozen (state e)))); simpl; now repeat split.
  - destruct (c_screenId control) as [id |]; [| now repeat split].
    rewrite Hd. simpl. rewrite andb_false_r. now repeat split.
Qed.

Lemma run_blank calls :
  forall e, forallb keepsDisplays calls = true ->
            blank e -> blank (fst (run e calls)).
Proof.
  induction calls as [| c rest IH]; intros e Hkeep Hblank; simpl.
  - exact Hblank.
  - simpl in Hkeep. apply andb_true_iff in Hkeep as [Hc Hrest].
    destruct (call e c) as [e1 out1] eqn:Hcall.
    assert (H1 : blank e1).
    { change e1 with (fst (e1, out1)). rewrite <- Hcall.
      destruct c; simpl; [| | discriminate Hc].
      - now apply processSignal_blank.
      - now apply handlePresenterControl_blank. }
    specialize (IH e1 Hrest H1).
    now destruct (run e1 rest).
Qed.

(** C10 (as amended).  [getState()] never reports an empty or absent
    activeScreenId.  For an engine constructed with an empty display
    list, as long as [updateDisplays] has not been called, whatever
    signals and presenter controls it has received (no manual selection
    can succeed on an empty map), the internal activeScreenId is null,
    the snapshot reports the literal 'screen_1', and 'screen_1' is not a
    key of the engine's bounds map. *)
Theorem getState_default_screen
  (sid : string) (cfg : PartialFocusConfig) (calls : list Call) (clock : Z) :
  forallb keepsDisplays calls = true ->
  let e := fst (run (new_engine sid [] cfg) calls) in
  activeScreenId (state e) = None
  /\ snap_activeScreenId (getState clock e) = "screen_1"%string
  /\ Js.has (displays e) "screen_1" = false
  /\ (forall e' clock',
        snap_activeScreenId (getState clock' e') <> EmptyString).
Proof.
  intros Hkeep e.
  assert (Hb : blank e).
  { apply run_blank; [exact Hkeep |]. now repeat split. }
  destruct Hb as [Hd [Ha Hm]].
  split; [exact Ha |].
  split; [unfold getState; simpl; now rewrite Ha |].
  split; [now rewrite Hd |].
  intros e' clock'. unfold getState. simpl. unfold Js.or_default.
  destruct (activeScreenId (state e')) as [s |]; [| discriminate].
  destruct (String.eqb s "") eqn:Hs; [discriminate |].
  intros ->. discriminate Hs.
Qed.

(** [getState_default_screen] on the fresh engine and after a click, an
    attempted manual selection and a freeze. *)
Lemma getState_default_screen_witness :
  let calls :=
    [ProcessSignal 5 (makeSignal Click "screen_1" 1000);
     HandlePresenterControl 6
       (mkPresenterControl ManualSelect (Some "screen_1"%string) 1100);
     HandlePresenterControl 7 (mkPresenterControl ToggleFreeze None 1200)] in
  forallb keepsDisplays calls = true
  /\ snap_activeScreenId
       (getState 8 (fst (run (new_engine "test" [] emptyPartial) calls)))
     = "screen_1"%string
  /\ snap_activeScreenId (getState 8 (new_engine "test" [] emptyPartial))
     = "screen_1"%string.
Proof.
  intros calls.
  split; [reflexivity |].
  split.
  - exact (proj1 (proj2 (getState_default_screen
                           "test" emptyPartial calls 8 eq_refl))).
  - exact (proj1 (proj2 (getState_default_screen
                           "test" emptyPartial [] 8 eq_refl))).
Defined.

(** C10 (as stated) fails: an engine constructed with an empty display
    list, and never given a manual selection, reports 'D2' once
    [updateDisplays] has supplied displays and two clicks on D2 have
    satisfied the dwell; and after [updateDisplays] with a display named
    'screen_1' the reported default is a key of the bounds map. *)
Lemma updated_displays_end_the_default :
  let e0 := new_engine "test" [] emptyPartial in
  let clicks :=
    [UpdateDisplays [D1; D2; D3];
     ProcessSignal 0 (makeSignal Click "D2" 1000);
     ProcessSignal 0 (makeSignal Click "D2" 1400)] in
  let named :=
    [UpdateDisplays [mkDisplayBounds "screen_1" 0 0 1920 1080 1]] in
  activeScreenId (state e0) = None
  /\ snap_activeScreenId (getState 0 e0) = "screen_1"%string
  /\ snap_activeScreenId (getState 0 (fst (run e0 clicks))) = "D2"%string
  /\ snap_activeScreenId (getState 0 (fst (run e0 clicks)))
     <> "screen_1"%string
  /\ snap_activeScreenId (getState 0 (fst (run e0 named)))
     = "screen_1"%string
  /\ Js.has (displays (fst (run e0 named))) "screen_1" = true.
Proof.
  repeat split; try (vm_compute; reflexivity).
  vm_compute. discriminate.
Qed.

(* ------------------------------------------------------------------ *)
(** ** Conflict resolution *)

(** The head of a stably sorted list, for a comparator that is
    transitive and whose sign flips with its arguments: it is strictly
    before everything that preceded it in the input, and before or equal
    to everything that followed it. *)
Section SortHead.
Context {A : Type} (compare : A -> A -> Z).
Hypothesis compare_trans :
  forall a b c, compare a b <= 0 -> compare b c <= 0 -> compare a c <= 0.
Hypothesis compare_flip : forall a b, 0 < compare a b -> compare b a < 0.

Lemma sort_insert_head v sorted :
  hd_error (sort_insert compare v sorted)
  = match sorted with
    | [] => Some v
    | w :: _ => if compare v w <=? 0 then Some v else Some w
    end.
Proof. destruct sorted as [| w rest]; simpl; [| destruct (_ <=? _)]; reflexivity. Qed.

Lemma sort_head v l :
  exists pre w post,
    v :: l = pre ++ w :: post
    /\ hd_error (sort compare (v :: l)) = Some w
    /\ Forall (fun t => compare w t < 0) pre
    /\ Forall (fun t => compare w t <= 0) post.
Proof.
  revert v. induction l as [| u l IH]; intros v.
  - exists [], v, []. repeat split; constructor.
  - destruct (IH u) as [pre [w [post [Hsplit [Hhd [Hpre Hpost]]]]]].
    change (sort compare (v :: u :: l))
      with (sort_insert compare v (sort compare (u :: l))).
    rewrite sort_insert_head.
    destruct (sort compare (u :: l)) as [| w' rest] eqn:Hsorted;
      [discriminate Hhd |].
    simpl in Hhd. injection Hhd as ->.
    destruct (compare v w <=? 0) eqn:Hvw.
    + apply Z.leb_le in Hvw.
      exists [], v, (u :: l). repeat split; [constructor |].
      rewrite Hsplit. apply Forall_app. split; [| constructor].
      * eapply Forall_impl; [| exact Hpre]. simpl. intros t Ht.
        apply (compare_trans v w t); lia.
      * exact Hvw.
      * eapply Forall_impl; [| exact Hpost]. simpl. intros t Ht.
        now apply (compare_trans v w t).
    + apply Z.leb_gt in Hvw.
      exists (v :: pre), w, post. repeat split.
      * simpl. now rewrite Hsplit.
      * constructor; [now apply compare_flip | exact Hpre].
      * exact Hpost.
Qed.
End SortHead.

(** In the two tables, signal types of equal priority have equal base
    confidence. *)
Lemma priority_fixes_confidence t u :
  SIGNAL_PRIORITY t = SIGNAL_PRIORITY u ->
  (BASE_CONFIDENCE t =? BASE_CONFIDENCE u)%float = true.
Proof.
  destruct t, u; simpl; intros H; try discriminate H; vm_compute; reflexivity.
Qed.

Lemma compareSignals_eq a b :
  compareSignals a b
  = if SIGNAL_PRIORITY (s_type a) =? SIGNAL_PRIORITY (s_type b)
    then s_timestampMs b - s_timestampMs a
    else SIGNAL_PRIORITY (s_type a) - SIGNAL_PRIORITY (s_type b).
Proof.
  unfold compareSignals.
  destruct (SIGNAL_PRIORITY (s_type a) =? SIGNAL_PRIORITY (s_type b)) eqn:Hp;
    simpl; [| reflexivity].
  apply Z.eqb_eq in Hp.
  now rewrite (priority_fixes_confidence _ _ Hp).
Qed.

Lemma compareSignals_trans a b c :
  compareSignals a b <= 0 -> compareSignals b c <= 0 ->
  compareSignals a c <= 0.
Proof.
  rewrite !compareSignals_eq.
  destruct (Z.eqb_spec (SIGNAL_PRIORITY (s_type a)) (SIGNAL_PRIORITY (s_type b)));
  destruct (Z.eqb_spec (SIGNAL_PRIORITY (s_type b)) (SIGNAL_PRIORITY (s_type c)));
  destruct (Z.eqb_spec (SIGNAL_PRIORITY (s_type a)) (SIGNAL_PRIORITY (s_type c)));
  lia.
Qed.

Lemma compareSignals_flip a b :
  0 < compareSignals a b -> compareSignals b a < 0.
Proof.
  rewrite !compareSignals_eq.
  destruct (Z.eqb_spec (SIGNAL_PRIORITY (s_type a)) (SIGNAL_PRIORITY (s_type b)));
  destruct (Z.eqb_spec (SIGNAL_PRIORITY (s_type b)) (SIGNAL_PRIORITY (s_type a)));
  lia.
Qed.

Lemma compareSignals_neg a b : compareSignals a b < 0 -> outranks a b.
Proof.
  rewrite compareSignals_eq. unfold outranks.
  destruct (Z.eqb_spec (SIGNAL_PRIORITY (s_type a)) (SIGNAL_PRIORITY (s_type b)))
    as [Hp | Hp]; intros H.
  - right. split; [exact Hp |]. right.
    split; [now apply priority_fixes_confidence | lia].
  - left. lia.
Qed.

Lemma compareSignals_nonpos a b :
  compareSignals a b <= 0 -> outranks a b \/ ranksEqual a b.
Proof.
  intros H. destruct (Z.eq_dec (compareSignals a b) 0) as [H0 | Hn].
  - right. rewrite compareSignals_eq in H0. unfold ranksEqual.
    destruct (Z.eqb_spec (SIGNAL_PRIORITY (s_type a))
                         (SIGNAL_PRIORITY (s_type b))) as [Hp | Hp].
    + split; [exact Hp |].
      split; [now apply priority_fixes_confidence | lia].
    + lia.
  - left. apply compareSignals_neg. lia.
Qed.

(** C4 (as amended).  [resolveConflict] returns none for the empty list.
    For a non-empty list it returns one of its signals, maximal under the
    ordering: a lower number in the priority table wins (Manual 0; Click,
    DragStart and DoubleClick 1; DragEnd 2; WindowFocus 3; Typing 4;
    Scroll 5; Gesture 6; Hover 7; PointerMove 8); on a priority tie the
    higher base confidence wins; on a further tie the later timestamp
    wins; among signals equal in all three the first of the list is
    returned.  In particular Click and DoubleClick tie on priority and on
    base confidence, so given a Click and a later DoubleClick, in either
    list order, the DoubleClick is returned. *)
Theorem resolveConflict_maximal :
  resolveConflict [] = None
  /\ (forall s l,
        exists pre w post,
          s :: l = pre ++ w :: post
          /\ resolveConflict (s :: l) = Some w
          /\ Forall (fun t => outranks w t) pre
          /\ Forall (fun t => outranks w t \/ ranksEqual w t) post)
  /\ (forall c d,
        s_type c = Click -> s_type d = DoubleClick ->
        s_timestampMs c < s_timestampMs d ->
        resolveConflict [c; d] = Some d /\ resolveConflict [d; c] = Some d).
Proof.
  split; [reflexivity |]. split.
  - intros s l.
    destruct (sort_head compareSignals compareSignals_trans
                        compareSignals_flip s l)
      as [pre [w [post [Hsplit [Hhd [Hpre Hpost]]]]]].
    exists pre, w, post.
    split; [exact Hsplit |]. split; [| split].
    + destruct l as [| u l]; [| exact Hhd].
      simpl in Hhd. exact Hhd.
    + eapply Forall_impl; [| exact Hpre].
      intros t. apply compareSignals_neg.
    + eapply Forall_impl; [| exact Hpost].
      intros t. apply compareSignals_nonpos.
  - intros c d Hc Hd Hts.
    unfold resolveConflict, sort, sort_insert.
    rewrite !compareSignals_eq, Hc, Hd. simpl.
    destruct (Z.leb_spec (s_timestampMs d - s_timestampMs c) 0);
      destruct (Z.leb_spec (s_timestampMs c - s_timestampMs d) 0);
      try lia; now split.
Qed.

(** C4 (as stated) fails: given a Click and a later DoubleClick, the
    DoubleClick is returned, not the Click. *)
Lemma later_double_click_beats_click :
  let c := makeSignal Click "D1" 1000 in
  let d := makeSignal DoubleClick "D1" 1200 in
  SIGNAL_PRIORITY (s_type c) = SIGNAL_PRIORITY (s_type d)
  /\ resolveConflict [c; d] = Some d
  /\ resolveConflict [c; d] <> Some c.
Proof.
  repeat split; try (vm_compute; reflexivity).
  vm_compute. discriminate.
Qed.

(* ------------------------------------------------------------------ *)
(** ** Pointer-based attribution *)

(** *** Binary64: results that are not NaN *)

#[local] Arguments Overlap_gtb : simpl never.
#[local] Arguments proximity : simpl never.
#[local] Arguments inside : simpl never.

Lemma shr_1_nonneg mrs : 0 <= shr_m mrs -> 0 <= shr_m (shr_1 mrs).
Proof.
  destruct mrs as [m r s]. simpl.
  destruct m as [| p | p]; [| destruct p | lia]; simpl; lia.
Qed.

Lemma iter_shr_1_nonneg p :
  forall mrs, 0 <= shr_m mrs -> 0 <= shr_m (iter_pos shr_1 p mrs).
Proof.
  induction p as [p IH | p IH |]; intros mrs H; simpl.
  - apply IH, IH. now apply shr_1_nonneg.
  - now apply IH, IH.
  - now apply shr_1_nonneg.
Qed.

Lemma shr_fexp_nonneg m e l :
  0 <= m -> 0 <= shr_m (fst (shr_fexp prec emax m e l)).
Proof.
  intros H. unfold shr_fexp, shr.
  assert (H0 : 0 <= shr_m (shr_record_of_loc m l))
    by (destruct l as [| []]; exact H).
  destruct (fexp prec emax (Zdigits2 m + e) - e); simpl;
    [exact H0 | now apply iter_shr_1_nonneg | exact H0].
Qed.

Lemma round_nearest_even_nonneg m l :
  0 <= m -> 0 <= round_nearest_even m l.
Proof.
  intros H. destruct l as [| []]; simpl; try lia.
  destruct (Z.even m); lia.
Qed.

(** Rounding a non-negative mantissa gives a zero, a finite double or an
    infinity of the sign asked for. *)
Lemma binary_round_aux_signed s m e l :
  0 <= m -> signed s (binary_round_aux prec emax s m e l).
Proof.
  intros H. unfold binary_round_aux.
  pose proof (shr_fexp_nonneg m e l H) as H1.
  destruct (shr_fexp prec emax m e l) as [mrs' e']. simpl in H1.
  pose proof (shr_fexp_nonneg _ e' loc_Exact
                (round_nearest_even_nonneg _ (loc_of_shr_record mrs') H1))
    as H2.
  destruct (shr_fexp prec emax
              (round_nearest_even (shr_m mrs') (loc_of_shr_record mrs'))
              e' loc_Exact) as [mrs'' e''].
  simpl in H2.
  destruct (shr_m mrs'') as [| p | p]; [reflexivity | | lia].
  destruct (e'' <=? emax - prec); reflexivity.
Qed.

Lemma binary_round_signed s m e : signed s (binary_round prec emax s m e).
Proof.
  unfold binary_round.
  destruct (shl_align m e (fexp prec emax (Z.pos (digits2_pos m) + e)))
    as [mz ez].
  now apply binary_round_aux_signed.
Qed.

Lemma SFmul_square s x : signed s x -> signed false (SF64mul x x).
Proof.
  destruct x as [sx | sx | | sx m e]; simpl; try contradiction; intros _;
    try (now destruct sx).
  rewrite xorb_nilpotent. now apply binary_round_aux_signed.
Qed.

Lemma SFmul_finite_signed m e y :
  signed false y -> signed false (SF64mul (S754_finite false m e) y).
Proof.
  destruct y as [sy | sy | | sy my ey]; simpl; try contradiction;
    intros ->; try reflexivity.
  now apply binary_round_aux_signed.
Qed.

Lemma SFadd_signed x y :
  signed false x -> signed false y -> signed false (SF64add x y).
Proof.
  destruct x as [sx | sx | | sx mx ex], y as [sy | sy | | sy my ey]; simpl;
    try contradiction; intros -> ->; try reflexivity.
  apply binary_round_signed.
Qed.

Lemma SFsqrt_signed x : signed false x -> signed false (SF64sqrt x).
Proof.
  destruct x as [sx | sx | | sx mx ex]; simpl; try contradiction;
    intros ->; try reflexivity.
  unfold SFsqrt_core_binary.
  set (m' := match _ with Z0 => _ | Zpos _ => _ | Zneg _ => _ end).
  pose proof (Z.sqrtrem_spec m') as Hs.
  assert (Hm : 0 <= m').
  { subst m'. destruct (_ - _); try lia. apply Z.shiftl_nonneg. lia. }
  specialize (Hs Hm).
  destruct (Z.sqrtrem m') as [q r].
  apply binary_round_aux_signed. lia.
Qed.

Lemma SFdiv_finite_signed m e y :
  signed false y -> signed false (SF64div (S754_finite false m e) y).
Proof.
  destruct y as [sy | sy | | sy my ey]; simpl; try contradiction;
    intros ->; try reflexivity.
  unfold SFdiv_core_binary.
  set (m' := match _ with Z0 => _ | Zpos _ => _ | Zneg _ => _ end).
  assert (Hm : 0 <= m').
  { subst m'. destruct (_ - _ - _); try lia. apply Z.shiftl_nonneg. lia. }
  pose proof (Z.div_pos m' (Z.pos my) Hm ltac:(lia)) as Hq.
  unfold Z.div in Hq.
  destruct (Z.div_eucl m' (Z.pos my)) as [q r].
  apply binary_round_aux_signed. exact Hq.
Qed.

Lemma one_finite : exists m e, Prim2SF 1 = S754_finite false m e.
Proof. eexists _, _. vm_compute. reflexivity. Qed.

Lemma two_finite : exists m e, Prim2SF 2 = S754_finite false m e.
Proof. eexists _, _. vm_compute. reflexivity. Qed.

Lemma number_of_pos_signed p : signed false (Prim2SF (Js.number_of_pos p)).
Proof.
  destruct one_finite as [m1 [e1 H1]], two_finite as [m2 [e2 H2]].
  induction p as [q IH | q IH |]; simpl.
  - rewrite add_spec, mul_spec, H1, H2.
    apply SFadd_signed; [| reflexivity].
    now apply SFmul_finite_signed.
  - rewrite mul_spec, H2. now apply SFmul_finite_signed.
  - now rewrite H1.
Qed.

Lemma number_signed z : exists s, signed s (Prim2SF (Js.number z)).
Proof.
  destruct z as [| p | p]; simpl.
  - exists false. vm_compute. reflexivity.
  - exists false. apply number_of_pos_signed.
  - exists true. rewrite opp_spec.
    pose proof (number_of_pos_signed p) as H.
    destruct (Prim2SF (Js.number_of_pos p)); simpl in *;
      try contradiction; now subst.
Qed.

Lemma square_signed z :
  signed false (Prim2SF (Js.number z * Js.number z)).
Proof.
  destruct (number_signed z) as [s H].
  rewrite mul_spec. exact (SFmul_square s _ H).
Qed.

(** A proximity is never NaN and never negative. *)
Lemma proximity_signed bounds x y :
  signed false (Prim2SF (proximity bounds x y)).
Proof.
  destruct one_finite as [m1 [e1 H1]].
  unfold proximity, dist.
  rewrite div_spec, add_spec, sqrt_spec, add_spec, H1.
  apply SFdiv_finite_signed.
  change (signed false (SF64add (S754_finite false m1 e1)
            (SF64sqrt (SF64add
               (Prim2SF (Js.number (dx bounds x) * Js.number (dx bounds x)))
               (Prim2SF (Js.number (dy bounds y)
                         * Js.number (dy bounds y))))))).
  apply SFadd_signed; [reflexivity |].
  apply SFsqrt_signed, SFadd_signed; apply square_signed.
Qed.

(** A proximity is above the initial [-1]. *)
Lemma proximity_above_Initial bounds x y :
  Overlap_gtb (proximity bounds x y) Initial = true.
Proof.
  unfold Overlap_gtb. rewrite ltb_spec.
  pose proof (proximity_signed bounds x y) as H.
  replace (Prim2SF Initial)
    with (S754_finite true 4503599627370496 (-52))
    by (vm_compute; reflexivity).
  destruct (Prim2SF (proximity bounds x y)); simpl in H;
    try contradiction; now subst.
Qed.

(** *** Binary64: the order of doubles *)

Lemma SFltb_trans a b c :
  SFltb a b = true -> SFltb b c = true -> SFltb a c = true.
Proof.
  destruct a as [[] | [] | | [] ? ?], b as [[] | [] | | [] ? ?],
           c as [[] | [] | | [] ? ?]; order_cases.
Qed.

Lemma SFleb_ltb_trans a b c :
  SFleb a b = true -> SFltb b c = true -> SFltb a c = true.
Proof.
  destruct a as [[] | [] | | [] ? ?], b as [[] | [] | | [] ? ?],
           c as [[] | [] | | [] ? ?]; order_cases.
Qed.

Lemma SFltb_leb_trans a b c :
  SFltb a b = true -> SFleb b c = true -> SFltb a c = true.
Proof.
  destruct a as [[] | [] | | [] ? ?], b as [[] | [] | | [] ? ?],
           c as [[] | [] | | [] ? ?]; order_cases.
Qed.

Lemma SFltb_irrefl a : SFltb a a = false.
Proof. destruct a as [[] | [] | | [] ? ?]; order_cases. Qed.

Lemma SFltb_total s t a b :
  signed s a -> signed t b -> SFltb a b = false -> SFleb b a = true.
Proof.
  destruct a as [[] | [] | | [] ? ?], b as [[] | [] | | [] ? ?];
    order_cases.
Qed.

Lemma ltb_trans (a b c : float) :
  (a <? b)%float = true -> (b <? c)%float = true -> (a <? c)%float = true.
Proof. rewrite !ltb_spec. apply SFltb_trans. Qed.

Lemma leb_ltb_trans (a b c : float) :
  (a <=? b)%float = true -> (b <? c)%float = true -> (a <? c)%float = true.
Proof. rewrite !ltb_spec, leb_spec. apply SFleb_ltb_trans. Qed.

Lemma ltb_leb_trans (a b c : float) :
  (a <? b)%float = true -> (b <=? c)%float = true -> (a <? c)%float = true.
Proof. rewrite !ltb_spec, leb_spec. apply SFltb_leb_trans. Qed.

Lemma ltb_irrefl (a : float) : (a <? a)%float = false.
Proof. rewrite ltb_spec. apply SFltb_irrefl. Qed.

Lemma ltb_asym (a b : float) :
  (a <? b)%float = true -> (b <? a)%float = false.
Proof.
  intros Hab. destruct (b <? a)%float eqn:Hba; [| reflexivity].
  pose proof (ltb_trans a b a Hab Hba) as H.
  now rewrite ltb_irrefl in H.
Qed.

(** Two proximities are always comparable. *)
Lemma proximity_total b1 b2 x y :
  (proximity b1 x y <? proximity b2 x y)%float = false ->
  (proximity b2 x y <=? proximity b1 x y)%float = true.
Proof.
  rewrite ltb_spec, leb_spec.
  apply (SFltb_total false false); apply proximity_signed.
Qed.

(** *** The offsets measure the distance to the rectangle *)

Lemma axis_offset lo size v (p : R) :
  (IZR lo <= p <= IZR (lo + size))%R ->
  let d := Z.max (Z.max (lo - v) 0) (v - (lo + size)) in
  (IZR d * IZR d <= (IZR v - p) * (IZR v - p))%R.
Proof.
  intros [Hlo Hhi] d.
  assert (Hd : (d = lo - v /\ 0 <= d) \/ d = 0
               \/ (d = v - (lo + size) /\ 0 <= d)) by lia.
  clearbody d. rewrite plus_IZR in Hhi.
  destruct Hd as [[-> Hpos] | [-> | [-> Hpos]]].
  - apply IZR_le in Hpos. rewrite minus_IZR in *.
    assert (H1 : (0 <= p - IZR lo)%R) by lra.
    assert (H2 : (0 <= p + IZR lo - 2 * IZR v)%R) by lra.
    pose proof (Rmult_le_pos _ _ H1 H2). nra.
  - pose proof (Rle_0_sqr (IZR v - p)) as H. unfold Rsqr in H. lra.
  - apply IZR_le in Hpos. rewrite minus_IZR, plus_IZR in *.
    assert (H1 : (0 <= IZR lo + IZR size - p)%R) by lra.
    assert (H2 : (0 <= 2 * IZR v - p - (IZR lo + IZR size))%R) by lra.
    pose proof (Rmult_le_pos _ _ H1 H2). nra.
Qed.

Lemma axis_offset_attained lo size v :
  0 <= size ->
  let d := Z.max (Z.max (lo - v) 0) (v - (lo + size)) in
  let p := Z.max lo (Z.min v (lo + size)) in
  lo <= p <= lo + size /\ d * d = (v - p) * (v - p).
Proof.
  intros Hsize d p. split; [lia |].
  assert (Hd : d = v - p \/ d = p - v) by lia.
  destruct Hd as [-> | ->]; ring.
Qed.

Lemma offsets_measure_rectangle bounds x y :
  0 <= b_width bounds -> 0 <= b_height bounds ->
  distanceToRectangle2 bounds x y
    (dx bounds x * dx bounds x + dy bounds y * dy bounds y).
Proof.
  intros Hw Hh. split.
  - destruct (axis_offset_attained (b_x bounds) (b_width bounds) x Hw)
      as [Hpx Hdx].
    destruct (axis_offset_attained (b_y bounds) (b_height bounds) y Hh)
      as [Hpy Hdy].
    exists (Z.max (b_x bounds) (Z.min x (b_x bounds + b_width bounds))),
           (Z.max (b_y bounds) (Z.min y (b_y bounds + b_height bounds))).
    split.
    + split; split; apply IZR_le; lia.
    + unfold dx, dy. now rewrite Hdx, Hdy.
  - intros px py [Hx Hy].
    pose proof (axis_offset (b_x bounds) (b_width bounds) x px Hx) as Hdx.
    pose proof (axis_offset (b_y bounds) (b_height bounds) y py Hy) as Hdy.
    simpl in Hdx, Hdy.
    rewrite plus_IZR, !mult_IZR. unfold dx, dy. lra.
Qed.

(** *** The loop *)

Section PointerLoop.
Variables x y : Z.

Let outside (kb : ScreenId * DisplayBounds) : Prop :=
  inside (snd kb) x y = false.

Lemma pointerLoop_inside pre id b post bestMatch bestOverlap :
  Forall outside pre -> inside b x y = true ->
  pointerLoop (pre ++ (id, b) :: post) x y bestMatch bestOverlap = Some id.
Proof.
  intros Hpre Hin. revert bestMatch bestOverlap.
  induction Hpre as [| [k b0] pre Hout _ IH]; intros bm bo; simpl.
  - now rewrite Hin.
  - unfold outside in Hout. simpl in Hout. rewrite Hout.
    destruct (Overlap_gtb (proximity b0 x y) bo); apply IH.
Qed.

Lemma pointerLoop_keep entries bestMatch bestOverlap :
  Forall outside entries ->
  Forall (fun kb => Overlap_gtb (proximity (snd kb) x y) bestOverlap
                    = false) entries ->
  pointerLoop entries x y bestMatch bestOverlap = bestMatch.
Proof.
  intros Hout Hfar.
  induction entries as [| [k b0] rest IH]; simpl; [reflexivity |].
  inversion Hout as [| ? ? Ho Hout']; subst.
  inversion Hfar as [| ? ? Hf Hfar']; subst.
  unfold outside in Ho. simpl in Ho, Hf. rewrite Ho, Hf.
  now apply IH.
Qed.

Lemma pointerLoop_nearest pre id b post bestMatch bestOverlap :
  Forall outside (pre ++ (id, b) :: post) ->
  Forall (fun kb => (proximity (snd kb) x y <? proximity b x y)%float
                    = true) pre ->
  Forall (fun kb => (proximity b x y <? proximity (snd kb) x y)%float
                    = false) post ->
  Overlap_gtb (proximity b x y) bestOverlap = true ->
  pointerLoop (pre ++ (id, b) :: post) x y bestMatch bestOverlap = Some id.
Proof.
  intros Hout Hpre Hpost. revert bestMatch bestOverlap.
  induction pre as [| [k b0] pre IH]; intros bm bo Hgt; simpl.
  - inversion Hout as [| ? ? Ho Hout']; subst.
    unfold outside in Ho. simpl in Ho. rewrite Ho, Hgt.
    now apply pointerLoop_keep.
  - inversion Hout as [| ? ? Ho Hout']; subst.
    inversion Hpre as [| ? ? Hp Hpre']; subst.
    unfold outside in Ho. simpl in Ho, Hp. rewrite Ho.
    destruct (Overlap_gtb (proximity b0 x y) bo).
    + now apply IH.
    + now apply IH.
Qed.

Lemma pointerLoop_found entries id bestOverlap :
  pointerLoop entries x y (Some id) bestOverlap <> None.
Proof.
  revert id bestOverlap.
  induction entries as [| [k b0] rest IH]; intros id bo; simpl.
  - discriminate.
  - destruct (inside b0 x y); [discriminate |].
    destruct (Overlap_gtb (proximity b0 x y) bo); apply IH.
Qed.

Lemma pointerLoop_none entries :
  pointerLoop entries x y None Initial = None <-> entries = [].
Proof.
  split; [| now intros ->].
  destruct entries as [| [k b0] rest]; [reflexivity |]. simpl.
  destruct (inside b0 x y); [discriminate |].
  rewrite proximity_above_Initial.
  intros H. now apply pointerLoop_found in H.
Qed.

(** A non-empty list has a first entry of the highest proximity. *)
Lemma nearest_exists (entries : Js.Map DisplayBounds) :
  entries <> [] ->
  exists pre id b post,
    entries = pre ++ (id, b) :: post
    /\ Forall (fun kb => (proximity (snd kb) x y <? proximity b x y)%float
                         = true) pre
    /\ Forall (fun kb => (proximity b x y <? proximity (snd kb) x y)%float
                         = false) post.
Proof.
  induction entries as [| [k b0] rest IH]; [congruence |]. intros _.
  destruct rest as [| kb rest'].
  - exists [], k, b0, []. repeat split; constructor.
  - destruct IH as [pre [id [b [post [Hsplit [Hpre Hpost]]]]]];
      [discriminate |].
    destruct (proximity b0 x y <? proximity b x y)%float eqn:Hcmp.
    + exists ((k, b0) :: pre), id, b, post. repeat split.
      * simpl. now rewrite Hsplit.
      * constructor; [exact Hcmp | exact Hpre].
      * exact Hpost.
    + apply proximity_total in Hcmp.
      exists [], k, b0, (kb :: rest'). repeat split; [constructor |].
      rewrite Hsplit. apply Forall_app. split; [| constructor].
      * eapply Forall_impl; [| exact Hpre]. simpl. intros a Ha.
        apply ltb_asym. now apply (ltb_leb_trans _ (proximity b x y)).
      * simpl.
        destruct (proximity b0 x y <? proximity b x y)%float eqn:Hlt;
          [| reflexivity].
        pose proof (leb_ltb_trans _ _ _ Hcmp Hlt) as H.
        now rewrite ltb_irrefl in H.
      * eapply Forall_impl; [| exact Hpost]. simpl. intros a Ha.
        destruct (proximity b0 x y <? proximity (snd a) x y)%float eqn:Hlt;
          [| reflexivity].
        pose proof (leb_ltb_trans _ _ _ Hcmp Hlt) as H. congruence.
Qed.

(** A list with an entry containing the point has a first such entry. *)
Lemma first_inside_exists (entries : Js.Map DisplayBounds) :
  (exists kb, In kb entries /\ inside (snd kb) x y = true) ->
  exists pre id b post,
    entries = pre ++ (id, b) :: post
    /\ Forall outside pre /\ inside b x y = true.
Proof.
  induction entries as [| [k b0] rest IH]; intros [kb [Hin Hkb]].
  - destruct Hin.
  - destruct (inside b0 x y) eqn:Hb0.
    + exists [], k, b0, rest. repeat split; [constructor | exact Hb0].
    + destruct IH as [pre [id [b [post [Hsplit [Hpre Hb]]]]]].
      { exists kb. split; [| exact Hkb].
        destruct Hin as [<- | Hin]; [| exact Hin].
        simpl in Hkb. congruence. }
      exists ((k, b0) :: pre), id, b, post. repeat split.
      * simpl. now rewrite Hsplit.
      * constructor; [exact Hb0 | exact Hpre].
      * exact Hb.
Qed.

End PointerLoop.

(** *** Keys of the bounds map *)

Lemma has_In {V : Type} (m : Js.Map V) k :
  Js.has m k = true <-> In k (map fst m).
Proof.
  induction m as [| [k' v'] m IH]; simpl.
  - split; [discriminate | contradiction].
  - destruct (String.eqb_spec k' k) as [-> | Hne].
    + split; auto.
    + rewrite IH. split; [now right | intros [H | H]; [contradiction | exact H]].
Qed.

Lemma set_keys {V : Type} (m : Js.Map V) k v :
  map fst (Js.set m k v)
  = if Js.has m k then map fst m else map fst m ++ [k].
Proof.
  induction m as [| [k' v'] m IH]; simpl; [reflexivity |].
  destruct (String.eqb k' k); simpl; [reflexivity |].
  rewrite IH. now destruct (Js.has m k).
Qed.

Lemma set_NoDup {V : Type} (m : Js.Map V) k v :
  NoDup (map fst m) -> NoDup (map fst (Js.set m k v)).
Proof.
  intros Hm. rewrite set_keys.
  destruct (Js.has m k) eqn:Hk; [exact Hm |].
  apply NoDup_app; [exact Hm | repeat constructor; intros [] |].
  intros a Ha [<- | []].
  apply has_In in Ha. congruence.
Qed.

Lemma of_entries_NoDup {V : Type} (entries : list (string * V)) :
  NoDup (map fst (Js.of_entries entries)).
Proof.
  unfold Js.of_entries.
  assert (H : forall m : Js.Map V,
             NoDup (map fst m) ->
             NoDup (map fst (fold_left
                               (fun m kv => Js.set m (fst kv) (snd kv))
                               entries m))).
  { induction entries as [| kv entries IH]; intros m Hm; simpl.
    - exact Hm.
    - apply IH. now apply set_NoDup. }
  apply H. constructor.
Qed.

Lemma NoDup_keys_value {V : Type} (m : Js.Map V) k v v' :
  NoDup (map fst m) -> In (k, v) m -> In (k, v') m -> v = v'.
Proof.
  induction m as [| [k0 v0] m IH]; simpl; intros Hnd Hv Hv'.
  - contradiction.
  - inversion Hnd as [| ? ? Hnotin Hnd']; subst.
    destruct Hv as [Hv | Hv]; destruct Hv' as [Hv' | Hv'].
    + congruence.
    + injection Hv as <- <-. exfalso. apply Hnotin.
      now apply (in_map fst) in Hv'.
    + injection Hv' as <- <-. exfalso. apply Hnotin.
      now apply (in_map fst) in Hv.
    + now apply IH.
Qed.

(** C7 (as amended).  For a signal with no known pre-attributed screenId
    and no applicable windowDisplayId, attribution on (x, y)

    - returns the first display, in iteration order of the bounds map,
      whose half-open rectangle [x, x+w) × [y, y+h) contains the point,
      when one does;
    - otherwise, on a non-empty map, returns the display with the highest
      proximity 1 / (1 + euclidean distance to the rectangle), the first
      one in iteration order among equals: every earlier display has a
      strictly lower proximity and no later one a higher;
    - returns none exactly when the bounds map is empty.

    A point at exactly x = bounds.x + width is not contained in that
    display, and is not attributed to it when some display contains the
    point; when none does, the display can still be returned by proximity
    (its horizontal distance to the point is zero).

    The proximities compared are the doubles the engine computes:
    [dx * dx + dy * dy] is the square of the euclidean distance to the
    rectangle, and the square, the sum, the root, [1 + dist] and the
    quotient are each rounded to binary64.  Displays at different
    distances can therefore have equal proximities, and the first one is
    returned: at (60000100, 101) the display F, whose squared distance
    is 3600000000000001, is preferred to G at 3600000000000000. *)
Theorem pointer_attribution
  (e : FocusAlgorithm) (ds : list DisplayBounds) (signal : IntentSignal) :
  displays e = Map_of_displays ds ->
  directScreen e signal = None ->
  let x := s_x signal in
  let y := s_y signal in
  let result := attributeToScreen e signal in
  let outside := fun kb : ScreenId * DisplayBounds =>
                   inside (snd kb) x y = false in
  ((exists kb, In kb (displays e) /\ inside (snd kb) x y = true) ->
   exists pre id b post,
     displays e = pre ++ (id, b) :: post
     /\ result = Some id
     /\ inside b x y = true /\ Forall outside pre)
  /\ (Forall outside (displays e) -> displays e <> [] ->
      exists pre id b post,
        displays e = pre ++ (id, b) :: post
        /\ result = Some id
        /\ Forall (fun kb => (proximity (snd kb) x y
                              <? proximity b x y)%float = true) pre
        /\ Forall (fun kb => (proximity b x y
                              <? proximity (snd kb) x y)%float = false) post)
  /\ (result = None <-> displays e = [])
  /\ (forall id b,
        In (id, b) (displays e) -> x = b_x b + b_width b ->
        inside b x y = false
        /\ ((exists kb, In kb (displays e) /\ inside (snd kb) x y = true) ->
            result <> Some id))
  /\ (forall b,
        proximity b x y
        = (1 / (1 + PrimFloat.sqrt
                      (Js.number (dx b x) * Js.number (dx b x)
                       + Js.number (dy b y) * Js.number (dy b y))))%float
        /\ (0 <= b_width b -> 0 <= b_height b ->
            distanceToRectangle2 b x y
              (dx b x * dx b x + dy b y * dy b y)))
  /\ (let far := mkIntentSignal Click "" 60000100 101 0 None None in
      attributeToScreen (new_engine "s" [farLeft; farRight] emptyPartial) far
      = Some "F"%string
      /\ dx farRight 60000100 * dx farRight 60000100
         + dy farRight 101 * dy farRight 101
         < dx farLeft 60000100 * dx farLeft 60000100
           + dy farLeft 101 * dy farLeft 101
      /\ proximity farLeft 60000100 101 = proximity farRight 60000100 101).
Proof.
  intros Hmap Hdirect x y result outside.
  assert (Hresult : result = pointerLoop (displays e) x y None Initial).
  { unfold result, attributeToScreen. now rewrite Hdirect. }
  assert (Hfirst :
            (exists kb, In kb (displays e) /\ inside (snd kb) x y = true) ->
            exists pre id b post,
              displays e = pre ++ (id, b) :: post
              /\ result = Some id
              /\ inside b x y = true /\ Forall outside pre).
  { intros Hex.
    destruct (first_inside_exists x y (displays e) Hex)
      as [pre [id [b [post [Hsplit [Hpre Hb]]]]]].
    exists pre, id, b, post. repeat split; try assumption.
    rewrite Hresult, Hsplit. now apply pointerLoop_inside. }
  split; [exact Hfirst |]. split; [| split; [| split; [| split]]].
  - intros Hout Hne.
    destruct (nearest_exists x y (displays e) Hne)
      as [pre [id [b [post [Hsplit [Hpre Hpost]]]]]].
    exists pre, id, b, post. repeat split; try assumption.
    rewrite Hresult, Hsplit. rewrite Hsplit in Hout.
    apply pointerLoop_nearest; try assumption.
    apply proximity_above_Initial.
  - rewrite Hresult. apply pointerLoop_none.
  - intros id b Hin Hedge.
    assert (Hb : inside b x y = false).
    { unfold inside. destruct (Z.ltb_spec x (b_x b + b_width b)); [lia |].
      now rewrite andb_false_r. }
    split; [exact Hb |].
    intros Hex Hres.
    destruct (Hfirst Hex) as [pre [id' [b' [post [Hsplit [Hr [Hb' _]]]]]]].
    rewrite Hres in Hr. injection Hr as <-.
    assert (Hin' : In (id, b') (displays e))
      by (rewrite Hsplit; apply in_elt).
    assert (Heq : b = b').
    { apply (NoDup_keys_value (displays e) id); try assumption.
      rewrite Hmap. apply of_entries_NoDup. }
    congruence.
  - intros b. split; [reflexivity |].
    apply offsets_measure_rectangle.
  - repeat split; vm_compute; reflexivity.
Qed.

(** [pointer_attribution] applies to an untagged click at (3840, 540) on
    the scenario engine. *)
Lemma pointer_attribution_witness :
  let signal := mkIntentSignal Click "" 3840 540 1000 None None in
  (displays scenarioEngine = Map_of_displays [D1; D2; D3]
   /\ directScreen scenarioEngine signal = None)
  /\ (attributeToScreen scenarioEngine signal = None
      <-> displays scenarioEngine = []).
Proof.
  intros signal.
  split; [split; reflexivity |].
  exact (proj1 (proj2 (proj2 (pointer_attribution
                                scenarioEngine [D1; D2; D3] signal
                                eq_refl eq_refl)))).
Defined.

(** C7 (as stated) fails: D2 spans x in [1920, 3840) and D3 starts at
    4480; the point (3840, 540) lies at exactly D2.x + D2.width, no
    display contains it, and it is attributed to D2. *)
Lemma right_edge_point_attributed_by_proximity :
  let signal := mkIntentSignal Click "" 3840 540 1000 None None in
  directScreen scenarioEngine signal = None
  /\ In ("D2"%string, D2) (displays scenarioEngine)
  /\ s_x signal = b_x D2 + b_width D2
  /\ inside D2 (s_x signal) (s_y signal) = false
  /\ attributeToScreen scenarioEngine signal = Some "D2"%string.
Proof.
  repeat split; try (vm_compute; reflexivity).
  simpl. right. left. reflexivity.
Qed.

(* ------------------------------------------------------------------ *)
(** ** Attribution returns known screens *)

Lemma pointerLoop_key entries x y bestMatch bestOverlap id :
  pointerLoop entries x y bestMatch bestOverlap = Some id ->
  bestMatch = Some id \/ In id (map fst entries).
Proof.
  revert bestMatch bestOverlap.
  induction entries as [| [k b0] rest IH]; intros bm bo; simpl.
  - now left.
  - destruct (inside b0 x y).
    + intros [= ->]. right. now left.
    + destruct (Overlap_gtb (proximity b0 x y) bo); intros H;
        apply IH in H as [H | H].
      * injection H as ->. right. now left.
      * right. now right.
      * now left.
      * right. now right.
Qed.

Lemma attributeToScreen_key (e : FocusAlgorithm) (signal : IntentSignal)
  (id : ScreenId) :
  attributeToScreen e signal = Some id -> Js.has (displays e) id = true.
Proof.
  unfold attributeToScreen, directScreen.
  destruct (Js.truthy (Some (s_screenId signal))
            && Js.has (displays e) (s_screenId signal)) eqn:Htag.
  - intros [= <-]. now apply andb_true_iff in Htag.
  - destruct (s_windowDisplayId signal) as [w |].
    + destruct (SignalType_eqb (s_type signal) WindowFocus
                && Js.truthy (Some w) && Js.has (displays e) w) eqn:Hwin.
      * intros [= <-]. now apply andb_true_iff in Hwin.
      * intros H. apply pointerLoop_key in H as [H | H]; [discriminate |].
        now apply has_In.
    + intros H. apply pointerLoop_key in H as [H | H]; [discriminate |].
      now apply has_In.
Qed.

(** X1.  Whatever path attribution takes (the signal's own tag, the
    window's display, or the pointer coordinates), a screen it returns is
    a key of the engine's bounds map. *)
Theorem attributeToScreen_known (e : FocusAlgorithm) (signal : IntentSignal)
  (id : ScreenId) :
  attributeToScreen e signal = Some id -> Js.has (displays e) id = true.
Proof. exact (attributeToScreen_key e signal id). Qed.

(** [attributeToScreen_known] on a tagged click of the scenario. *)
Lemma attributeToScreen_known_witness :
  attributeToScreen scenarioEngine (makeSignal Click "D2" 1000)
  = Some "D2"%string
  /\ Js.has (displays scenarioEngine) "D2" = true.
Proof.
  split; [reflexivity |].
  exact (attributeToScreen_known scenarioEngine
           (makeSignal Click "D2" 1000) "D2"%string eq_refl).
Defined.

(* ------------------------------------------------------------------ *)
(** ** How [processSignal] comes to emit a focus change *)

Lemma trackActivity_frozen e t now :
  frozen (state (trackActivity e t now)) = frozen (state e).
Proof. unfold trackActivity. now destruct (isActivitySignal t). Qed.

Lemma trackActivity_autoEnabled e t now :
  autoEnabled (state (trackActivity e t now)) = autoEnabled (state e).
Proof. unfold trackActivity. now destruct (isActivitySignal t). Qed.

Lemma trackActivity_config e t now :
  config (trackActivity e t now) = config e.
Proof. unfold trackActivity. now destruct (isActivitySignal t). Qed.

Lemma cooldownPenalty_config e signal now c :
  config (snd (cooldownPenalty e signal now c)) = config e.
Proof. unfold cooldownPenalty. now break_branch. Qed.

Lemma trackCandidate_config e cand now :
  config (trackCandidate e cand now) = config e.
Proof. unfold trackCandidate. now break_branch. Qed.

Lemma trackCandidate_activeScreenId e cand now :
  activeScreenId (state (trackCandidate e cand now))
  = activeScreenId (state e).
Proof. unfold trackCandidate. now break_branch. Qed.

(** A focus change comes out of [processSignal] in two ways only: the
    pending manual override is applied, or the whole pipeline was passed
    (auto mode, attribution, idle check, dwell gate, switch threshold). *)
Lemma processSignal_switch_inv clock e signal ev :
  In (FocusChange ev) (snd (processSignal clock e signal)) ->
  let now := s_timestampMs signal in
  let e1 :=
    trackActivity (countSignal e (s_type signal)) (s_type signal) now in
  (exists S,
      manualOverride (state e) = Some S
      /\ activeScreenId (state e) <> Some S
      /\ processSignal clock e signal = setActive e1 S Manual 1.0 now)
  \/ (exists cand,
         manualOverride (state e) = None
         /\ frozen (state e) = false /\ autoEnabled (state e) = true
         /\ attributeToScreen e signal = Some cand
         /\ isIdle e1 now = false
         /\ let cp := cooldownPenalty e1 signal now
                        (computeConfidence e1 signal cand now) in
            let e3 := trackCandidate (snd cp) cand now in
            getDwellMs e (s_type signal) <= now - candidateSinceTs (state e3)
            /\ activeScreenId (state e) <> Some cand
            /\ (switchThreshold (config e) <=? fst cp)%float = true
            /\ processSignal clock e signal
               = setActive e3 cand (s_type signal) (fst cp) now).
Proof.
  intros Hin now e1. revert Hin.
  assert (Hact : activeScreenId (state e1) = activeScreenId (state e))
    by (unfold e1; now rewrite trackActivity_activeScreenId).
  assert (Hman : manualOverride (state e1) = manualOverride (state e))
    by (unfold e1; now rewrite trackActivity_manualOverride).
  assert (Hfro : frozen (state e1) = frozen (state e))
    by (unfold e1; now rewrite trackActivity_frozen).
  assert (Haut : autoEnabled (state e1) = autoEnabled (state e))
    by (unfold e1; now rewrite trackActivity_autoEnabled).
  assert (Hcfg : config e1 = config e)
    by (unfold e1; now rewrite trackActivity_config).
  assert (Hatt : attributeToScreen e1 signal = attributeToScreen e signal).
  { apply attributeToScreen_displays. unfold e1.
    now rewrite trackActivity_displays. }
  unfold processSignal. fold now. fold e1.
  rewrite Hfro, Haut, Hman, Hatt.
  destruct (frozen (state e)); [now intros ? |].
  destruct (autoEnabled (state e)); cbn [negb]; [| now intros ?].
  destruct (manualOverride (state e)) as [S |].
  { destruct (negb (Js.strict_eq (activeScreenId (state e1)) (Some S)))
      eqn:Hneq; [| now intros ?].
    intros _. left. exists S.
    apply negb_true_iff, strict_eq_false in Hneq. rewrite Hact in Hneq.
    now repeat split. }
  destruct (attributeToScreen e signal) as [cand |]; [| now intros ?].
  destruct (isIdle e1 now) eqn:Hidle; [now intros ? |].
  destruct (cooldownPenalty e1 signal now
              (computeConfidence e1 signal cand now)) as [conf e2] eqn:Hcp.
  assert (Hcfg2 : config e2 = config e).
  { rewrite <- Hcfg. change e2 with (snd (conf, e2)). rewrite <- Hcp.
    apply cooldownPenalty_config. }
  assert (Hact2 : activeScreenId (state e2) = activeScreenId (state e)).
  { rewrite <- Hact. change e2 with (snd (conf, e2)). rewrite <- Hcp.
    now rewrite cooldownPenalty_state. }
  set (e3 := trackCandidate e2 cand now).
  assert (Hdwell : getDwellMs e3 (s_type signal)
                   = getDwellMs e (s_type signal)).
  { unfold getDwellMs, e3. now rewrite trackCandidate_config, Hcfg2. }
  assert (Hact3 : activeScreenId (state e3) = activeScreenId (state e))
    by (unfold e3; now rewrite trackCandidate_activeScreenId).
  assert (Hcfg3 : config e3 = config e)
    by (unfold e3; now rewrite trackCandidate_config).
  rewrite Hdwell, Hact3, Hcfg3.
  destruct (Z.ltb_spec (now - candidateSinceTs (state e3))
                       (getDwellMs e (s_type signal))) as [Hlt | Hge];
    [now intros ? |].
  destruct (negb (Js.strict_eq (Some cand) (activeScreenId (state e))))
    eqn:Hneq.
  - destruct (switchThreshold (config e) <=? conf)%float eqn:Hthr;
      [| now intros ?].
    intros _. right. exists cand.
    apply negb_true_iff, strict_eq_false_l in Hneq.
    rewrite Hcp. simpl. fold e3. now repeat split.
  - destruct (stayThreshold (config e) <=? conf)%float; [| now intros ?].
    simpl. intros [H | H]; [discriminate H | contradiction].
Qed.

(** X2.  An automatic focus change is explainable from the signal that
    caused it: when no manual override is set, a FocusChangeEvent emitted
    by [processSignal] carries the signal's type as reason and the
    signal's timestamp, names the screen the signal was attributed to (a
    key of the bounds map, different from the screen that was active),
    reports a dwell of at least the dwell threshold of the signal's
    type, and it is the only thing emitted. *)
Theorem automatic_switch_explained
  (clock : Z) (e : FocusAlgorithm) (signal : IntentSignal)
  (ev : FocusChangeEvent) :
  manualOverride (state e) = None ->
  In (FocusChange ev) (snd (processSignal clock e signal)) ->
  snd (processSignal clock e signal) = [FocusChange ev]
  /\ e_reason ev = s_type signal
  /\ e_timestampMs ev = s_timestampMs signal
  /\ attributeToScreen e signal = Some (e_screenId ev)
  /\ Js.has (displays e) (e_screenId ev) = true
  /\ activeScreenId (state e) <> Some (e_screenId ev)
  /\ getDwellMs e (s_type signal) <= e_dwellMs ev
  /\ e_sessionId ev = sessionId e.
Proof.
  intros Hnone Hin.
  destruct (processSignal_switch_inv clock e signal ev Hin)
    as [[S [Hs _]] | [cand [_ [_ [_ [Hatt [_ H]]]]]]]; [congruence |].
  simpl in H. destruct H as [Hdwell [Hact [_ Heq]]].
  rewrite Heq in Hin |- *. simpl in Hin. destruct Hin as [[= <-] | []].
  simpl. repeat split; try assumption.
  - now apply attributeToScreen_key in Hatt.
  - unfold trackCandidate, cooldownPenalty, trackActivity.
    repeat break_branch; reflexivity.
Qed.

(** [automatic_switch_explained] on the second click of the scenario. *)
Lemma automatic_switch_explained_witness :
  let primed :=
    fst (processSignal 0 scenarioEngine (makeSignal Click "D2" 1000)) in
  let signal := makeSignal Click "D2" 1400 in
  manualOverride (state primed) = None
  /\ exists ev,
       In (FocusChange ev) (snd (processSignal 0 primed signal))
       /\ e_reason ev = Click /\ 300 <= e_dwellMs ev.
Proof.
  intros primed signal. split; [reflexivity |].
  eexists. split; [left; reflexivity |].
  pose proof (automatic_switch_explained 0 primed signal _ eq_refl
                (or_introl eq_refl)) as H.
  split; [exact (proj1 (proj2 H)) |].
  exact (proj1 (proj2 (proj2 (proj2 (proj2 (proj2 (proj2 H))))))).
Defined.

(* ------------------------------------------------------------------ *)
(** ** The shape of a call *)

(** Every [processSignal] call either emits no focus change and leaves
    the active screen, the sequence counter, [lastSwitchTs] and
    [focusChanges] alone, or emits exactly one focus change and nothing
    else.  Mode flags, override, configuration and displays are never
    touched. *)
Lemma processSignal_shape clock e signal :
  let r := processSignal clock e signal in
  (manualOverride (state (fst r)) = manualOverride (state e)
   /\ frozen (state (fst r)) = frozen (state e)
   /\ autoEnabled (state (fst r)) = autoEnabled (state e)
   /\ config (fst r) = config e /\ displays (fst r) = displays e
   /\ sessionId (fst r) = sessionId e)
  /\ ((focusChangeEvents (snd r) = [] /\ unswitched e (fst r))
      \/ exists ev, snd r = [FocusChange ev]
                    /\ switched e (fst r) ev (s_timestampMs signal)).
Proof.
  unfold processSignal, trackActivity, countSignal, cooldownPenalty,
    trackCandidate, setActive, emitFocusStateRefresh, unswitched, switched.
  repeat break_branch; simpl;
    (split; [now repeat split |]);
    first [ left; now repeat split
          | right; eexists; split; [reflexivity |]; now repeat split ].
Qed.

Lemma handlePresenterControl_shape clock e control :
  let r := handlePresenterControl clock e control in
  (config (fst r) = config e /\ displays (fst r) = displays e
   /\ sessionId (fst r) = sessionId e)
  /\ ((focusChangeEvents (snd r) = [] /\ unswitched e (fst r))
      \/ exists ev, snd r = [FocusChange ev]
                    /\ switched e (fst r) ev (c_timestampMs control)).
Proof.
  unfold handlePresenterControl, setActive, emitFocusStateRefresh,
    unswitched, switched.
  repeat break_branch; simpl;
    (split; [now repeat split |]);
    first [ left; now repeat split
          | right; eexists; split; [reflexivity |]; now repeat split ].
Qed.

(* ------------------------------------------------------------------ *)
(** ** Manual override and freeze win *)

Lemma processSignal_pinned clock e signal :
  pinned e -> pinned (fst (processSignal clock e signal)).
Proof.
  intros Hp S.
  destruct (processSignal_shape clock e signal)
    as [[Hman _] [[_ [Hact _]] | [ev [Hout Hsw]]]].
  - rewrite Hman, Hact. apply Hp.
  - rewrite Hman. intros HS.
    assert (Hin : In (FocusChange ev) (snd (processSignal clock e signal)))
      by (rewrite Hout; now left).
    destruct (processSignal_switch_inv clock e signal ev Hin)
      as [[S' [HS' [_ Heq]]] | [cand [Hnone _]]]; [| congruence].
    rewrite Heq. simpl. congruence.
Qed.

Lemma handlePresenterControl_pinned clock e control :
  pinned e -> pinned (fst (handlePresenterControl clock e control)).
Proof.
  unfold pinned, handlePresenterControl, setActive, emitFocusStateRefresh.
  intros Hp S. repeat break_branch; simpl; try apply Hp; congruence.
Qed.

Lemma run_pinned calls : forall e, pinned e -> pinned (fst (run e calls)).
Proof.
  induction calls as [| c rest IH]; intros e Hp; simpl; [exact Hp |].
  destruct (call e c) as [e1 out1] eqn:Hcall.
  assert (H1 : pinned e1).
  { change e1 with (fst (e1, out1)). rewrite <- Hcall.
    destruct c; simpl.
    - now apply processSignal_pinned.
    - now apply handlePresenterControl_pinned.
    - exact Hp. }
  specialize (IH e1 H1). now destruct (run e1 rest).
Qed.

(** X3.  In every session (an engine built by the constructor, then any
    calls), while a manual override S is set the active screen is S; a
    further [processSignal] call then leaves the active screen at S and
    emits no focus change, whatever the signal. *)
Theorem manual_override_pins_active
  (sid : string) (ds : list DisplayBounds) (cfg : PartialFocusConfig)
  (calls : list Call) (S : ScreenId) :
  let e := fst (run (new_engine sid ds cfg) calls) in
  manualOverride (state e) = Some S ->
  activeScreenId (state e) = Some S
  /\ forall clock signal,
       activeScreenId (state (fst (processSignal clock e signal))) = Some S
       /\ manualOverride (state (fst (processSignal clock e signal)))
          = Some S
       /\ focusChangeEvents (snd (processSignal clock e signal)) = [].
Proof.
  intros e HS.
  assert (Hp : pinned e) by (apply run_pinned; intros S'; discriminate).
  split; [now apply Hp |].
  intros clock signal.
  pose proof (processSignal_pinned clock e signal Hp) as Hp'.
  destruct (processSignal_shape clock e signal)
    as [[Hman _] [[Hnone _] | [ev [Hout _]]]].
  - rewrite Hman. repeat split; try assumption. apply Hp'. congruence.
  - exfalso.
    assert (Hin : In (FocusChange ev) (snd (processSignal clock e signal)))
      by (rewrite Hout; now left).
    destruct (processSignal_switch_inv clock e signal ev Hin)
      as [[S' [HS' [Hne _]]] | [cand [Hnone _]]]; [| congruence].
    apply Hne. apply Hp. exact HS'.
Qed.

(** [manual_override_pins_active] after a manual selection of D3. *)
Lemma manual_override_pins_active_witness :
  let calls :=
    [ProcessSignal 0 (makeSignal Click "D2" 1000);
     HandlePresenterControl 0
       (mkPresenterControl ManualSelect (Some "D3"%string) 1100)] in
  let e := fst (run (new_engine "test" [D1; D2; D3] emptyPartial) calls) in
  manualOverride (state e) = Some "D3"%string
  /\ activeScreenId
       (state (fst (processSignal 0 e (makeSignal Click "D2" 1400))))
     = Some "D3"%string.
Proof.
  intros calls e. split; [reflexivity |].
  exact (proj1 (proj2 (manual_override_pins_active
                         "test" [D1; D2; D3] emptyPartial calls "D3"%string
                         eq_refl)
                 0 (makeSignal Click "D2" 1400))).
Defined.

(** While frozen or with auto-focus off, a signal is counted and its
    activity recorded, and nothing else happens. *)
Lemma processSignal_blocked clock e signal :
  frozen (state e) = true \/ autoEnabled (state e) = false ->
  processSignal clock e signal
  = (trackActivity (countSignal e (s_type signal))
                   (s_type signal) (s_timestampMs signal), []).
Proof.
  intros H. unfold processSignal.
  rewrite trackActivity_frozen, trackActivity_autoEnabled.
  rewrite !countSignal_state.
  destruct H as [-> | ->]; [reflexivity |].
  now destruct (frozen (state e)).
Qed.

Lemma run_blocked calls :
  forall e,
    forallb isSignalCall calls = true ->
    frozen (state e) = true \/ autoEnabled (state e) = false ->
    snd (run e calls) = []
    /\ set_lastActivityTs (state (fst (run e calls)))
                          (lastActivityTs (state e)) = state e
    /\ set_signalCounts (metrics (fst (run e calls)))
                        (signalCounts (metrics e)) = metrics e
    /\ displays (fst (run e calls)) = displays e
    /\ config (fst (run e calls)) = config e.
Proof.
  induction calls as [| c rest IH]; intros e Hsig Hblock; simpl.
  - destruct e as [st cf dp sid mt]; destruct st; destruct mt.
    now repeat split.
  - simpl in Hsig. apply andb_true_iff in Hsig as [Hc Hrest].
    destruct c as [clock signal | |]; try discriminate Hc. simpl.
    rewrite (processSignal_blocked clock e signal Hblock).
    set (e1 := trackActivity (countSignal e (s_type signal))
                             (s_type signal) (s_timestampMs signal)).
    assert (Hblock1 : frozen (state e1) = true
                      \/ autoEnabled (state e1) = false).
    { unfold e1.
      now rewrite trackActivity_frozen, trackActivity_autoEnabled. }
    destruct (IH e1 Hrest Hblock1) as [Hout [Hst [Hmt [Hdp Hcf]]]].
    destruct (run e1 rest) as [e2 out2]. simpl in *.
    split; [exact Hout |].
    unfold e1, trackActivity in Hst, Hmt, Hdp, Hcf.
    destruct e as [st cf dp sid mt]; destruct st; destruct mt.
    destruct e2 as [st2 cf2 dp2 sid2 mt2]; destruct st2; destruct mt2.
    destruct (isActivitySignal (s_type signal));
      simpl in *; unfold set_lastActivityTs, set_signalCounts in *;
      simpl in *; repeat split; congruence.
Qed.

(** X4.  While the engine is frozen, or auto-focus is off, signals
    change nothing that matters for focus: any sequence of
    [processSignal] calls emits nothing at all, and leaves every state
    field except [lastActivityTs] (active screen, candidate, dwell timer,
    sequence, ...) and every counter except [signalCounts] as they
    were. *)
Theorem blocked_signals_are_silent
  (e : FocusAlgorithm) (calls : list Call) :
  forallb isSignalCall calls = true ->
  frozen (state e) = true \/ autoEnabled (state e) = false ->
  let e' := fst (run e calls) in
  snd (run e calls) = []
  /\ set_lastActivityTs (state e') (lastActivityTs (state e)) = state e
  /\ set_signalCounts (metrics e') (signalCounts (metrics e)) = metrics e
  /\ activeScreenId (state e') = activeScreenId (state e)
  /\ candidateScreenId (state e') = candidateScreenId (state e)
  /\ candidateSinceTs (state e') = candidateSinceTs (state e).
Proof.
  intros Hsig Hblock e'.
  destruct (run_blocked calls e Hsig Hblock) as [Hout [Hst [Hmt _]]].
  fold e' in Hst, Hmt.
  split; [exact Hout |]. split; [exact Hst |]. split; [exact Hmt |].
  rewrite <- Hst. now repeat split.
Qed.

(** [blocked_signals_are_silent] on the scenario engine after a freeze:
    the two clicks that would switch to D2 do nothing. *)
Lemma blocked_signals_are_silent_witness :
  let e :=
    fst (handlePresenterControl 0 scenarioEngine
           (mkPresenterControl ToggleFreeze None 500)) in
  let calls :=
    [ProcessSignal 0 (makeSignal Click "D2" 1000);
     ProcessSignal 0 (makeSignal Click "D2" 1400)] in
  (forallb isSignalCall calls = true /\ frozen (state e) = true)
  /\ snd (run e calls) = []
  /\ activeScreenId (state (fst (run e calls))) = Some "D1"%string.
Proof.
  intros e calls. split; [split; reflexivity |].
  pose proof (blocked_signals_are_silent e calls eq_refl
                (or_introl eq_refl)) as H.
  split; [exact (proj1 H) |].
  exact (proj1 (proj2 (proj2 (proj2 H)))).
Defined.

(* ------------------------------------------------------------------ *)
(** ** Metrics *)

Lemma call_shape e c :
  let r := call e c in
  (focusChangeEvents (snd r) = [] /\ unswitched e (fst r))
  \/ exists ev now, snd r = [FocusChange ev] /\ switched e (fst r) ev now.
Proof.
  destruct c as [clock signal | clock control | ds]; simpl.
  - destruct (processSignal_shape clock e signal) as [_ [H | [ev H]]];
      [now left | right; now exists ev, (s_timestampMs signal)].
  - destruct (handlePresenterControl_shape clock e control)
      as [_ [H | [ev H]]];
      [now left | right; now exists ev, (c_timestampMs control)].
  - left. unfold unswitched. now repeat split.
Qed.

Lemma run_focusChanges calls :
  forall e,
    let r := run e calls in
    let n := Z.of_nat (List.length (focusChangeEvents (snd r))) in
    focusChanges (metrics (fst r)) = focusChanges (metrics e) + n
    /\ sequence (state (fst r)) = sequence (state e) + n.
Proof.
  induction calls as [| c rest IH]; intros e; simpl.
  - split; lia.
  - pose proof (call_shape e c) as Hc.
    destruct (call e c) as [e1 out1].
    specialize (IH e1). destruct (run e1 rest) as [e2 out2].
    simpl in *. rewrite focusChangeEvents_app, length_app.
    destruct IH as [IHf IHs].
    destruct Hc as [[Hnone [_ [Hs [_ Hf]]]] | [ev [now [-> Hsw]]]].
    + rewrite Hnone. simpl. lia.
    + destruct Hsw as [_ [Hs [_ [_ [_ Hf]]]]]. simpl. lia.
Qed.

Lemma consecutive_last evs :
  forall start ev,
    map e_sequence evs = consecutive start (List.length evs) ->
    last (map Some evs) None = Some ev ->
    e_sequence ev = start + Z.of_nat (List.length evs) - 1.
Proof.
  induction evs as [| ev0 evs IH]; intros start ev Hseq Hlast;
    [discriminate Hlast |].
  simpl in Hseq. injection Hseq as H0 Hrest.
  destruct evs as [| ev1 evs'].
  - simpl in Hlast. injection Hlast as <-. simpl. lia.
  - change (last (map Some (ev0 :: ev1 :: evs')) None)
      with (last (map Some (ev1 :: evs')) None) in Hlast.
    specialize (IH (start + 1) ev Hrest Hlast).
    rewrite IH. simpl List.length. lia.
Qed.

(** X5.  In every session the counter [focusChanges], the engine's
    [sequence] and the number of FocusChangeEvents emitted so far are the
    same number, and it is the sequence field of the last event
    emitted. *)
Theorem focusChanges_counts_events
  (sid : string) (ds : list DisplayBounds) (cfg : PartialFocusConfig)
  (calls : list Call) :
  let r := run (new_engine sid ds cfg) calls in
  let evs := focusChangeEvents (snd r) in
  focusChanges (getMetrics (fst r)) = Z.of_nat (List.length evs)
  /\ sequence (getInternalState (fst r)) = Z.of_nat (List.length evs)
  /\ snap_sequence (getState 0 (fst r)) = Z.of_nat (List.length evs)
  /\ (forall ev, last (map Some evs) None = Some ev ->
                 e_sequence ev = Z.of_nat (List.length evs)).
Proof.
  intros r evs.
  destruct (run_focusChanges calls (new_engine sid ds cfg)) as [Hf Hs].
  fold r in Hf, Hs. fold evs in Hf, Hs. simpl in Hf, Hs.
  unfold getMetrics, getInternalState, getState. simpl.
  repeat split; try assumption.
  intros ev Hlast.
  destruct (run_sequences calls (new_engine sid ds cfg)) as [Hseq _].
  fold r in Hseq. fold evs in Hseq. simpl in Hseq.
  rewrite (consecutive_last evs 1 ev Hseq Hlast). lia.
Qed.

Lemma processSignal_signalCounts clock e signal :
  signalCounts (metrics (fst (processSignal clock e signal)))
  = signalCounts (metrics (countSignal e (s_type signal))).
Proof.
  unfold processSignal, trackActivity, cooldownPenalty, trackCandidate,
    setActive, emitFocusStateRefresh.
  repeat break_branch; reflexivity.
Qed.

Lemma handlePresenterControl_metrics clock e control :
  let m' := metrics (fst (handlePresenterControl clock e control)) in
  signalCounts m' = signalCounts (metrics e)
  /\ cooldownBlocks m' = cooldownBlocks (metrics e)
  /\ dwellResets m' = dwellResets (metrics e)
  /\ idleBlocks m' = idleBlocks (metrics e).
Proof.
  unfold handlePresenterControl, setActive, emitFocusStateRefresh.
  repeat break_branch; now repeat split.
Qed.

Lemma call_signalCount e c t :
  signalCount (fst (call e c)) t = signalCount e t + signalCallsOf t [c].
Proof.
  destruct c as [clock signal | clock control | ds]; simpl.
  - unfold signalCount at 1. rewrite processSignal_signalCounts.
    fold (signalCount (countSignal e (s_type signal)) t).
    rewrite signalCount_countSignal. lia.
  - unfold signalCount.
    destruct (handlePresenterControl_metrics clock e control) as [-> _].
    lia.
  - unfold signalCount. simpl. lia.
Qed.

Lemma run_signalCount calls t :
  forall e, signalCount (fst (run e calls)) t
            = signalCount e t + signalCallsOf t calls.
Proof.
  induction calls as [| c rest IH]; intros e; simpl.
  - lia.
  - pose proof (call_signalCount e c t) as Hc.
    destruct (call e c) as [e1 out1]. specialize (IH e1).
    destruct (run e1 rest) as [e2 out2]. simpl in *.
    rewrite IH, Hc. destruct c; simpl; lia.
Qed.

(** X6.  Every signal handed to [processSignal] is counted under its
    type, whether it is then suppressed (frozen, auto off, override,
    attribution failure, idle, dwell) or not: in every session,
    [signalCounts] of a type is the number of [processSignal] calls made
    with a signal of that type; other calls count nothing. *)
Theorem signalCounts_count_signals
  (sid : string) (ds : list DisplayBounds) (cfg : PartialFocusConfig)
  (calls : list Call) (t : SignalType) :
  signalCount (fst (run (new_engine sid ds cfg) calls)) t
  = signalCallsOf t calls.
Proof. now rewrite run_signalCount. Qed.

Lemma signalCallsOf_nonneg t calls : 0 <= signalCallsOf t calls.
Proof.
  induction calls as [| [clock signal | |] rest IH]; simpl; try lia.
  destruct (SignalType_eqb t (s_type signal)); lia.
Qed.

(** X7.  Counters never decrease: across any single call, each of
    [focusChanges], [cooldownBlocks], [dwellResets], [idleBlocks] and
    each per-type signal count is at least what it was, and
    [updateDisplays] changes none of them. *)
Theorem metrics_never_decrease (e : FocusAlgorithm) (c : Call) :
  let m := getMetrics e in
  let m' := getMetrics (fst (call e c)) in
  focusChanges m <= focusChanges m'
  /\ cooldownBlocks m <= cooldownBlocks m'
  /\ dwellResets m <= dwellResets m'
  /\ idleBlocks m <= idleBlocks m'
  /\ (forall t, signalCount e t <= signalCount (fst (call e c)) t)
  /\ (forall ds, getMetrics (updateDisplays e ds) = m).
Proof.
  unfold getMetrics. simpl.
  assert (Hcount : forall t, signalCount e t <= signalCount (fst (call e c)) t).
  { intros t. rewrite call_signalCount.
    pose proof (signalCallsOf_nonneg t [c]). lia. }
  assert (Hfocus : focusChanges (metrics e)
                   <= focusChanges (metrics (fst (call e c)))).
  { destruct (call_shape e c)
      as [[_ [_ [_ [_ Hf]]]] | [ev [now [_ [_ [_ [_ [_ [_ Hf]]]]]]]]]; lia. }
  repeat split; try assumption; try reflexivity;
    destruct c as [clock signal | clock control | ds]; simpl;
    try lia;
    try (destruct (handlePresenterControl_metrics clock e control)
           as [_ [Hc [Hd Hi]]]; lia);
    unfold processSignal, trackActivity, countSignal, cooldownPenalty,
      trackCandidate, setActive, emitFocusStateRefresh;
    repeat break_branch; simpl; lia.
Qed.

(* ------------------------------------------------------------------ *)
(** ** Confidence values *)

(** The confidence the hysteresis step sees takes finitely many values,
    all of them reportable after rounding. *)
Lemma effective_confidence_reportable e signal cand now :
  reportable
    (Js.Math_round
       (fst (cooldownPenalty e signal now
               (computeConfidence e signal cand now)) * 100) / 100)
  = true.
Proof.
  unfold cooldownPenalty, computeConfidence.
  destruct (s_type signal); cbn [SignalType_eqb BASE_CONFIDENCE andb negb];
    split_conditions; vm_compute; reflexivity.
Qed.

(** X8.  Every FocusChangeEvent emitted by any call, in any engine state
    and under any configuration, carries a confidence between 0 and 1
    that has at most two decimals (rounding it to two decimals again
    gives the same double). *)
Theorem event_confidence_reportable
  (e : FocusAlgorithm) (c : Call) (ev : FocusChangeEvent) :
  In (FocusChange ev) (snd (call e c)) ->
  reportable (e_confidence ev) = true.
Proof.
  destruct c as [clock signal | clock control | ds]; simpl.
  - intros Hin.
    destruct (processSignal_switch_inv clock e signal ev Hin)
      as [[S [_ [_ Heq]]] | [cand [_ [_ [_ [_ [_ H]]]]]]].
    + rewrite Heq in Hin. simpl in Hin. destruct Hin as [[= <-] | []].
      vm_compute. reflexivity.
    + simpl in H. destruct H as [_ [_ [_ Heq]]].
      rewrite Heq in Hin. simpl in Hin. destruct Hin as [[= <-] | []].
      simpl. apply effective_confidence_reportable.
  - unfold handlePresenterControl, setActive, emitFocusStateRefresh.
    repeat break_branch; simpl; intros Hin; try contradiction;
      destruct Hin as [H | H]; try contradiction; try discriminate H.
    all: injection H as <-; vm_compute; reflexivity.
  - intros [].
Qed.

(** [event_confidence_reportable] on the switch of the scenario. *)
Lemma event_confidence_reportable_witness :
  let primed :=
    fst (processSignal 0 scenarioEngine (makeSignal Click "D2" 1000)) in
  let c := ProcessSignal 0 (makeSignal Click "D2" 1400) in
  exists ev, In (FocusChange ev) (snd (call primed c))
             /\ reportable (e_confidence ev) = true.
Proof.
  intros primed c. eexists. split; [left; reflexivity |].
  exact (event_confidence_reportable primed c _ (or_introl eq_refl)).
Defined.

(* ------------------------------------------------------------------ *)
(** ** What cannot switch the focus *)

Lemma movement_confidence_low e signal cand now :
  movementOnly signal = true ->
  (0.80 <=? fst (cooldownPenalty e signal now
                   (computeConfidence e signal cand now)))%float = false.
Proof.
  unfold movementOnly, cooldownPenalty, computeConfidence.
  destruct (s_type signal); try discriminate;
    cbn [SignalType_eqb BASE_CONFIDENCE andb negb].
  - destruct (s_windowDisplayId signal); [discriminate |]. intros _.
    cbn [Js.strict_eq]. split_conditions; vm_compute; reflexivity.
  - intros _. split_conditions; vm_compute; reflexivity.
Qed.



Lemma strict_eq_true a id : Js.strict_eq (Some id) a = true -> a = Some id.
Proof.
  destruct a as [s |]; simpl; [| discriminate].
  intros H. apply String.eqb_eq in H. now subst.
Qed.

(** X10.  The dwell timer restarts with the candidate: when no override
    is set and the dwell of the signal's type is positive, a signal
    attributed to a screen that was not already the candidate never
    switches the focus; it emits nothing.  An automatic switch therefore
    takes at least two signals attributed to the same screen. *)
Theorem new_candidate_never_switches
  (clock : Z) (e : FocusAlgorithm) (signal : IntentSignal)
  (cand : ScreenId) :
  manualOverride (state e) = None ->
  attributeToScreen e signal = Some cand ->
  candidateScreenId (state e) <> Some cand ->
  0 < getDwellMs e (s_type signal) ->
  let r := processSignal clock e signal in
  snd r = []
  /\ activeScreenId (state (fst r)) = activeScreenId (state e)
  /\ sequence (state (fst r)) = sequence (state e).
Proof.
  intros Hnone Hatt Hcand Hdwell r.
  assert (Hno : forall ev, ~ In (FocusChange ev) (snd r)).
  { intros ev Hin.
    destruct (processSignal_switch_inv clock e signal ev Hin)
      as [[S [HS _]] | [cand' [_ [_ [_ [Hatt' [_ H]]]]]]]; [congruence |].
    assert (cand' = cand) by congruence. subst cand'.
    simpl in H. destruct H as [Hle _].
    set (e1 := trackActivity (countSignal e (s_type signal))
                 (s_type signal) (s_timestampMs signal)) in *.
    set (cp := cooldownPenalty e1 signal (s_timestampMs signal)
                 (computeConfidence e1 signal cand (s_timestampMs signal)))
      in *.
    assert (Hc2 : candidateScreenId (state (snd cp))
                  = candidateScreenId (state e)).
    { unfold cp. rewrite cooldownPenalty_state. unfold e1, trackActivity.
      now destruct (isActivitySignal (s_type signal)). }
    unfold trackCandidate in Hle. rewrite Hc2 in Hle.
    destruct (Js.strict_eq (Some cand) (candidateScreenId (state e)))
      eqn:Heq.
    - apply strict_eq_true in Heq. contradiction.
    - simpl in Hle. lia. }
  destruct (processSignal_shape clock e signal)
    as [_ [[_ [Hact [Hseq _]]] | [ev [Hout _]]]].
  - split; [| now split].
    (* no snapshot either: the stay branch needs the dwell as well *)
    revert Hno. unfold r, processSignal.
    set (e1 := trackActivity (countSignal e (s_type signal))
                 (s_type signal) (s_timestampMs signal)).
    assert (Hatt1 : attributeToScreen e1 signal = Some cand).
    { rewrite <- Hatt. apply attributeToScreen_displays.
      unfold e1. now rewrite trackActivity_displays. }
    assert (Hman1 : manualOverride (state e1) = None)
      by (unfold e1; now rewrite trackActivity_manualOverride).
    rewrite Hatt1, Hman1. intros _.
    destruct (frozen (state e1)); [reflexivity |].
    destruct (negb (autoEnabled (state e1))); [reflexivity |].
    destruct (isIdle e1 (s_timestampMs signal)); [reflexivity |].
    destruct (cooldownPenalty e1 signal (s_timestampMs signal)
                (computeConfidence e1 signal cand (s_timestampMs signal)))
      as [conf e2] eqn:Hcp.
    assert (Hc2 : candidateScreenId (state e2)
                  = candidateScreenId (state e)).
    { change e2 with (snd (conf, e2)). rewrite <- Hcp.
      rewrite cooldownPenalty_state. unfold e1, trackActivity.
      now destruct (isActivitySignal (s_type signal)). }
    assert (Hcf2 : config e2 = config e).
    { change e2 with (snd (conf, e2)). rewrite <- Hcp.
      rewrite cooldownPenalty_config. unfold e1.
      now rewrite trackActivity_config. }
    unfold trackCandidate. rewrite Hc2.
    destruct (Js.strict_eq (Some cand) (candidateScreenId (state e)))
      eqn:Heq; [apply strict_eq_true in Heq; contradiction |].
    cbn [negb]. simpl candidateSinceTs.
    replace (getDwellMs _ (s_type signal))
      with (getDwellMs e (s_type signal))
      by (unfold getDwellMs; simpl; now rewrite Hcf2).
    destruct (Z.ltb_spec (s_timestampMs signal - s_timestampMs signal)
                         (getDwellMs e (s_type signal))); [reflexivity |].
    lia.
  - exfalso. apply (Hno ev). unfold r. rewrite Hout. now left.
Qed.

(** [new_candidate_never_switches] on the first click of the scenario. *)
Lemma new_candidate_never_switches_witness :
  let signal := makeSignal Click "D2" 1000 in
  (manualOverride (state scenarioEngine) = None
   /\ attributeToScreen scenarioEngine signal = Some "D2"%string
   /\ 0 < getDwellMs scenarioEngine Click)
  /\ snd (processSignal 0 scenarioEngine signal) = [].
Proof.
  intros signal. split; [repeat split |].
  refine (proj1 (new_candidate_never_switches 0 scenarioEngine signal
                   "D2"%string eq_refl eq_refl _ eq_refl)).
  discriminate.
Defined.

(* ------------------------------------------------------------------ *)
(** ** Idle *)

(** X11.  Motion does not revive an idle presenter: a [PointerMove] or
    [Hover] signal that arrives more than [idleMs] after the last
    activity, with no override set, emits nothing and leaves the whole
    engine state as it was (active screen, candidate, dwell timer,
    [lastActivityTs]); only counters move.  When the call gets as far as
    the idle check, it is counted in [idleBlocks]. *)
Theorem idle_blocks_movement
  (clock : Z) (e : FocusAlgorithm) (signal : IntentSignal) :
  manualOverride (state e) = None ->
  isActivitySignal (s_type signal) = false ->
  idleMs (config e) < s_timestampMs signal - lastActivityTs (state e) ->
  let r := processSignal clock e signal in
  snd r = []
  /\ state (fst r) = state e
  /\ (frozen (state e) = false -> autoEnabled (state e) = true ->
      attributeToScreen e signal <> None ->
      idleBlocks (metrics (fst r)) = idleBlocks (metrics e) + 1).
Proof.
  intros Hnone Hact Hidle r. unfold r, processSignal, trackActivity.
  rewrite Hact.
  rewrite (attributeToScreen_displays (countSignal e (s_type signal)) e)
    by reflexivity.
  rewrite !countSignal_state, Hnone.
  assert (Hi : isIdle (countSignal e (s_type signal)) (s_timestampMs signal)
               = true).
  { unfold isIdle. simpl. now apply Z.ltb_lt. }
  rewrite Hi.
  destruct (frozen (state e)); [repeat split; discriminate |].
  destruct (autoEnabled (state e)); cbn [negb];
    [| repeat split; discriminate].
  destruct (attributeToScreen e signal); simpl.
  - now repeat split.
  - repeat split. intros _ _ H. now contradiction H.
Qed.

(** [idle_blocks_movement] on the idle scenario: activity ends at
    t=1400, a pointer move on D2 arrives at t=5000. *)
Lemma idle_blocks_movement_witness :
  let e :=
    fst (run scenarioEngine
           [ProcessSignal 0 (makeSignal Click "D1" 1000);
            ProcessSignal 0 (makeSignal Click "D1" 1400)]) in
  let signal := makeSignal PointerMove "D2" 5000 in
  (manualOverride (state e) = None
   /\ isActivitySignal (s_type signal) = false
   /\ idleMs (config e) < s_timestampMs signal - lastActivityTs (state e))
  /\ state (fst (processSignal 0 e signal)) = state e
  /\ idleBlocks (metrics (fst (processSignal 0 e signal))) = 1.
Proof.
  intros e signal.
  split; [repeat split |].
  pose proof (idle_blocks_movement 0 e signal eq_refl eq_refl eq_refl)
    as [_ [Hst Hidle]].
  split; [exact Hst |].
  apply Hidle; [reflexivity | reflexivity | discriminate].
Defined.

(** X12.  Activity is never idle: with a non-negative [idleMs], a signal
    of an activity type (anything but [PointerMove] and [Hover]) is never
    stopped by the idle check, however long the engine has been silent:
    [idleBlocks] stays and [lastActivityTs] becomes the signal's
    timestamp. *)
Theorem activity_is_never_idle
  (clock : Z) (e : FocusAlgorithm) (signal : IntentSignal) :
  0 <= idleMs (config e) ->
  isActivitySignal (s_type signal) = true ->
  let r := processSignal clock e signal in
  idleBlocks (metrics (fst r)) = idleBlocks (metrics e)
  /\ lastActivityTs (state (fst r)) = s_timestampMs signal.
Proof.
  intros Hidle Hact r. unfold r, processSignal, trackActivity.
  rewrite Hact.
  set (e1 := with_state _ _).
  assert (Hi : isIdle e1 (s_timestampMs signal) = false).
  { unfold isIdle, e1. simpl. apply Z.ltb_ge. lia. }
  rewrite Hi.
  unfold cooldownPenalty, trackCandidate, setActive, emitFocusStateRefresh.
  repeat break_branch; now split.
Qed.

(** [activity_is_never_idle] on a click after 100 seconds of silence. *)
Lemma activity_is_never_idle_witness :
  let signal := makeSignal Click "D2" 100000 in
  (0 <= idleMs (config scenarioEngine)
   /\ isActivitySignal (s_type signal) = true)
  /\ idleBlocks (metrics (fst (processSignal 0 scenarioEngine signal))) = 0.
Proof.
  intros signal. split; [split; [discriminate | reflexivity] |].
  refine (proj1 (activity_is_never_idle 0 scenarioEngine signal _ eq_refl)).
  discriminate.
Defined.

(* ------------------------------------------------------------------ *)
(** ** Presenter controls *)

(** X13.  [ManualSelect] acts exactly when it names a known screen.  For
    a non-empty screenId that is a key of the bounds map, and whatever
    the mode (frozen, auto off), cooldown, idle time or dwell, it sets
    the override and the active screen to it and emits exactly one
    FocusChangeEvent (reason Manual, confidence 1, the next sequence
    number, the command's timestamp).  With an unknown, empty or missing
    screenId it is a no-op: the engine is unchanged and nothing is
    emitted. *)
Theorem manual_select_acts_on_known_screens
  (clock : Z) (e : FocusAlgorithm) (target : option ScreenId) (now : Z) :
  let r := handlePresenterControl clock e
             (mkPresenterControl ManualSelect target now) in
  match target with
  | Some id =>
      if negb (String.eqb id "") && Js.has (displays e) id
      then snd r = [FocusChange {|
                      e_sessionId := sessionId e;
                      e_screenId := id;
                      e_reason := Manual;
                      e_confidence := 1;
                      e_dwellMs := now - candidateSinceTs (state e);
                      e_sequence := sequence (state e) + 1;
                      e_timestampMs := now |}]
           /\ activeScreenId (state (fst r)) = Some id
           /\ manualOverride (state (fst r)) = Some id
           /\ lastSwitchTs (state (fst r)) = now
           /\ frozen (state (fst r)) = frozen (state e)
           /\ autoEnabled (state (fst r)) = autoEnabled (state e)
           /\ snap_mode (getState clock (fst r)) = ModeManual
      else r = (e, [])
  | None => r = (e, [])
  end.
Proof.
  unfold handlePresenterControl. simpl.
  destruct target as [id |]; [| reflexivity].
  destruct (negb (String.eqb id "") && Js.has (displays e) id) eqn:Hknown;
    [| reflexivity].
  apply andb_true_iff in Hknown as [Hne _].
  unfold setActive, getState. simpl. rewrite Hne.
  repeat split.
Qed.

(** X14.  Toggles come in pairs.  Two [ToggleAutoFocus] commands leave
    the engine exactly as it was.  Two [ToggleFreeze] commands restore
    the [frozen] flag and change nothing but the dwell timer, which
    restarts at the timestamp of the command that unfroze the engine.
    Each toggle emits one snapshot and never a focus change. *)
Theorem toggles_come_in_pairs
  (clock1 clock2 : Z) (e : FocusAlgorithm) (t1 t2 : Z) :
  let auto t := mkPresenterControl ToggleAutoFocus None t in
  let freeze t := mkPresenterControl ToggleFreeze None t in
  let twice c1 c2 :=
    fst (handlePresenterControl clock2
           (fst (handlePresenterControl clock1 e c1)) c2) in
  twice (auto t1) (auto t2) = e
  /\ state (twice (freeze t1) (freeze t2))
     = set_candidateSinceTs (state e) (if frozen (state e) then t1 else t2)
  /\ metrics (twice (freeze t1) (freeze t2)) = metrics e
  /\ snd (handlePresenterControl clock1 e (freeze t1))
     = [FocusState {|
          snap_activeScreenId :=
            Js.or_default (activeScreenId (state e)) "screen_1";
          snap_mode :=
            if Js.truthy (manualOverride (state e)) then ModeManual
            else if frozen (state e) then ModeAuto else ModeFrozen;
          snap_frozen := negb (frozen (state e));
          snap_sequence := sequence (state e);
          snap_timestampMs := clock1 |}].
Proof.
  destruct e as [st cf dp sid mt]; destruct st as [a f au m ls c cs la sq].
  unfold handlePresenterControl, emitFocusStateRefresh, getState. simpl.
  destruct f, au; simpl; repeat split; destruct (Js.truthy m); reflexivity.
Qed.

(* ------------------------------------------------------------------ *)
(** ** Dwell reported by events *)

Lemma processSignal_dwell clock e signal :
  candidateSinceTs (state e) <= s_timestampMs signal ->
  let r := processSignal clock e signal in
  candidateSinceTs (state (fst r)) <= s_timestampMs signal
  /\ forall ev, In (FocusChange ev) (snd r) -> 0 <= e_dwellMs ev.
Proof.
  intros Hle.
  unfold processSignal, trackActivity, countSignal, cooldownPenalty,
    trackCandidate, setActive, emitFocusStateRefresh.
  repeat break_branch; simpl; (split; [lia |]);
    intros ev Hin; try contradiction;
    destruct Hin as [H | H]; try contradiction; try discriminate H;
    injection H as <-; simpl; lia.
Qed.

Lemma handlePresenterControl_dwell clock e control :
  candidateSinceTs (state e) <= c_timestampMs control ->
  let r := handlePresenterControl clock e control in
  candidateSinceTs (state (fst r)) <= c_timestampMs control
  /\ forall ev, In (FocusChange ev) (snd r) -> 0 <= e_dwellMs ev.
Proof.
  intros Hle.
  unfold handlePresenterControl, setActive, emitFocusStateRefresh.
  repeat break_branch; simpl; (split; [lia |]);
    intros ev Hin; try contradiction;
    destruct Hin as [H | H]; try contradiction; try discriminate H;
    injection H as <-; simpl; lia.
Qed.

Lemma In_focusChangeEvents ev log :
  In ev (focusChangeEvents log) <-> In (FocusChange ev) log.
Proof.
  induction log as [| [ev' | sn] log IH]; simpl.
  - reflexivity.
  - rewrite IH. split; intros [H | H]; auto; left; congruence.
  - rewrite IH. split; [now right | intros [H | H]; [discriminate | exact H]].
Qed.

Lemma run_dwell calls :
  forall e lo,
    candidateSinceTs (state e) <= lo ->
    StronglySorted Z.le (callTimestamps calls) ->
    Forall (fun t => lo <= t) (callTimestamps calls) ->
    Forall (fun ev => 0 <= e_dwellMs ev)
           (focusChangeEvents (snd (run e calls))).
Proof.
  induction calls as [| c rest IH]; intros e lo Hcs Hsorted Hlo; simpl.
  - constructor.
  - destruct (call e c) as [e1 out1] eqn:Hcall.
    destruct (run e1 rest) as [e2 out2] eqn:Hrun. simpl.
    rewrite focusChangeEvents_app. apply Forall_app.
    destruct c as [clock signal | clock control | ds];
      simpl in Hcall, Hsorted, Hlo.
    + inversion Hsorted as [| ? ? Hs' Hall]; subst.
      inversion Hlo as [| ? ? Hnow Hlo']; subst.
      destruct (processSignal_dwell clock e signal) as [H1 H2]; [lia |].
      rewrite Hcall in H1, H2. simpl in H1, H2.
      split.
      * apply Forall_forall. intros ev Hin. apply H2.
        now apply In_focusChangeEvents.
      * specialize (IH e1 (s_timestampMs signal) H1 Hs' Hall).
        now rewrite Hrun in IH.
    + inversion Hsorted as [| ? ? Hs' Hall]; subst.
      inversion Hlo as [| ? ? Hnow Hlo']; subst.
      destruct (handlePresenterControl_dwell clock e control) as [H1 H2];
        [lia |].
      rewrite Hcall in H1, H2. simpl in H1, H2.
      split.
      * apply Forall_forall. intros ev Hin. apply H2.
        now apply In_focusChangeEvents.
      * specialize (IH e1 (c_timestampMs control) H1 Hs' Hall).
        now rewrite Hrun in IH.
    + injection Hcall as <- <-. split; [constructor |].
      specialize (IH (updateDisplays e ds) lo Hcs Hsorted Hlo).
      now rewrite Hrun in IH.
Qed.

(** X15.  In a session whose calls carry non-negative, non-decreasing
    timestamps, every emitted FocusChangeEvent reports a non-negative
    dwell: the dwell timer is never ahead of the clock of the calls. *)
Theorem event_dwell_nonnegative
  (sid : string) (ds : list DisplayBounds) (cfg : PartialFocusConfig)
  (calls : list Call) :
  Sorted Z.le (callTimestamps calls) ->
  Forall (fun t => 0 <= t) (callTimestamps calls) ->
  Forall (fun ev => 0 <= e_dwellMs ev)
         (focusChangeEvents (snd (run (new_engine sid ds cfg) calls))).
Proof.
  intros Hsorted Hpos.
  apply (run_dwell calls (new_engine sid ds cfg) 0).
  - simpl. lia.
  - apply Sorted_StronglySorted; [intros a b c; lia | exact Hsorted].
  - exact Hpos.
Qed.

(** [event_dwell_nonnegative] on the scenario followed by a manual
    selection. *)
Lemma event_dwell_nonnegative_witness :
  let calls :=
    [ProcessSignal 0 (makeSignal Click "D2" 1000);
     ProcessSignal 0 (makeSignal Click "D2" 1400);
     HandlePresenterControl 0
       (mkPresenterControl ManualSelect (Some "D1"%string) 1500)] in
  Sorted Z.le (callTimestamps calls)
  /\ Forall (fun ev => 0 <= e_dwellMs ev)
            (focusChangeEvents
               (snd (run (new_engine "test" [D1; D2; D3] emptyPartial)
                         calls))).
Proof.
  intros calls.
  assert (Hsorted : Sorted Z.le (callTimestamps calls))
    by (repeat constructor; discriminate).
  split; [exact Hsorted |].
  apply (event_dwell_nonnegative "test" [D1; D2; D3] emptyPartial calls
           Hsorted).
  repeat constructor; discriminate.
Defined.

(* ------------------------------------------------------------------ *)
(** ** Conflict resolution: what the winner is *)

Lemma resolveConflict_head signals :
  resolveConflict signals = hd_error (sort compareSignals signals).
Proof. destruct signals as [| s [| u l]]; reflexivity. Qed.

Lemma resolveConflict_least signals w :
  resolveConflict signals = Some w ->
  In w signals /\ forall t, In t signals -> compareSignals w t <= 0.
Proof.
  destruct signals as [| s l]; [discriminate |].
  rewrite resolveConflict_head.
  destruct (sort_head compareSignals compareSignals_trans
                      compareSignals_flip s l)
    as [pre [w' [post [Hsplit [Hhd [Hpre Hpost]]]]]].
  rewrite Hhd. intros [= <-]. rewrite Hsplit. split.
  - apply in_elt.
  - intros t Hin. apply in_app_or in Hin as [Hin | [<- | Hin]].
    + rewrite Forall_forall in Hpre. specialize (Hpre t Hin). lia.
    + rewrite compareSignals_eq, Z.eqb_refl. lia.
    + rewrite Forall_forall in Hpost. now apply Hpost.
Qed.

(** X16.  [resolveConflict] returns none exactly for the empty list;
    otherwise the winner is one of the signals, no signal of the list
    has a lower priority number, so a Manual signal in the list makes
    the winner Manual; and the winner does not depend on the order in
    which the signals are listed, except between signals equal in
    priority, base confidence and timestamp. *)
Theorem resolveConflict_winner (signals : list IntentSignal) :
  (resolveConflict signals = None <-> signals = [])
  /\ (forall w,
        resolveConflict signals = Some w ->
        In w signals
        /\ (forall t, In t signals ->
                      SIGNAL_PRIORITY (s_type w) <= SIGNAL_PRIORITY (s_type t))
        /\ ((exists t, In t signals /\ s_type t = Manual) ->
            s_type w = Manual)
        /\ (forall signals' w',
              Permutation signals signals' ->
              resolveConflict signals' = Some w' -> ranksEqual w w')).
Proof.
  split.
  - split; [| now intros ->].
    destruct signals as [| s l]; [reflexivity |].
    rewrite resolveConflict_head.
    destruct (sort_head compareSignals compareSignals_trans
                        compareSignals_flip s l)
      as [pre [w [post [_ [Hhd _]]]]].
    rewrite Hhd. discriminate.
  - intros w Hw.
    destruct (resolveConflict_least signals w Hw) as [Hin Hleast].
    assert (Hpri : forall t, In t signals ->
                     SIGNAL_PRIORITY (s_type w)
                     <= SIGNAL_PRIORITY (s_type t)).
    { intros t Ht. specialize (Hleast t Ht).
      rewrite compareSignals_eq in Hleast.
      destruct (Z.eqb_spec (SIGNAL_PRIORITY (s_type w))
                           (SIGNAL_PRIORITY (s_type t))); lia. }
    split; [exact Hin |]. split; [exact Hpri |]. split.
    + intros [t [Ht Hman]]. specialize (Hpri t Ht). rewrite Hman in Hpri.
      destruct (s_type w); simpl in Hpri; try lia. reflexivity.
    + intros signals' w' Hperm Hw'.
      destruct (resolveConflict_least signals' w' Hw') as [Hin' Hleast'].
      assert (H1 : compareSignals w w' <= 0).
      { apply Hleast. eapply Permutation_in; [| exact Hin'].
        now apply Permutation_sym. }
      assert (H2 : compareSignals w' w <= 0).
      { apply Hleast'. eapply Permutation_in; [| exact Hin]. exact Hperm. }
      rewrite compareSignals_eq in H1, H2. unfold ranksEqual.
      destruct (Z.eqb_spec (SIGNAL_PRIORITY (s_type w))
                           (SIGNAL_PRIORITY (s_type w'))) as [Hp | Hp];
        destruct (Z.eqb_spec (SIGNAL_PRIORITY (s_type w'))
                             (SIGNAL_PRIORITY (s_type w))); try lia.
      split; [exact Hp |].
      split; [now apply priority_fixes_confidence | lia].
Qed.

(* ------------------------------------------------------------------ *)
(** ** The bounds map *)

Lemma has_set {V : Type} (m : Js.Map V) k v k' :
  Js.has (Js.set m k v) k' = Js.has m k' || String.eqb k k'.
Proof.
  induction m as [| [k0 v0] m IH]; simpl.
  - now destruct (String.eqb k k').
  - destruct (String.eqb_spec k0 k) as [-> | Hne]; simpl.
    + destruct (String.eqb k k'); [reflexivity | now rewrite orb_false_r].
    + destruct (String.eqb k0 k'); [reflexivity | apply IH].
Qed.

Lemma get_In {V : Type} (m : Js.Map V) k v :
  Js.get m k = Some v -> In (k, v) m.
Proof.
  induction m as [| [k0 v0] m IH]; simpl; [discriminate |].
  destruct (String.eqb_spec k0 k) as [-> | Hne].
  - intros [= ->]. now left.
  - intros H. right. now apply IH.
Qed.

Lemma In_set {V : Type} (m : Js.Map V) k v k' v' :
  In (k', v') (Js.set m k v) -> In (k', v') m \/ (k', v') = (k, v).
Proof.
  induction m as [| [k0 v0] m IH]; simpl.
  - intros [H | []]. right. now symmetry.
  - destruct (String.eqb_spec k0 k) as [-> | Hne]; simpl.
    + intros [H | H]; [right; now symmetry | left; now right].
    + intros [H | H]; [left; now left |].
      apply IH in H as [H | H]; [left; now right | now right].
Qed.

Lemma find_append {A : Type} (f : A -> bool) (l1 l2 : list A) :
  find f (l1 ++ l2)
  = match find f l1 with
    | Some a => Some a
    | None => find f l2
    end.
Proof.
  induction l1 as [| a l1 IH]; simpl; [reflexivity |].
  now destruct (f a).
Qed.

(** The map built from a list of entries, on top of a map [m]. *)
Lemma fold_set_spec {V : Type} (entries : list (string * V)) :
  forall m : Js.Map V,
    let m' := fold_left (fun m kv => Js.set m (fst kv) (snd kv)) entries m in
    (forall k, Js.has m' k = Js.has m k || existsb (String.eqb k) (map fst entries))
    /\ (forall k, Js.get m' k
                  = match find (fun kv => String.eqb k (fst kv)) (rev entries) with
                    | Some kv => Some (snd kv)
                    | None => Js.get m k
                    end)
    /\ (forall k v, In (k, v) m' -> In (k, v) m \/ In (k, v) entries).
Proof.
  induction entries as [| [k0 v0] entries IH]; intros m; simpl.
  - repeat split; intros; [now rewrite orb_false_r | now left].
  - destruct (IH (Js.set m k0 v0)) as [Hhas [Hget Hin]].
    split; [| split].
    + intros k. rewrite Hhas, has_set.
      rewrite (String.eqb_sym k k0).
      now destruct (Js.has m k), (String.eqb k0 k).
    + intros k. rewrite Hget, find_append.
      destruct (find _ (rev entries)); [reflexivity |]. simpl.
      rewrite (String.eqb_sym k k0).
      destruct (String.eqb_spec k0 k) as [-> | Hne].
      * apply get_set_same.
      * now apply get_set_other.
    + intros k v H. apply Hin in H as [H | H]; [| right; now right].
      apply In_set in H as [H | H]; [now left | right; left; now symmetry].
Qed.

(** X17.  The bounds map the constructor and [updateDisplays] build has
    one entry per screen id of the display list, under that id: a
    screen is known exactly when some listed display carries its id, no
    id occurs twice, and when the list repeats an id the bounds listed
    last are the ones kept. *)
Theorem displays_map_keys (ds : list DisplayBounds) :
  let m := Map_of_displays ds in
  NoDup (map fst m)
  /\ (forall id, Js.has m id = true <-> In id (map b_screenId ds))
  /\ (forall id b, In (id, b) m -> b_screenId b = id /\ In b ds)
  /\ (forall id,
        Js.get m id
        = find (fun d => String.eqb id (b_screenId d)) (rev ds))
  /\ (forall sid cfg e,
        displays (new_engine sid ds cfg) = m
        /\ displays (updateDisplays e ds) = m).
Proof.
  intros m. unfold m, Map_of_displays.
  destruct (fold_set_spec (map (fun d => (b_screenId d, d)) ds) [])
    as [Hhas [Hget Hin]].
  fold (Js.of_entries (map (fun d => (b_screenId d, d)) ds)) in Hhas, Hget, Hin.
  split; [apply of_entries_NoDup |]. split; [| split; [| split]].
  - intros id. rewrite Hhas. simpl. rewrite map_map. simpl.
    rewrite existsb_exists. split.
    + intros [k [Hk Heq]]. apply String.eqb_eq in Heq. now subst.
    + intros H. exists id. split; [exact H | apply String.eqb_refl].
  - intros id b H. apply Hin in H as [[] | H].
    apply in_map_iff in H as [d [[= <- <-] Hd]]. now split.
  - intros id. rewrite Hget. simpl. rewrite <- map_rev.
    induction (rev ds) as [| d l IH]; simpl; [reflexivity |].
    destruct (String.eqb id (b_screenId d)); [reflexivity | exact IH].
  - intros sid cfg e. now split.
Qed.

(* ------------------------------------------------------------------ *)
(** ** The intent detector: attributing a point *)

#[local] Arguments Intent.Distance_ltb : simpl never.
#[local] Arguments Intent.centreDistance : simpl never.

Section ClosestLoop.
Variables x y : Z.

Let outside (kb : ScreenId * DisplayBounds) : Prop :=
  inside (snd kb) x y = false.

Lemma firstInside_found pre id b post :
  Forall outside pre -> inside b x y = true ->
  Intent.firstInside (pre ++ (id, b) :: post) x y = Some id.
Proof.
  intros Hpre Hin.
  induction Hpre as [| [k b0] pre Hout _ IH]; simpl.
  - now rewrite Hin.
  - unfold outside in Hout. simpl in Hout. now rewrite Hout.
Qed.

Lemma firstInside_none entries :
  Forall outside entries -> Intent.firstInside entries x y = None.
Proof.
  induction 1 as [| [k b0] rest Hout _ IH]; simpl; [reflexivity |].
  unfold outside in Hout. simpl in Hout. now rewrite Hout.
Qed.

Lemma firstInside_key entries id :
  Intent.firstInside entries x y = Some id -> In id (map fst entries).
Proof.
  induction entries as [| [k b0] rest IH]; simpl; [discriminate |].
  destruct (inside b0 x y); [intros [= ->]; now left |].
  intros H. right. now apply IH.
Qed.

Lemma closestLoop_key entries closest minDist id :
  Intent.closestLoop entries x y closest minDist = Some id ->
  closest = Some id \/ In id (map fst entries).
Proof.
  revert closest minDist.
  induction entries as [| [k b0] rest IH]; intros c m; simpl.
  - now left.
  - destruct (Intent.Distance_ltb (Intent.centreDistance b0 x y) m);
      intros H; apply IH in H as [H | H].
    + injection H as ->. right. now left.
    + right. now right.
    + now left.
    + right. now right.
Qed.

Lemma firstInside_outside entries :
  Intent.firstInside entries x y = None -> Forall outside entries.
Proof.
  induction entries as [| [k b0] rest IH]; simpl; [constructor |].
  destruct (inside b0 x y) eqn:Hb; [discriminate |].
  intros H. constructor; [exact Hb | now apply IH].
Qed.

(** The second loop either keeps [closest], no distance being below
    [minDist], or returns the first entry among those of the least
    distance: that distance is below [minDist], no earlier entry is as
    near, and no later entry is nearer. *)
Lemma closestLoop_spec entries :
  forall closest minDist,
    (Intent.closestLoop entries x y closest minDist = closest
     /\ Forall (fun kb => (Intent.centreDistance (snd kb) x y
                           <? minDist)%float = false) entries)
    \/ exists pre id b post,
         entries = pre ++ (id, b) :: post
         /\ Intent.closestLoop entries x y closest minDist = Some id
         /\ (Intent.centreDistance b x y <? minDist)%float = true
         /\ Forall (fun kb => (Intent.centreDistance (snd kb) x y
                               <=? Intent.centreDistance b x y)%float
                              = false) pre
         /\ Forall (fun kb => (Intent.centreDistance (snd kb) x y
                               <? Intent.centreDistance b x y)%float
                              = false) post.
Proof.
  induction entries as [| [k b0] rest IH]; intros c m; simpl.
  - left. split; [reflexivity | constructor].
  - unfold Intent.Distance_ltb.
    destruct (Intent.centreDistance b0 x y <? m)%float eqn:Hlt.
    + right.
      destruct (IH (Some k) (Intent.centreDistance b0 x y))
        as [[Hr Hfar] | [pre [id [b [post [Hsplit [Hr [Hb [Hpre Hpost]]]]]]]]].
      * exists [], k, b0, rest. repeat split; try assumption. constructor.
      * exists ((k, b0) :: pre), id, b, post. repeat split; try assumption.
        -- simpl. now rewrite Hsplit.
        -- now apply (ltb_trans _ (Intent.centreDistance b0 x y)).
        -- constructor; [| exact Hpre]. simpl.
           destruct (Intent.centreDistance b0 x y
                     <=? Intent.centreDistance b x y)%float eqn:Hle;
             [| reflexivity].
           pose proof (leb_ltb_trans _ _ _ Hle Hb) as H.
           now rewrite ltb_irrefl in H.
    + destruct (IH c m)
        as [[Hr Hfar] | [pre [id [b [post [Hsplit [Hr [Hb [Hpre Hpost]]]]]]]]].
      * left. split; [exact Hr | now constructor].
      * right. exists ((k, b0) :: pre), id, b, post.
        repeat split; try assumption.
        -- simpl. now rewrite Hsplit.
        -- constructor; [| exact Hpre]. simpl.
           destruct (Intent.centreDistance b0 x y
                     <=? Intent.centreDistance b x y)%float eqn:Hle;
             [| reflexivity].
           pose proof (leb_ltb_trans _ _ _ Hle Hb) as H. congruence.
Qed.

End ClosestLoop.

Lemma outside_or_inside (entries : Js.Map DisplayBounds) x y :
  Forall (fun kb => inside (snd kb) x y = false) entries
  \/ exists kb, In kb entries /\ inside (snd kb) x y = true.
Proof.
  induction entries as [| [k b0] rest IH]; [left; constructor |].
  destruct (inside b0 x y) eqn:Hb.
  - right. exists (k, b0). split; [now left | exact Hb].
  - destruct IH as [IH | [kb [Hin Hkb]]].
    + left. now constructor.
    + right. exists kb. split; [now right | exact Hkb].
Qed.

Lemma pointToScreen_key ie x y id :
  Intent.pointToScreen ie x y = Some id ->
  Js.has (Intent.displays ie) id = true.
Proof.
  unfold Intent.pointToScreen.
  destruct (Intent.firstInside (Intent.displays ie) x y) eqn:Hf.
  - intros [= ->]. apply has_In. now apply firstInside_key in Hf.
  - intros H. apply closestLoop_key in H as [H | H]; [discriminate |].
    now apply has_In.
Qed.

(** X18.  The detector's [pointToScreen] returns the first display (in
    iteration order of its bounds map) whose half-open rectangle
    contains the point when one does.  Otherwise it returns the display
    whose centre is nearest to the point, the first one among equally
    near, provided some computed distance is below [Infinity]: no
    earlier display is as near and no later one nearer.  It returns
    none exactly when no display contains the point and no computed
    distance is below [Infinity], as on the empty map; a screen it
    returns is always a key of the map.

    The distances compared are the doubles the detector computes, each
    operation rounded to binary64.  Centres at different distances can
    therefore be equally near, and the first one is returned: at
    (70000050, 51) the display P is preferred to Q, whose centre is the
    nearer one in exact arithmetic. *)
Theorem pointToScreen_spec (ie : Intent.IntentEngine) (x y : Z) :
  let result := Intent.pointToScreen ie x y in
  let outside := fun kb : ScreenId * DisplayBounds =>
                   inside (snd kb) x y = false in
  let near := fun kb : ScreenId * DisplayBounds =>
                (Intent.centreDistance (snd kb) x y <? infinity)%float in
  ((exists kb, In kb (Intent.displays ie) /\ inside (snd kb) x y = true) ->
   exists pre id b post,
     Intent.displays ie = pre ++ (id, b) :: post
     /\ result = Some id
     /\ inside b x y = true /\ Forall outside pre)
  /\ (Forall outside (Intent.displays ie) ->
      (exists kb, In kb (Intent.displays ie) /\ near kb = true) ->
      exists pre id b post,
        Intent.displays ie = pre ++ (id, b) :: post
        /\ result = Some id
        /\ near (id, b) = true
        /\ Forall (fun kb => (Intent.centreDistance (snd kb) x y
                              <=? Intent.centreDistance b x y)%float
                             = false) pre
        /\ Forall (fun kb => (Intent.centreDistance (snd kb) x y
                              <? Intent.centreDistance b x y)%float
                             = false) post)
  /\ (result = None
      <-> Forall (fun kb => outside kb /\ near kb = false)
                 (Intent.displays ie))
  /\ (Intent.displays ie = [] -> result = None)
  /\ (forall id, result = Some id -> Js.has (Intent.displays ie) id = true)
  /\ (Intent.pointToScreen
        (Intent.constructor [centredLeft; centredRight]
           (Intent.mkPartial None None None None)) 70000050 51
      = Some "P"%string
      /\ (Intent.centreDistance centredLeft 70000050 51 <? infinity)%float
         = true
      /\ centre2 centredRight 70000050 51 < centre2 centredLeft 70000050 51
      /\ Intent.centreDistance centredLeft 70000050 51
         = Intent.centreDistance centredRight 70000050 51).
Proof.
  intros result outside near. unfold result, Intent.pointToScreen.
  split; [| split; [| split; [| split; [| split]]]].
  - intros Hex.
    destruct (first_inside_exists x y (Intent.displays ie) Hex)
      as [pre [id [b [post [Hsplit [Hpre Hb]]]]]].
    exists pre, id, b, post. repeat split; try assumption.
    rewrite Hsplit. now rewrite firstInside_found.
  - intros Hout [kb [Hin Hkb]].
    rewrite firstInside_none by exact Hout.
    destruct (closestLoop_spec x y (Intent.displays ie) None Intent.Infinity)
      as [[_ Hfar] | [pre [id [b [post [Hsplit [Hr [Hb [Hpre Hpost]]]]]]]]].
    + rewrite Forall_forall in Hfar. specialize (Hfar kb Hin).
      unfold near in Hkb. unfold Intent.Infinity in Hfar. congruence.
    + exists pre, id, b, post. repeat split; assumption.
  - split.
    + intros H.
      destruct (Intent.firstInside (Intent.displays ie) x y) eqn:Hf;
        [discriminate |].
      apply firstInside_outside in Hf.
      destruct (closestLoop_spec x y (Intent.displays ie) None
                  Intent.Infinity)
        as [[_ Hfar] | [pre [id [b [post [_ [Hr _]]]]]]]; [| congruence].
      rewrite Forall_forall in *. intros kb Hin.
      split; [now apply Hf | now apply Hfar].
    + intros H.
      assert (Hout : Forall outside (Intent.displays ie))
        by (eapply Forall_impl; [| exact H]; now intros kb [Ho _]).
      rewrite firstInside_none by exact Hout.
      destruct (closestLoop_spec x y (Intent.displays ie) None
                  Intent.Infinity)
        as [[Hr _] | [pre [id [b [post [Hsplit [_ [Hb _]]]]]]]];
        [exact Hr |].
      rewrite Forall_forall in H.
      destruct (H (id, b)) as [_ Hfar];
        [rewrite Hsplit; apply in_elt |].
      unfold near in Hfar. simpl in Hfar.
      unfold Intent.Infinity in Hb. congruence.
  - now intros ->.
  - intros id. apply pointToScreen_key.
  - repeat split; vm_compute; reflexivity.
Qed.

(* ------------------------------------------------------------------ *)
(** ** From the detector to the engine *)

(** The output of a tick: nothing when the cursor is attributed to no
    screen; otherwise at most one hover signal followed by at most one
    movement signal, both for the attributed screen. *)
Lemma pollCursor_output now pos ie :
  snd (Intent.pollCursor now pos ie) = []
  \/ exists id hover move,
       Intent.pointToScreen ie (fst pos) (snd pos) = Some id
       /\ Js.truthy (Some id) = true
       /\ snd (Intent.pollCursor now pos ie) = hover ++ move
       /\ (hover = []
           \/ hover = [Intent.Signal
                         (Intent.plainSignal Hover id (fst pos) (snd pos) now)]
              /\ Intent.hoverEmitted ie = false
              /\ resetsHover ie pos = false)
       /\ (move = []
           \/ exists speed,
               move = [Intent.Signal
                         (mkIntentSignal PointerMove id (fst pos) (snd pos)
                                         now (Some speed) None)]).
Proof.
  unfold Intent.pollCursor, resetsHover.
  destruct (Intent.pointToScreen ie (fst pos) (snd pos)) as [id |];
    [| now left].
  destruct (Js.truthy (Some id)) eqn:Ht; cbn [negb]; [| now left].
  right. exists id.
  destruct (Intent.hoverRadiusPx (Intent.config ie)
            <? Intent.hypot (fst pos - Intent.hoverStartX ie)
                            (snd pos - Intent.hoverStartY ie))%float.
  - eexists [], _.
    split; [reflexivity |]. split; [exact Ht |].
    split; [reflexivity |]. split; [now left |].
    cbn [Intent.resetHover Intent.config].
    break_branch; [right; eexists; reflexivity | now left].
  - destruct (negb (Intent.hoverEmitted ie)
              && (Intent.hoverThresholdMs (Intent.config ie)
                  <=? now - Intent.hoverStartTs ie)) eqn:Hh.
    + eexists [_], _.
      split; [reflexivity |]. split; [exact Ht |].
      split; [reflexivity |]. split.
      * right. apply andb_true_iff in Hh as [Hh _].
        apply negb_true_iff in Hh. now repeat split.
      * cbn [Intent.markHover Intent.config].
        break_branch; [right; eexists; reflexivity | now left].
    + eexists [], _.
      split; [reflexivity |]. split; [exact Ht |].
      split; [reflexivity |]. split; [now left |].
      break_branch; [right; eexists; reflexivity | now left].
Qed.

(** The signals a point-attributing call emits are tagged with the
    screen [pointToScreen] gives for their coordinates. *)
Lemma pointAttributed_tag ie c s :
  pointAttributed c = true ->
  In (Intent.Signal s) (snd (Intent.call ie c)) ->
  Intent.pointToScreen ie (s_x s) (s_y s) = Some (s_screenId s)
  /\ Js.truthy (Some (s_screenId s)) = true.
Proof.
  destruct c as [| | ds | clock x y dbl | clock x y | clock x y
                 | clock x y | clock cursor w | clock cursor w | now pos];
    try discriminate; intros Hpa; simpl.
  - unfold Intent.onMouseClick.
    destruct (Intent.pointToScreen ie x y) as [id |] eqn:Hp; [| intros []].
    destruct (Js.truthy (Some id)) eqn:Ht; simpl; [| intros []].
    intros [[= <-] | []]. simpl. now split.
  - unfold Intent.onDragStart.
    destruct (Intent.pointToScreen ie x y) as [id |] eqn:Hp; [| intros []].
    destruct (Js.truthy (Some id)) eqn:Ht; simpl; [| intros []].
    intros [[= <-] | []]. simpl. now split.
  - unfold Intent.onDragEnd.
    destruct (Intent.pointToScreen ie x y) as [id |] eqn:Hp; [| intros []].
    destruct (Js.truthy (Some id)) eqn:Ht; simpl; [| intros []].
    intros [[= <-] | []]. simpl. now split.
  - unfold Intent.onScroll.
    destruct (Intent.pointToScreen ie x y) as [id |] eqn:Hp; [| intros []].
    destruct (Js.truthy (Some id)) eqn:Ht; simpl; [| intros []].
    intros [[= <-] | []]. simpl. now split.
  - unfold Intent.onTyping. simpl in Hpa.
    apply negb_true_iff in Hpa. rewrite Hpa.
    destruct (Intent.pointToScreen ie (fst cursor) (snd cursor))
      as [id |] eqn:Hp; [| intros []].
    destruct (Js.truthy (Some id)) eqn:Ht; simpl; [| intros []].
    intros [[= <-] | []]. simpl. now split.
  - destruct (pollCursor_output now pos ie)
      as [-> | [id [hover [move [Hp [Ht [-> [Hh Hm]]]]]]]]; [intros [] |].
    intros Hin. apply in_app_or in Hin as [Hin | Hin].
    + destruct Hh as [-> | [-> _]]; [destruct Hin |].
      destruct Hin as [[= <-] | []]. simpl. now split.
    + destruct Hm as [-> | [speed ->]]; [destruct Hin |].
      destruct Hin as [[= <-] | []]. simpl. now split.
Qed.

(** X19.  The detector's tags are honoured by the engine.  A signal
    emitted by a click, drag, scroll, cursor tick, or by typing without
    a window display carries a non-empty screenId that is the detector's
    [pointToScreen] of its coordinates and a key of the detector's
    bounds map; an engine holding the same bounds map attributes the
    signal to exactly that screen, without looking at the coordinates
    again. *)
Theorem detector_tags_are_honoured
  (ie : Intent.IntentEngine) (c : Intent.Call) (s : IntentSignal)
  (e : FocusAlgorithm) :
  pointAttributed c = true ->
  In (Intent.Signal s) (snd (Intent.call ie c)) ->
  displays e = Intent.displays ie ->
  Intent.pointToScreen ie (s_x s) (s_y s) = Some (s_screenId s)
  /\ s_screenId s <> EmptyString
  /\ Js.has (Intent.displays ie) (s_screenId s) = true
  /\ attributeToScreen e s = Some (s_screenId s).
Proof.
  intros Hpa Hin Hdisp.
  destruct (pointAttributed_tag ie c s Hpa Hin) as [Hp Ht].
  pose proof (pointToScreen_key ie _ _ _ Hp) as Hhas.
  split; [exact Hp |]. split; [| split; [exact Hhas |]].
  - intros Heq. rewrite Heq in Ht. discriminate Ht.
  - unfold attributeToScreen, directScreen.
    now rewrite Hdisp, Ht, Hhas.
Qed.

(** [detector_tags_are_honoured] on a double click at (2000, 500). *)
Lemma detector_tags_are_honoured_witness :
  let ie := Intent.constructor [D1; D2; D3]
              (Intent.mkPartial None None None None) in
  let c := Intent.MouseClick 1000 2000 500 true in
  let s := Intent.plainSignal DoubleClick "D2" 2000 500 1000 in
  (pointAttributed c = true
   /\ In (Intent.Signal s) (snd (Intent.call ie c))
   /\ displays scenarioEngine = Intent.displays ie)
  /\ attributeToScreen scenarioEngine s = Some "D2"%string.
Proof.
  intros ie c s.
  assert (Hin : In (Intent.Signal s) (snd (Intent.call ie c)))
    by (left; reflexivity).
  split; [repeat split; exact Hin |].
  exact (proj2 (proj2 (proj2 (detector_tags_are_honoured
                                ie c s scenarioEngine eq_refl Hin
                                eq_refl)))).
Defined.

Lemma pointerLoop_is_firstInside entries x y :
  (exists kb, In kb entries /\ inside (snd kb) x y = true) ->
  pointerLoop entries x y None Initial = Intent.firstInside entries x y.
Proof.
  intros Hex.
  destruct (first_inside_exists x y entries Hex)
    as [pre [id [b [post [-> [Hpre Hb]]]]]].
  rewrite pointerLoop_inside by assumption.
  now rewrite firstInside_found.
Qed.

(** X20.  The engine and the detector attribute a point to the same
    screen whenever some display contains it: on a shared bounds map,
    for a signal without a usable tag, pointer-based attribution in
    [attributeToScreen] and [pointToScreen] both return the first
    containing display.  Outside all displays they need not agree: the
    engine goes by the distance to the rectangle, the detector by the
    distance to the centre. *)
Theorem attributions_agree_inside
  (ie : Intent.IntentEngine) (e : FocusAlgorithm) (signal : IntentSignal) :
  displays e = Intent.displays ie ->
  directScreen e signal = None ->
  (exists kb, In kb (displays e)
              /\ inside (snd kb) (s_x signal) (s_y signal) = true) ->
  attributeToScreen e signal
  = Intent.pointToScreen ie (s_x signal) (s_y signal)
  /\ (let gap := mkIntentSignal Click "" 160 50 0 None None in
      attributeToScreen (new_engine "s" narrowAndWide emptyPartial) gap
      = Some "B"%string
      /\ Intent.pointToScreen
           (Intent.constructor narrowAndWide
              (Intent.mkPartial None None None None)) 160 50
         = Some "A"%string).
Proof.
  intros Hdisp Hdirect Hex. split; [| split; reflexivity].
  unfold attributeToScreen, Intent.pointToScreen.
  rewrite Hdirect, <- Hdisp, (pointerLoop_is_firstInside _ _ _ Hex).
  destruct (first_inside_exists _ _ _ Hex)
    as [pre [id [b [post [-> [Hpre Hb]]]]]].
  now rewrite firstInside_found.
Qed.

(** [attributions_agree_inside] on an untagged click inside D2. *)
Lemma attributions_agree_inside_witness :
  let ie := Intent.constructor [D1; D2; D3]
              (Intent.mkPartial None None None None) in
  let signal := mkIntentSignal Click "" 2000 500 1000 None None in
  (displays scenarioEngine = Intent.displays ie
   /\ directScreen scenarioEngine signal = None)
  /\ attributeToScreen scenarioEngine signal
     = Intent.pointToScreen ie 2000 500.
Proof.
  intros ie signal. split; [split; reflexivity |].
  refine (proj1 (attributions_agree_inside ie scenarioEngine signal
                   eq_refl eq_refl _)).
  exists ("D2"%string, D2). split; [right; left; reflexivity | reflexivity].
Defined.

(* ------------------------------------------------------------------ *)
(** ** Cursor ticks *)

(** X21.  A cursor tick always records the sampled position and time.
    When the cursor is attributed to no screen it emits nothing;
    otherwise it emits at most one [Hover] signal followed by at most
    one [PointerMove] signal and nothing else.  Every signal of a tick
    is stamped with the tick's time, carries the sampled coordinates and
    the screen [pointToScreen] gives for them, and has no window
    display; only the movement signal has a speed. *)
Theorem tick_emits_hover_then_move
  (now : Z) (pos : Z * Z) (ie : Intent.IntentEngine) :
  let r := Intent.pollCursor now pos ie in
  (Intent.lastCursorX (fst r) = fst pos
   /\ Intent.lastCursorY (fst r) = snd pos
   /\ Intent.lastCursorTs (fst r) = now
   /\ Intent.config (fst r) = Intent.config ie
   /\ Intent.displays (fst r) = Intent.displays ie
   /\ Intent.running (fst r) = Intent.running ie)
  /\ (Intent.pointToScreen ie (fst pos) (snd pos) = None -> snd r = [])
  /\ (exists hover move,
        snd r = map Intent.Signal (hover ++ move)
        /\ (List.length hover <= 1)%nat /\ (List.length move <= 1)%nat
        /\ Forall (fun s => s_type s = Hover /\ s_speedPxPerS s = None) hover
        /\ Forall (fun s => s_type s = PointerMove
                            /\ s_speedPxPerS s <> None) move)
  /\ (forall s, In (Intent.Signal s) (snd r) ->
                s_timestampMs s = now
                /\ (s_x s, s_y s) = pos
                /\ Intent.pointToScreen ie (fst pos) (snd pos)
                   = Some (s_screenId s)
                /\ s_windowDisplayId s = None
                /\ movementOnly s = true).
Proof.
  intros r. split; [| split; [| split]].
  - unfold r, Intent.pollCursor.
    repeat break_branch; now repeat split.
  - unfold r, Intent.pollCursor. now intros ->.
  - destruct (pollCursor_output now pos ie)
      as [Hnil | [id [hover [move [_ [_ [Hout [Hh Hm]]]]]]]].
    + exists [], []. fold r in Hnil. rewrite Hnil.
      repeat split; simpl; try lia; constructor.
    + fold r in Hout. rewrite Hout.
      destruct Hh as [-> | [-> _]]; destruct Hm as [-> | [speed ->]].
      * exists [], []. repeat split; simpl; try lia; constructor.
      * eexists [], [_]. split; [reflexivity |].
        repeat split; simpl; try lia; repeat constructor. discriminate.
      * eexists [_], []. split; [reflexivity |].
        repeat split; simpl; try lia; repeat constructor.
      * eexists [_], [_]. split; [reflexivity |].
        repeat split; simpl; try lia; repeat constructor. discriminate.
  - intros s Hin.
    destruct (pollCursor_output now pos ie)
      as [Hnil | [id [hover [move [Hp [_ [Hout [Hh Hm]]]]]]]];
      fold r in Hnil || fold r in Hout.
    + rewrite Hnil in Hin. destruct Hin.
    + rewrite Hout in Hin. apply in_app_or in Hin as [Hin | Hin].
      * destruct Hh as [-> | [-> _]]; [destruct Hin |].
        destruct Hin as [[= <-] | []]. simpl.
        rewrite <- surjective_pairing. now repeat split.
      * destruct Hm as [-> | [speed ->]]; [destruct Hin |].
        destruct Hin as [[= <-] | []]. simpl.
        rewrite <- surjective_pairing. now repeat split.
Qed.

Lemma hoverCount_app l1 l2 :
  hoverCount (l1 ++ l2) = (hoverCount l1 + hoverCount l2)%nat.
Proof.
  unfold hoverCount.
  induction l1 as [| [| | s] l1 IH]; simpl; try exact IH;
    [reflexivity |].
  destruct (SignalType_eqb (s_type s) Hover); simpl; now rewrite ?IH.
Qed.

(** What a tick does to the hover anchor and flag. *)
Lemma pollCursor_hover now pos ie :
  let r := Intent.pollCursor now pos ie in
  let ie' := fst r in
  (resetsHover ie pos = true
   /\ hoverCount (snd r) = O
   /\ Intent.hoverEmitted ie' = false
   /\ (Intent.hoverStartX ie', Intent.hoverStartY ie', Intent.hoverStartTs ie')
      = (fst pos, snd pos, now))
  \/ (resetsHover ie pos = false
      /\ (Intent.hoverStartX ie', Intent.hoverStartY ie',
          Intent.hoverStartTs ie')
         = (Intent.hoverStartX ie, Intent.hoverStartY ie,
            Intent.hoverStartTs ie)
      /\ ((hoverCount (snd r) = O
           /\ Intent.hoverEmitted ie' = Intent.hoverEmitted ie)
          \/ (hoverCount (snd r) = 1%nat
              /\ Intent.hoverEmitted ie = false
              /\ Intent.hoverEmitted ie' = true
              /\ Intent.hoverThresholdMs (Intent.config ie)
                 <= now - Intent.hoverStartTs ie))).
Proof.
  unfold Intent.pollCursor, resetsHover.
  destruct (Intent.pointToScreen ie (fst pos) (snd pos)) as [id |];
    [| right; repeat split; now left].
  destruct (Js.truthy (Some id)); cbn [negb andb];
    [| right; repeat split; now left].
  destruct (Intent.hoverRadiusPx (Intent.config ie)
            <? Intent.hypot (fst pos - Intent.hoverStartX ie)
                            (snd pos - Intent.hoverStartY ie))%float.
  - left. cbn [Intent.resetHover Intent.config].
    break_branch; now repeat split.
  - right.
    destruct (negb (Intent.hoverEmitted ie)
              && (Intent.hoverThresholdMs (Intent.config ie)
                  <=? now - Intent.hoverStartTs ie)) eqn:Hh.
    + apply andb_true_iff in Hh as [Hf Hms].
      apply negb_true_iff in Hf. apply Z.leb_le in Hms.
      cbn [Intent.markHover Intent.config].
      break_branch; (split; [reflexivity |]); (split; [reflexivity |]);
        right; now repeat split.
    + break_branch; (split; [reflexivity |]); (split; [reflexivity |]);
        left; now repeat split.
Qed.

Lemma run_polls_cons ie now pos rest :
  Intent.run ie (polls ((now, pos) :: rest))
  = (fst (Intent.run (fst (Intent.pollCursor now pos ie)) (polls rest)),
     snd (Intent.pollCursor now pos ie)
     ++ snd (Intent.run (fst (Intent.pollCursor now pos ie)) (polls rest))).
Proof.
  simpl. destruct (Intent.pollCursor now pos ie) as [ie1 out1].
  simpl. now destruct (Intent.run ie1 (polls rest)).
Qed.

Lemma run_polls_hover ticks :
  forall ie,
    let r := Intent.run ie (polls ticks) in
    (hoverCount (snd r) + (if Intent.hoverEmitted ie then 1 else 0)
     <= resetCount ie ticks
        + (if Intent.hoverEmitted (fst r) then 1 else 0))%nat
    /\ (resetCount ie ticks = O ->
        (Intent.hoverStartX (fst r), Intent.hoverStartY (fst r),
         Intent.hoverStartTs (fst r))
        = (Intent.hoverStartX ie, Intent.hoverStartY ie,
           Intent.hoverStartTs ie)).
Proof.
  induction ticks as [| [now pos] rest IH]; intros ie.
  - simpl. split; [lia | reflexivity].
  - cbv zeta. rewrite run_polls_cons. cbn [fst snd resetCount].
    rewrite hoverCount_app.
    specialize (IH (fst (Intent.pollCursor now pos ie))).
    cbv zeta in IH. destruct IH as [IHle IHanchor].
    destruct (pollCursor_hover now pos ie)
      as [[Hr [Hc [Hf _]]] | [Hr [Ha [[Hc Hf] | [Hc [Hf0 [Hf1 _]]]]]]];
      rewrite Hr, Hc; rewrite ?Hf, ?Hf0, ?Hf1 in *.
    + split; [| discriminate].
      destruct (Intent.hoverEmitted ie); lia.
    + split; [lia |]. intros H0. rewrite IHanchor by exact H0. exact Ha.
    + split; [lia |]. intros H0. rewrite IHanchor by exact H0. exact Ha.
Qed.

(** X22.  Hover is single-shot per anchor.  Over any sequence of cursor
    ticks the number of [Hover] signals emitted is at most one more than
    the number of ticks that reset the hover anchor (none more if a
    hover had already been emitted for the current anchor).  In
    particular, over ticks that never leave the hover radius the anchor
    stays where it was and at most one [Hover] is emitted, however long
    the cursor rests. *)
Theorem hover_is_single_shot
  (ie : Intent.IntentEngine) (ticks : list (Z * (Z * Z))) :
  let r := Intent.run ie (polls ticks) in
  (hoverCount (snd r) + (if Intent.hoverEmitted ie then 1 else 0)
   <= resetCount ie ticks + 1)%nat
  /\ (resetCount ie ticks = O ->
      (hoverCount (snd r) <= 1)%nat
      /\ (Intent.hoverEmitted ie = true -> hoverCount (snd r) = O)
      /\ (Intent.hoverStartX (fst r), Intent.hoverStartY (fst r),
          Intent.hoverStartTs (fst r))
         = (Intent.hoverStartX ie, Intent.hoverStartY ie,
            Intent.hoverStartTs ie)).
Proof.
  intros r. destruct (run_polls_hover ticks ie) as [Hle Hanchor].
  fold r in Hle, Hanchor.
  split.
  - destruct (Intent.hoverEmitted (fst r)); lia.
  - intros H0. rewrite H0 in Hle. split; [| split].
    + destruct (Intent.hoverEmitted (fst r)); lia.
    + intros Hf. rewrite Hf in Hle.
      destruct (Intent.hoverEmitted (fst r)); lia.
    + now apply Hanchor.
Qed.

(** Under the default switch threshold a motion-only signal, with no
    override pending, leaves the focus alone. *)
Lemma movementOnly_silent clock e signal :
  switchThreshold (config e) = 0.80%float ->
  movementOnly signal = true ->
  manualOverride (state e) = None ->
  focusChangeEvents (snd (processSignal clock e signal)) = []
  /\ unswitched e (fst (processSignal clock e signal)).
Proof.
  intros Hthr Hmove Hnone.
  destruct (processSignal_shape clock e signal)
    as [_ [H | [ev [Hout _]]]]; [exact H |].
  exfalso.
  assert (Hin : In (FocusChange ev) (snd (processSignal clock e signal)))
    by (rewrite Hout; now left).
  destruct (processSignal_switch_inv clock e signal ev Hin)
    as [[S [HS _]] | [cand [_ [_ [_ [_ [_ H]]]]]]]; [congruence |].
  simpl in H. destruct H as [_ [_ [Hle _]]].
  rewrite Hthr in Hle. now rewrite movement_confidence_low in Hle.
Qed.

(** X23.  Cursor ticks cannot move the focus of an engine that runs
    with the default switch threshold: whatever the cursor does, and in
    whatever state the engine is (dwell satisfied or not), a signal
    synthesized by [pollCursor] and handed to [processSignal], with no
    manual override pending, emits no focus change and leaves the active
    screen, the sequence counter and [lastSwitchTs] as they were. *)
Theorem ticks_never_switch_focus
  (now : Z) (pos : Z * Z) (ie : Intent.IntentEngine) (s : IntentSignal)
  (clock : Z) (e : FocusAlgorithm) :
  In (Intent.Signal s) (snd (Intent.pollCursor now pos ie)) ->
  switchThreshold (config e) = 0.80%float ->
  manualOverride (state e) = None ->
  let r := processSignal clock e s in
  focusChangeEvents (snd r) = []
  /\ activeScreenId (state (fst r)) = activeScreenId (state e)
  /\ sequence (state (fst r)) = sequence (state e)
  /\ lastSwitchTs (state (fst r)) = lastSwitchTs (state e).
Proof.
  intros Hin Hthr Hnone r.
  assert (Hmove : movementOnly s = true).
  { destruct (pollCursor_output now pos ie)
      as [Hnil | [id [hover [move [_ [_ [Hout [Hh Hm]]]]]]]].
    - rewrite Hnil in Hin. destruct Hin.
    - rewrite Hout in Hin. apply in_app_or in Hin as [Hin | Hin].
      + destruct Hh as [-> | [-> _]]; [destruct Hin |].
        now destruct Hin as [[= <-] | []].
      + destruct Hm as [-> | [speed ->]]; [destruct Hin |].
        now destruct Hin as [[= <-] | []]. }
  destruct (movementOnly_silent clock e s Hthr Hmove Hnone)
    as [Hno [Hact [Hseq [Hls _]]]].
  now repeat split.
Qed.

(** [ticks_never_switch_focus] on a cursor that has rested on D2 for a
    second: its hover signal reaches an engine whose candidate has been
    D2 for 900 ms. *)
Lemma ticks_never_switch_focus_witness :
  let ie :=
    fst (Intent.run (Intent.constructor [D1; D2; D3]
                       (Intent.mkPartial None None None None))
           [Intent.Poll 1000 (2000, 500)]) in
  let s := Intent.plainSignal Hover "D2" 2001 500 2000 in
  let e :=
    fst (run scenarioEngine
           [ProcessSignal 0 (makeSignal Click "D1" 1000);
            ProcessSignal 0 (makeSignal PointerMove "D2" 1100)]) in
  In (Intent.Signal s) (snd (Intent.pollCursor 2000 (2001, 500) ie))
  /\ activeScreenId (state (fst (processSignal 0 e s))) = Some "D1"%string.
Proof.
  intros ie s e.
  assert (Hin : In (Intent.Signal s)
                   (snd (Intent.pollCursor 2000 (2001, 500) ie)))
    by (vm_compute; left; reflexivity).
  split; [exact Hin |].
  exact (proj1 (proj2 (ticks_never_switch_focus
                         2000 (2001, 500) ie s 0 e Hin eq_refl eq_refl))).
Defined.

(* ------------------------------------------------------------------ *)
(** ** Lifecycle of the detector *)


Lemma lifecycleOf_signals l :
  lifecycleOf (map Intent.Signal l) = [].
Proof. induction l as [| s l IH]; simpl; [reflexivity | exact IH]. Qed.





(* ------------------------------------------------------------------ *)
(** ** Window displays *)

(** X25.  Window displays are passed on unchecked by the detector and
    checked by the engine.  [onTyping] with a non-empty window display
    and [onWindowFocusChange] each emit exactly one signal tagged with
    that display, whether the detector knows it or not.  An engine that
    knows the display attributes the signal to it; an engine that does
    not falls back to its pointer rule on the cursor position the signal
    carries. *)
Theorem window_displays_are_checked_by_the_engine
  (clock : Z) (cursor : Z * Z) (ie : Intent.IntentEngine) (w : ScreenId)
  (e : FocusAlgorithm) :
  let typing := {|
    s_type := Typing; s_screenId := w;
    s_x := fst cursor; s_y := snd cursor; s_timestampMs := clock;
    s_speedPxPerS := None; s_windowDisplayId := Some w |} in
  let focus := {|
    s_type := WindowFocus; s_screenId := w;
    s_x := fst cursor; s_y := snd cursor; s_timestampMs := clock;
    s_speedPxPerS := None; s_windowDisplayId := Some w |} in
  Intent.onWindowFocusChange clock cursor ie w = [Intent.Signal focus]
  /\ (w <> EmptyString ->
      Intent.onTyping clock cursor ie (Some w) = [Intent.Signal typing])
  /\ (if negb (String.eqb w "") && Js.has (displays e) w
      then attributeToScreen e typing = Some w
           /\ attributeToScreen e focus = Some w
      else attributeToScreen e typing
           = pointerLoop (displays e) (fst cursor) (snd cursor) None Initial
           /\ attributeToScreen e focus
              = pointerLoop (displays e) (fst cursor) (snd cursor)
                            None Initial).
Proof.
  intros typing focus. split; [reflexivity |]. split.
  - intros Hne. apply String.eqb_neq in Hne.
    unfold Intent.onTyping. cbn [Js.truthy]. rewrite Hne.
    cbn [negb]. cbn [Js.truthy]. now rewrite Hne.
  - unfold attributeToScreen, directScreen. simpl.
    destruct (negb (String.eqb w "") && Js.has (displays e) w) eqn:Hk.
    + now split.
    + now split.
Qed.
